(** * dashbrr: the health-check engine of the service checkers

    A shallow embedding of the Go service checkers of dashbrr
    (internal/services/autobrr, maintainerr, general, prowlarr), of its
    configuration (internal/config) and of the configuration its server
    starts with (cmd/dashbrr), and the properties their specification
    states about them.

    Strings are byte strings, as in Go.  Effects (the cache store, the
    network, the clock, goroutines and their channels) are threaded through
    an explicit state monad [M]. *)

From Stdlib Require Import ZArith NArith Ascii String List Bool Lia.
From stdpp Require Import base option list gmap strings pretty.

Set Warnings "-register-all".

Open Scope Z_scope.
Open Scope string_scope.

(** ** Bytes *)

Definition code (a : ascii) : N := N_of_ascii a.
Definition byte (n : N) : ascii := ascii_of_N n.

Definition in_range (lo hi : N) (a : ascii) : bool :=
  ((lo <=? code a) && (code a <=? hi))%N.

Definition is_byte (n : N) (a : ascii) : bool := (code a =? n)%N.

(** ** The part of Go's [strings] and [fmt] packages the checkers use *)
Module strings.

(** The tests [s == empty] and [s != empty] of a string. *)
Definition empty (s : string) : bool :=
  match s with EmptyString => true | String _ _ => false end.

(** [strings.TrimRight(s, cutset)] for a cutset of one ASCII byte. *)
Fixpoint TrimRight (s : string) (c : ascii) : string :=
  match s with
  | EmptyString => EmptyString
  | String a r =>
      let r' := TrimRight r c in
      if empty r' && Ascii.eqb a c then EmptyString else String a r'
  end.

(** [strings.TrimLeft(s, cutset)] for a cutset of one ASCII byte. *)
Fixpoint TrimLeft (s : string) (c : ascii) : string :=
  match s with
  | EmptyString => EmptyString
  | String a r => if Ascii.eqb a c then TrimLeft r c else s
  end.

(** [strings.Trim(s, cutset)] for a cutset of one ASCII byte. *)
Definition Trim (s : string) (c : ascii) : string :=
  TrimRight (TrimLeft s c) c.

(** White space as [unicode.IsSpace] has it, by UTF-8 encoding:
    the six ASCII characters, U+0085, U+00A0, U+1680, U+2000..U+200A,
    U+2028, U+2029, U+202F, U+205F and U+3000. *)
Definition space1 (a : ascii) : bool :=
  in_range 9 13 a || is_byte 32 a.

Definition space2 (a1 a2 : ascii) : bool :=
  is_byte 194 a1 && (is_byte 133 a2 || is_byte 160 a2).

Definition space3 (a1 a2 a3 : ascii) : bool :=
  (is_byte 225 a1 && is_byte 154 a2 && is_byte 128 a3)
  || (is_byte 226 a1 && is_byte 128 a2
      && (in_range 128 138 a3 || is_byte 168 a3 || is_byte 169 a3
          || is_byte 175 a3))
  || (is_byte 226 a1 && is_byte 129 a2 && is_byte 159 a3)
  || (is_byte 227 a1 && is_byte 128 a2 && is_byte 128 a3).

(** Leading white space.  With [backwards] the bytes of [s] are those of
    a reversed string, so that a code point shows its last byte first. *)
Fixpoint trim_space (backwards : bool) (s : string) : string :=
  match s with
  | String a1 r1 =>
      if space1 a1 then trim_space backwards r1 else
      match r1 with
      | String a2 r2 =>
          if (if backwards then space2 a2 a1 else space2 a1 a2)
          then trim_space backwards r2 else
          match r2 with
          | String a3 r3 =>
              if (if backwards then space3 a3 a2 a1 else space3 a1 a2 a3)
              then trim_space backwards r3 else s
          | EmptyString => s
          end
      | EmptyString => s
      end
  | EmptyString => s
  end.

(** [strings.TrimSpace] *)
Definition TrimSpace (s : string) : string :=
  String.rev (trim_space true (String.rev (trim_space false s))).

Definition lower (a : ascii) : ascii :=
  if in_range 65 90 a then byte (code a + 32) else a.

(** [strings.ToLower].  Upper-case ASCII letters, and the two code points
    beyond ASCII whose lower case is an ASCII letter (U+212A KELVIN SIGN
    gives k, U+0130 gives i), are mapped; every other byte is kept.  The
    checkers only compare the result with lower-case ASCII literals,
    which no other code point can produce. *)
Fixpoint ToLower (s : string) : string :=
  match s with
  | EmptyString => EmptyString
  | String a1 r1 =>
      match r1 with
      | String a2 r2 =>
          if is_byte 196 a1 && is_byte 176 a2 then String "i" (ToLower r2)
          else
            match r2 with
            | String a3 r3 =>
                if is_byte 226 a1 && is_byte 132 a2 && is_byte 170 a3
                then String "k" (ToLower r3)
                else String (lower a1) (ToLower r1)
            | EmptyString => String (lower a1) (ToLower r1)
            end
      | EmptyString => String (lower a1) EmptyString
      end
  end.

(** [strings.EqualFold(s, lit)] (and [bytes.EqualFold]) for an ASCII
    literal [lit]: simple case folding pairs k and K with U+212A and
    s and S with U+017F. *)
Fixpoint EqualFold (s lit : string) : bool :=
  match lit with
  | EmptyString => empty s
  | String c lit' =>
      match s with
      | EmptyString => false
      | String a1 r1 =>
          if Ascii.eqb (lower a1) (lower c) then EqualFold r1 lit'
          else
            match r1 with
            | String a2 r2 =>
                if Ascii.eqb (lower c) "s" && is_byte 197 a1 && is_byte 191 a2
                then EqualFold r2 lit'
                else
                  match r2 with
                  | String a3 r3 =>
                      if Ascii.eqb (lower c) "k" && is_byte 226 a1
                         && is_byte 132 a2 && is_byte 170 a3
                      then EqualFold r3 lit'
                      else false
                  | EmptyString => false
                  end
            | EmptyString => false
            end
      end
  end.

(** [%d] of [fmt.Sprintf] *)
Definition itoa (z : Z) : string := pretty z.

End strings.

Definition dquote : ascii := byte 34.

(** Test inputs are written with [q]: every apostrophe stands for a double
    quote, so that JSON text stays readable. *)
Fixpoint q (s : string) : string :=
  match s with
  | EmptyString => EmptyString
  | String a r => String (if is_byte 39 a then dquote else a) (q r)
  end.


(** ** UTF-8, as [unicode/utf8] decodes and encodes it *)
Module utf8.

Definition cont (a : ascii) : bool := in_range 128 191 a.

Fixpoint conts (n : nat) (s : string) : bool :=
  match n with
  | O => true
  | S k => match s with
           | String a r => cont a && conts k r
           | EmptyString => false
           end
  end.

(** The length of the well-formed encoding that starts with the byte
    [a1 >= 0x80] followed by [r]; 0 when [utf8.DecodeRune] would answer
    [RuneError] with width 1. *)
Definition size (a1 : ascii) (r : string) : nat :=
  match r with
  | EmptyString => 0
  | String a2 r2 =>
      if in_range 194 223 a1 then (if cont a2 then 2 else 0)
      else if is_byte 224 a1 then
        (if in_range 160 191 a2 && conts 1 r2 then 3 else 0)
      else if in_range 225 236 a1 || in_range 238 239 a1 then
        (if cont a2 && conts 1 r2 then 3 else 0)
      else if is_byte 237 a1 then
        (if in_range 128 159 a2 && conts 1 r2 then 3 else 0)
      else if is_byte 240 a1 then
        (if in_range 144 191 a2 && conts 2 r2 then 4 else 0)
      else if in_range 241 243 a1 then
        (if cont a2 && conts 2 r2 then 4 else 0)
      else if is_byte 244 a1 then
        (if in_range 128 143 a2 && conts 2 r2 then 4 else 0)
      else 0
  end%nat.

(** [utf8.EncodeRune] for a code point that is no surrogate. *)
Definition encode (r : N) : string :=
  (if r <? 128 then String (byte r) EmptyString
   else if r <? 2048 then
     String (byte (192 + r / 64)) (String (byte (128 + r mod 64)) EmptyString)
   else if r <? 65536 then
     String (byte (224 + r / 4096))
       (String (byte (128 + (r / 64) mod 64))
          (String (byte (128 + r mod 64)) EmptyString))
   else
     String (byte (240 + r / 262144))
       (String (byte (128 + (r / 4096) mod 64))
          (String (byte (128 + (r / 64) mod 64))
             (String (byte (128 + r mod 64)) EmptyString))))%N.

(** U+FFFD, [unicode.ReplacementChar] *)
Definition replacement : string := encode 65533.

End utf8.

(** ** The part of [encoding/json] the checkers use *)
Module json.

Inductive value :=
| Null
| Bool (b : bool)
| Number (lit : string)
| Str (s : string)
| Array (elems : list value)
| Object (fields : list (string * value)).

(** *** Scanning *)

Inductive token :=
| TLBrace | TRBrace | TLBrack | TRBrack | TColon | TComma
| TValue (v : value).

(** What a string literal is made of: a byte of the source, the byte a
    two-character escape stands for, or the UTF-16 unit of a [\u] escape. *)
Inductive sitem :=
| SRaw (a : ascii)
| SEsc (a : ascii)
| SUnit (u : N).

Fixpoint raw_prefix (items : list sitem) : string :=
  match items with
  | SRaw a :: r => String a (raw_prefix r)
  | _ => EmptyString
  end.

Definition high_surrogate (u : N) : bool := ((55296 <=? u) && (u <? 56320))%N.
Definition low_surrogate (u : N) : bool := ((56320 <=? u) && (u <? 57344))%N.

(** [unquote]: escapes are replaced, surrogate pairs joined, and the bytes
    of the source coerced to well-formed UTF-8 (a byte that starts no
    valid encoding becomes U+FFFD).  [skip] counts the continuation bytes
    of an encoding already accepted. *)
Fixpoint unquote (skip : nat) (items : list sitem) : string :=
  match items with
  | [] => EmptyString
  | SEsc a :: r => String a (unquote 0 r)
  | SUnit u :: r =>
      if high_surrogate u then
        match r with
        | SUnit u2 :: r2 =>
            if low_surrogate u2 then
              utf8.encode (65536 + (u - 55296) * 1024 + (u2 - 56320))%N
              ++ unquote 0 r2
            else utf8.replacement ++ unquote 0 r
        | _ => utf8.replacement ++ unquote 0 r
        end
      else if low_surrogate u then utf8.replacement ++ unquote 0 r
      else utf8.encode u ++ unquote 0 r
  | SRaw a :: r =>
      match skip with
      | S k => String a (unquote k r)
      | O =>
          if (code a <? 128)%N then String a (unquote 0 r)
          else
            match utf8.size a (raw_prefix r) with
            | O => utf8.replacement ++ unquote 0 r
            | S k => String a (unquote k r)
            end
      end
  end.

Definition digit (a : ascii) : bool := in_range 48 57 a.

Definition hex_val (a : ascii) : option N :=
  if digit a then Some (code a - 48)%N
  else if in_range 97 102 a then Some (code a - 87)%N
  else if in_range 65 70 a then Some (code a - 55)%N
  else None.

Fixpoint skip_digits (s : string) : string :=
  match s with
  | String a r => if digit a then skip_digits r else s
  | EmptyString => s
  end.

Definition starts_with_digit (s : string) : bool :=
  match s with String a _ => digit a | EmptyString => false end.

Definition valid_exp (s : string) : bool :=
  match s with
  | EmptyString => true
  | String a r =>
      (is_byte 101 a || is_byte 69 a)
      && (let r' := match r with
                    | String b r0 =>
                        if is_byte 43 b || is_byte 45 b then r0 else r
                    | EmptyString => r
                    end in
          starts_with_digit r' && strings.empty (skip_digits r'))
  end.

Definition valid_frac (s : string) : bool :=
  match s with
  | String a r =>
      if is_byte 46 a
      then starts_with_digit r && valid_exp (skip_digits r)
      else valid_exp s
  | EmptyString => true
  end.

(** The number grammar: an optional minus, 0 or a digit string without a
    leading 0, an optional fraction, an optional exponent. *)
Definition valid_number (s : string) : bool :=
  let s1 := match s with
            | String a r => if is_byte 45 a then r else s
            | EmptyString => s
            end in
  match s1 with
  | String a r =>
      if is_byte 48 a then valid_frac r
      else if in_range 49 57 a then valid_frac (skip_digits r)
      else false
  | EmptyString => false
  end.

Definition literal (s : string) : option value :=
  if String.eqb s "true" then Some (Bool true)
  else if String.eqb s "false" then Some (Bool false)
  else if String.eqb s "null" then Some Null
  else None.

Definition json_space (a : ascii) : bool :=
  is_byte 32 a || is_byte 9 a || is_byte 10 a || is_byte 13 a.

Definition number_char (a : ascii) : bool :=
  digit a || is_byte 43 a || is_byte 45 a || is_byte 46 a
  || is_byte 101 a || is_byte 69 a.

(** The scanner reads one byte at a time.  Accumulators are reversed. *)
Inductive lexmode :=
| LTop
| LNum (acc : string)
| LLit (acc : string)
| LStr (items : list sitem)
| LEsc (items : list sitem)
| LHex (items : list sitem) (digits : list N).

(** *** Parsing: a stack of the containers that are still open *)

Inductive frame :=
| FArr (elems : list value)
| FObj (fields : list (string * value)) (key : option string).

Inductive pmode :=
| PValue       (* a value *)
| PArrStart    (* a value or the end of the array *)
| PObjStart    (* a key or the end of the object *)
| PObjKey      (* a key *)
| PColon       (* the colon after a key *)
| PAfter       (* a comma or the end of the container *)
| PDone (v : value).

Definition pstate : Type := pmode * list frame.

(** The scanner refuses more than 10000 open containers. *)
Definition maxNestingDepth : N := 10000.

Definition deliver (v : value) (stack : list frame) : option pstate :=
  match stack with
  | [] => Some (PDone v, [])
  | FArr es :: st => Some (PAfter, FArr (v :: es) :: st)
  | FObj fs (Some k) :: st => Some (PAfter, FObj ((k, v) :: fs) None :: st)
  | FObj _ None :: _ => None
  end.

Definition push (f : frame) (m : pmode) (stack : list frame) : option pstate :=
  if (N.of_nat (length stack) <? maxNestingDepth)%N
  then Some (m, f :: stack) else None.

Definition begin_value (t : token) (stack : list frame) : option pstate :=
  match t with
  | TLBrack => push (FArr []) PArrStart stack
  | TLBrace => push (FObj [] None) PObjStart stack
  | TValue v => deliver v stack
  | _ => None
  end.

Definition begin_key (t : token) (stack : list frame) : option pstate :=
  match t, stack with
  | TValue (Str k), FObj fs None :: st => Some (PColon, FObj fs (Some k) :: st)
  | _, _ => None
  end.

Definition ptoken (ps : pstate) (t : token) : option pstate :=
  let '(m, stack) := ps in
  match m with
  | PValue => begin_value t stack
  | PArrStart =>
      match t, stack with
      | TRBrack, FArr es :: st => deliver (Array (rev es)) st
      | _, _ => begin_value t stack
      end
  | PObjStart =>
      match t, stack with
      | TRBrace, FObj fs None :: st => deliver (Object (rev fs)) st
      | _, _ => begin_key t stack
      end
  | PObjKey => begin_key t stack
  | PColon =>
      match t with
      | TColon => Some (PValue, stack)
      | _ => None
      end
  | PAfter =>
      match t, stack with
      | TComma, FArr _ :: _ => Some (PValue, stack)
      | TComma, FObj _ _ :: _ => Some (PObjKey, stack)
      | TRBrack, FArr es :: st => deliver (Array (rev es)) st
      | TRBrace, FObj fs None :: st => deliver (Object (rev fs)) st
      | _, _ => None
      end
  | PDone _ => None
  end.

Definition state : Type := lexmode * pstate.

Definition init : state := (LTop, (PValue, [])).

(** A byte met between two tokens. *)
Definition top (ps : pstate) (c : ascii) : option state :=
  if json_space c then Some (LTop, ps)
  else if is_byte 123 c then ps' ← ptoken ps TLBrace; Some (LTop, ps')
  else if is_byte 125 c then ps' ← ptoken ps TRBrace; Some (LTop, ps')
  else if is_byte 91 c then ps' ← ptoken ps TLBrack; Some (LTop, ps')
  else if is_byte 93 c then ps' ← ptoken ps TRBrack; Some (LTop, ps')
  else if is_byte 58 c then ps' ← ptoken ps TColon; Some (LTop, ps')
  else if is_byte 44 c then ps' ← ptoken ps TComma; Some (LTop, ps')
  else if is_byte 34 c then Some (LStr [], ps)
  else if is_byte 45 c || digit c then Some (LNum (String c EmptyString), ps)
  else if in_range 97 122 c then Some (LLit (String c EmptyString), ps)
  else None.

Definition end_number (acc : string) (ps : pstate) : option pstate :=
  let lit := String.rev acc in
  if valid_number lit then ptoken ps (TValue (Number lit)) else None.

Definition end_literal (acc : string) (ps : pstate) : option pstate :=
  v ← literal (String.rev acc); ptoken ps (TValue v).

Definition escape (c : ascii) : option ascii :=
  if is_byte 34 c || is_byte 92 c || is_byte 47 c then Some c
  else if is_byte 98 c then Some (byte 8)
  else if is_byte 102 c then Some (byte 12)
  else if is_byte 110 c then Some (byte 10)
  else if is_byte 114 c then Some (byte 13)
  else if is_byte 116 c then Some (byte 9)
  else None.

Definition feed (st : state) (c : ascii) : option state :=
  let '(lm, ps) := st in
  match lm with
  | LTop => top ps c
  | LNum acc =>
      if number_char c then Some (LNum (String c acc), ps)
      else ps' ← end_number acc ps; top ps' c
  | LLit acc =>
      if in_range 97 122 c then Some (LLit (String c acc), ps)
      else ps' ← end_literal acc ps; top ps' c
  | LStr items =>
      if is_byte 34 c then
        ps' ← ptoken ps (TValue (Str (unquote 0 (rev items)))); Some (LTop, ps')
      else if is_byte 92 c then Some (LEsc items, ps)
      else if (code c <? 32)%N then None
      else Some (LStr (SRaw c :: items), ps)
  | LEsc items =>
      if is_byte 117 c then Some (LHex items [], ps)
      else a ← escape c; Some (LStr (SEsc a :: items), ps)
  | LHex items ds =>
      d ← hex_val c;
      match ds with
      | [d3; d2; d1] =>
          Some (LStr (SUnit (d1 * 4096 + d2 * 256 + d3 * 16 + d)%N :: items), ps)
      | _ => Some (LHex items (d :: ds), ps)
      end
  end.

(** The end of the input. *)
Definition finish (st : state) : option value :=
  let '(lm, ps) := st in
  ps' ← match lm with
        | LTop => Some ps
        | LNum acc => end_number acc ps
        | LLit acc => end_literal acc ps
        | _ => None
        end;
  match ps' with
  | (PDone v, _) => Some v
  | _ => None
  end.

Fixpoint run (st : state) (s : string) : option value :=
  match s with
  | EmptyString => finish st
  | String c r => st' ← feed st c; run st' r
  end.

(** The value a whole input stands for, as [json.Unmarshal] checks it:
    one value, white space around it and nothing else. *)
Definition parse (s : string) : option value := run init s.

(** The first value of a stream, as [Decoder.Decode] reads it.  The scanner
    stops with the byte that ends the value: the bracket that closes an
    object or an array, the quote that closes a string, the last letter of
    true, false or null, and for a number the first byte that cannot go on
    with it.  What comes after is not looked at; an input that ends before
    the value does is an error. *)
Definition done (st : state) : option value :=
  match st with
  | (LTop, (PDone v, _)) => Some v
  | _ => None
  end.

Fixpoint run_first (st : state) (s : string) : option value :=
  match s with
  | EmptyString => None
  | String c r =>
      st' ← feed st c;
      match done st' with
      | Some v => Some v
      | None => run_first st' r
      end
  end.

(** The states of the scanner inside a number: after the minus, after a
    leading 0, among the digits of the integer part, after the point, among
    the digits of the fraction, after the e, after the sign of the
    exponent, among the digits of the exponent. *)
Inductive numstate :=
| NNeg | NZero | NInt | NDot | NFrac | NExp | NExpSign | NExpDigits.

(** The states a number may end in. *)
Definition accepting (st : numstate) : bool :=
  match st with
  | NZero | NInt | NFrac | NExpDigits => true
  | _ => false
  end.

Definition after_int (c : ascii) : option numstate :=
  if is_byte 46 c then Some NDot
  else if is_byte 101 c || is_byte 69 c then Some NExp
  else None.

(** The state after a byte that goes on with the number. *)
Definition number_next (st : numstate) (c : ascii) : option numstate :=
  match st with
  | NNeg =>
      if is_byte 48 c then Some NZero
      else if in_range 49 57 c then Some NInt
      else None
  | NZero => after_int c
  | NInt => if digit c then Some NInt else after_int c
  | NDot => if digit c then Some NFrac else None
  | NFrac =>
      if digit c then Some NFrac
      else if is_byte 101 c || is_byte 69 c then Some NExp
      else None
  | NExp =>
      if is_byte 43 c || is_byte 45 c then Some NExpSign
      else if digit c then Some NExpDigits
      else None
  | NExpSign | NExpDigits => if digit c then Some NExpDigits else None
  end.

(** The number a stream starts with: [acc] holds, reversed, the bytes read
    so far. *)
Fixpoint first_number (st : numstate) (acc s : string) : option string :=
  match s with
  | EmptyString => if accepting st then Some (String.rev acc) else None
  | String c r =>
      match number_next st c with
      | Some st' => first_number st' (String c acc) r
      | None => if accepting st then Some (String.rev acc) else None
      end
  end.

Definition first_literal (s : string) : option value :=
  if String.prefix "true" s then Some (Bool true)
  else if String.prefix "false" s then Some (Bool false)
  else if String.prefix "null" s then Some Null
  else None.

Fixpoint parse_first (s : string) : option value :=
  match s with
  | EmptyString => None
  | String c r =>
      if json_space c then parse_first r
      else if is_byte 45 c then Number <$> first_number NNeg (String c EmptyString) r
      else if is_byte 48 c then Number <$> first_number NZero (String c EmptyString) r
      else if digit c then Number <$> first_number NInt (String c EmptyString) r
      else if in_range 97 122 c then first_literal s
      else run_first init s
  end.

(** *** Decoding into Go values

    [Unmarshal] answers an error for input that is no JSON text
    ([SyntaxError]) and for a value that does not fit the target
    ([UnmarshalTypeError]: the decoder goes on after the first misfit,
    but the error it returns in the end is not nil).  The checkers never
    use the target of a failed call. *)

Inductive error := SyntaxError | UnmarshalTypeError.

(** The text of the error.  The wording of encoding/json (which quotes
    offsets and Go type names) is not reproduced. *)
Definition Error (e : error) : string :=
  match e with
  | SyntaxError => "invalid JSON input"
  | UnmarshalTypeError => "json: cannot unmarshal value into Go value"
  end.

Definition Unmarshal {T} (into : value → option T) (data : string) : T + error :=
  match parse data with
  | None => inr SyntaxError
  | Some v => match into v with
              | Some t => inl t
              | None => inr UnmarshalTypeError
              end
  end.

(** [Decoder.Decode] of a decoder reading [data] *)
Definition Decode {T} (into : value → option T) (data : string) : T + error :=
  match parse_first data with
  | None => inr SyntaxError
  | Some v => match into v with
              | Some t => inl t
              | None => inr UnmarshalTypeError
              end
  end.

(** A field of type string, bool or int that already holds [cur]:
    null leaves it as it is. *)
Definition string_field (v : value) (cur : string) : option string :=
  match v with Str s => Some s | Null => Some cur | _ => None end.

Definition bool_field (v : value) (cur : bool) : option bool :=
  match v with Bool b => Some b | Null => Some cur | _ => None end.

Fixpoint digits_val (s : string) (acc : Z) : option Z :=
  match s with
  | EmptyString => Some acc
  | String a r =>
      if digit a then digits_val r (acc * 10 + Z.of_N (code a - 48))
      else None
  end.

(** [strconv.ParseInt(lit, 10, 64)] of a number literal *)
Definition ParseInt (lit : string) : option Z :=
  n ← match lit with
      | String a r =>
          if is_byte 45 a then Z.opp <$> digits_val r 0 else digits_val lit 0
      | EmptyString => None
      end;
  if ((- 2 ^ 63 <=? n) && (n <? 2 ^ 63))%Z then Some n else None.

Definition int_field (v : value) (cur : Z) : option Z :=
  match v with Number lit => ParseInt lit | Null => Some cur | _ => None end.

(** A key selects the field whose name it equals, or equals under
    case folding. *)
Definition names (key field : string) : bool :=
  String.eqb key field || strings.EqualFold key field.

(** A struct: the members of an object are applied in their order to the
    fields they name, null leaves the struct as it is. *)
Definition struct_into {T} (set : string → value → T → option T)
    (cur : T) (v : value) : option T :=
  match v with
  | Null => Some cur
  | Object fs => foldl (λ acc kv, t ← acc; set kv.1 kv.2 t) (Some cur) fs
  | _ => None
  end.

(** A slice that is nil before the call: null leaves it nil. *)
Definition slice_into {T} (elem : value → option T) (v : value) : option (list T) :=
  match v with
  | Null => Some []
  | Array l => mapM elem l
  | _ => None
  end.

(** *** Numbers as float64

    A number that is decoded into an [interface{}] becomes a float64, by
    [strconv.ParseFloat(lit, 64)].  That rounds to the nearest float64 and
    answers a range error when the result is an infinity: when the
    absolute value of the literal is at least 2^1024 - 2^970, half a step
    above the largest float64.  A literal too small for a float64 is read
    as 0 without an error. *)
Fixpoint take_digits (s : string) : string :=
  match s with
  | String a r => if digit a then String a (take_digits r) else EmptyString
  | EmptyString => EmptyString
  end.

(** The digits of the mantissa as a number; leading zeros do not count. *)
Fixpoint mantissa (s : string) (acc : Z) : Z :=
  match s with
  | String a r =>
      if digit a then mantissa r (acc * 10 + Z.of_N (code a - 48)) else acc
  | EmptyString => acc
  end.

(** The digits of the exponent: ParseFloat stops adding digits once it has
    reached 10000. *)
Fixpoint exponent (s : string) (e : Z) : Z :=
  match s with
  | String a r =>
      if digit a
      then exponent r (if (e <? 10000)%Z
                       then e * 10 + Z.of_N (code a - 48) else e)
      else e
  | EmptyString => e
  end.

Definition signed_exponent (s : string) : Z :=
  match s with
  | String a r =>
      if is_byte 101 a || is_byte 69 a then
        match r with
        | String b r0 =>
            if is_byte 45 b then - exponent r0 0
            else if is_byte 43 b then exponent r0 0
            else exponent r 0
        | EmptyString => 0
        end
      else 0
  | EmptyString => 0
  end.

(** ParseFloat answers a range error for the number literal [lit]. *)
Definition float64_overflows (lit : string) : bool :=
  let s := match lit with
           | String a r => if is_byte 45 a then r else lit
           | EmptyString => lit
           end in
  let whole := take_digits s in
  let s1 := skip_digits s in
  let frac := match s1 with
              | String a r => if is_byte 46 a then take_digits r else EmptyString
              | EmptyString => EmptyString
              end in
  let s2 := match s1 with
            | String a r => if is_byte 46 a then skip_digits r else s1
            | EmptyString => s1
            end in
  let d := mantissa (whole ++ frac) 0 in
  let k := signed_exponent s2 - Z.of_nat (String.length frac) in
  let bound := 2 ^ 1024 - 2 ^ 970 in
  if (0 <=? k)%Z then (bound <=? d * 10 ^ k)%Z else (bound * 10 ^ (- k) <=? d)%Z.

(** A value fits an [interface{}] when each of its numbers, at any depth,
    is in the range of float64.  The decoder goes on after a number that is
    not, but the error it returns in the end is not nil. *)
Fixpoint fits_interface (v : value) : bool :=
  match v with
  | Number lit => negb (float64_overflows lit)
  | Array l => forallb fits_interface l
  | Object fs => forallb (λ kv, let '(_, x) := kv in fits_interface x) fs
  | _ => true
  end.

(** A [map[string]interface{}] that is nil before the call, as the list
    of its members in their order in the text. *)
Definition map_into (v : value) : option (list (string * value)) :=
  match v with
  | Null => Some []
  | Object fs =>
      if forallb (λ kv, let '(_, x) := kv in fits_interface x) fs
      then Some fs else None
  | _ => None
  end.

(** [m[key]]: of two members with one key the later one stays. *)
Definition index (m : list (string * value)) (key : string) : option value :=
  foldl (λ acc kv, if String.eqb kv.1 key then Some kv.2 else acc) None m.

(** *** Encoding *)

Definition hex_digit (n : N) : ascii :=
  if (n <? 10)%N then byte (48 + n) else byte (87 + n).

Definition html_safe (a : ascii) : bool :=
  in_range 32 127 a
  && negb (is_byte 34 a || is_byte 92 a || is_byte 60 a || is_byte 62 a
           || is_byte 38 a).

Definition escape_ascii (a : ascii) : string :=
  if is_byte 92 a || is_byte 34 a then String "\" (String a EmptyString)
  else if is_byte 8 a then "\b"
  else if is_byte 12 a then "\f"
  else if is_byte 10 a then "\n"
  else if is_byte 13 a then "\r"
  else if is_byte 9 a then "\t"
  else "\u00" ++ String (hex_digit (code a / 16))
                   (String (hex_digit (code a mod 16)) EmptyString).

Inductive copying := Pass | Copy (k : nat) | Drop (k : nat).

Fixpoint quote_go (m : copying) (s : string) : string :=
  match s with
  | EmptyString => EmptyString
  | String a r =>
      match m with
      | Copy (S k) => String a (quote_go (Copy k) r)
      | Drop (S k) => quote_go (Drop k) r
      | _ =>
          if (code a <? 128)%N then
            (if html_safe a then String a EmptyString else escape_ascii a)
            ++ quote_go Pass r
          else
            match utf8.size a r with
            | O => "\ufffd" ++ quote_go Pass r
            | S k =>
                match r with
                | String a2 (String a3 _) =>
                    if is_byte 226 a && is_byte 128 a2
                       && (is_byte 168 a3 || is_byte 169 a3)
                    then "\u202" ++ String (hex_digit (code a3 - 160)) EmptyString
                         ++ quote_go (Drop 2) r
                    else String a (quote_go (Copy k) r)
                | _ => String a (quote_go (Copy k) r)
                end
            end
      end
  end.

(** A Go string as a JSON string literal (with HTML escaping, the
    default of [json.Marshal]). *)
Definition quote (s : string) : string :=
  String dquote (quote_go Pass s ++ String dquote EmptyString).

Definition Marshal_bool (b : bool) : string := if b then "true" else "false".

Fixpoint join (l : list string) : string :=
  match l with
  | [] => EmptyString
  | [x] => x
  | x :: r => x ++ "," ++ join r
  end.

(** A slice: nil is encoded as null. *)
Definition Marshal_slice {T} (elem : T → string) (is_nil : bool) (l : list T) : string :=
  if is_nil then "null" else "[" ++ join (elem <$> l) ++ "]".

End json.

(** ** The part of [strconv] the configuration uses *)
Module strconv.

(** [strconv.Atoi] where int has 64 bits: an optional sign, then decimal
    digits and nothing else, at least one; the value has to fit an int. *)
Definition Atoi (s : string) : option Z :=
  let neg := match s with String a _ => is_byte 45 a | EmptyString => false end in
  let ds := match s with
            | String a r => if is_byte 45 a || is_byte 43 a then r else s
            | EmptyString => s
            end in
  if strings.empty ds then None
  else
    n ← json.digits_val ds 0;
    let n := if neg then - n else n in
    if ((- 2 ^ 63 <=? n) && (n <? 2 ^ 63))%Z then Some n else None.

End strconv.

(** ** Go values shared by the packages *)

(** [error]: the texts made by [fmt.Errorf], [errors.New] and the standard
    library, and the error types of the maintainerr and prowlarr packages. *)
Inductive error :=
| errorString (msg : string)
| ErrMaintainerr (Op : string) (Err : option error) (HttpCode : Z)
| ErrProwlarr (Op : string) (Err : option error) (HttpCode : Z).

Module http.

Definition StatusOK : Z := 200.
Definition StatusBadRequest : Z := 400.
Definition StatusUnauthorized : Z := 401.
Definition StatusForbidden : Z := 403.
Definition StatusNotFound : Z := 404.
Definition StatusInternalServerError : Z := 500.
Definition StatusBadGateway : Z := 502.
Definition StatusServiceUnavailable : Z := 503.
Definition StatusGatewayTimeout : Z := 504.

Definition status_texts : list (Z * string) :=
  [ (100, "Continue"); (101, "Switching Protocols"); (102, "Processing");
    (103, "Early Hints"); (200, "OK"); (201, "Created"); (202, "Accepted");
    (203, "Non-Authoritative Information"); (204, "No Content");
    (205, "Reset Content"); (206, "Partial Content"); (207, "Multi-Status");
    (208, "Already Reported"); (226, "IM Used"); (300, "Multiple Choices");
    (301, "Moved Permanently"); (302, "Found"); (303, "See Other");
    (304, "Not Modified"); (305, "Use Proxy"); (307, "Temporary Redirect");
    (308, "Permanent Redirect"); (400, "Bad Request"); (401, "Unauthorized");
    (402, "Payment Required"); (403, "Forbidden"); (404, "Not Found");
    (405, "Method Not Allowed"); (406, "Not Acceptable");
    (407, "Proxy Authentication Required"); (408, "Request Timeout");
    (409, "Conflict"); (410, "Gone"); (411, "Length Required");
    (412, "Precondition Failed"); (413, "Request Entity Too Large");
    (414, "Request URI Too Long"); (415, "Unsupported Media Type");
    (416, "Requested Range Not Satisfiable"); (417, "Expectation Failed");
    (418, "I'm a teapot"); (421, "Misdirected Request");
    (422, "Unprocessable Entity"); (423, "Locked"); (424, "Failed Dependency");
    (425, "Too Early"); (426, "Upgrade Required");
    (428, "Precondition Required"); (429, "Too Many Requests");
    (431, "Request Header Fields Too Large");
    (451, "Unavailable For Legal Reasons"); (500, "Internal Server Error");
    (501, "Not Implemented"); (502, "Bad Gateway");
    (503, "Service Unavailable"); (504, "Gateway Timeout");
    (505, "HTTP Version Not Supported"); (506, "Variant Also Negotiates");
    (507, "Insufficient Storage"); (508, "Loop Detected");
    (510, "Not Extended"); (511, "Network Authentication Required") ].

(** [http.StatusText]: empty for a code that is not known *)
Definition StatusText (code : Z) : string :=
  match find (λ p, (p.1 =? code)%Z) status_texts with
  | Some p => p.2
  | None => EmptyString
  end.

(** What the checkers read of a [*http.Response].  [ResponseTime] is the
    number of milliseconds they compute from the header X-Response-Time
    ([time.ParseDuration] of the header followed by ms, 0 when that does
    not parse).  [Body] is what reading the body to its end gives: its
    bytes, or the error of the failed read. *)
Record Response := {
  StatusCode : Z;
  ResponseTime : Z;
  Body : string + error;
}.

End http.

(** [(e error).Error()] *)
Fixpoint Error (e : error) : string :=
  match e with
  | errorString msg => msg
  | ErrMaintainerr op err httpCode =>
      if (0 <? httpCode)%Z then
        "maintainerr " ++ op ++ ": server returned " ++ http.StatusText httpCode
        ++ " (" ++ strings.itoa httpCode ++ ")"
      else match err with
           | Some e' => "maintainerr " ++ op ++ ": " ++ Error e'
           | None => "maintainerr " ++ op
           end
  | ErrProwlarr op err httpCode =>
      if (0 <? httpCode)%Z then
        "prowlarr " ++ op ++ ": server returned " ++ http.StatusText httpCode
        ++ " (" ++ strings.itoa httpCode ++ ")"
      else match err with
           | Some e' => "prowlarr " ++ op ++ ": " ++ Error e'
           | None => "prowlarr " ++ op
           end
  end.

(** [fmt.Errorf] with the verb [%v] or [%w] at the end of the format *)
Definition Errorf (format : string) (e : error) : error :=
  errorString (format ++ Error e).

(** Durations and instants, in seconds. *)
Definition Second : Z := 1.
Definition Minute : Z := 60.
Definition Hour : Z := 3600.

(** The two structs of the autobrr package that travel in the extras of a
    health result. *)
Record AutobrrStats := {
  TotalCount : Z;
  FilteredCount : Z;
  FilterRejectedCount : Z;
  PushApprovedCount : Z;
  PushRejectedCount : Z;
  PushErrorCount : Z;
}.

Record IRCStatus := {
  Name : string;
  Healthy : bool;
  Enabled : bool;
}.

(** The values of a [map[string]interface{}] of extras. *)
Inductive Extra :=
| XString (s : string)
| XInt (n : Z)
| XBool (b : bool)
| XIRC (l : list IRCStatus)
| XStats (st : AutobrrStats)
| XMap (m : list (string * Extra)).

(** ** The world a check runs in *)

Record Request := {
  rq_url : string;
  rq_key : string;
  rq_headers : list (string * string);
  rq_deadline : option Z;
}.

(** What a goroutine left in a channel. *)
Inductive ChanVal :=
| CString (s : string)
| CBool (b : bool)
| CError (e : option error).

(** The goroutines the checkers start, each with the channels it sends to. *)
Inductive Task :=
| AutobrrVersionTask (url apiKey : string) (versionChan : nat)
| AutobrrUpdateTask (url apiKey : string) (updateChan : nat)
| MaintainerrVersionTask (url : string) (versionChan errChan : nat).

Definition task_chan (t : Task) : nat :=
  match t with
  | AutobrrVersionTask _ _ c => c
  | AutobrrUpdateTask _ _ c => c
  | MaintainerrVersionTask _ c _ => c
  end.

(** What a check cannot decide: the answer of the upstream to a request (a
    response, or the error of a failed connection, name lookup, handshake
    or an expired deadline), whether the cache store accepts a write, and
    whether a background version or update lookup answers within the two
    seconds the check waits for it.

    [net] answers the requests the check sends itself, [task_net] those a
    goroutine of the check sends: the two are separate calls, and the
    upstream may answer a request of a goroutine otherwise than it answers
    the same request of the check (the version lookup of maintainerr asks
    the endpoint the probe asks).  No check and no goroutine sends one
    request twice. *)
Record Env := {
  net : Request → http.Response + error;
  task_net : Request → http.Response + error;
  cache_refuses : string → bool;
  version_in_time : bool;
  update_in_time : bool;
}.

(** The environment of a goroutine: its requests are answered by
    [task_net]. *)
Definition in_task (e : Env) : Env :=
  {| net := task_net e; task_net := task_net e;
     cache_refuses := cache_refuses e;
     version_in_time := version_in_time e;
     update_in_time := update_in_time e |}.

(** The state: the cache store (each value with the instant it expires at),
    the clock, the requests sent so far and the writes asked of the cache
    (both latest first), the channels, and the goroutines that were started
    and have not finished. *)
Record World := {
  cache : gmap string (string * Z);
  now : Z;
  calls : list Request;
  cache_sets : list (string * string * Z);
  chans : gmap nat ChanVal;
  next_chan : nat;
  tasks : list Task;
}.

Definition M (A : Type) : Type := Env → World → A * World.

Global Instance M_ret : MRet M := λ A a _ w, (a, w).

Global Instance M_bind : MBind M :=
  λ A B k c e w, k (c e w).1 e (c e w).2.

Definition ask {A} (f : Env → A) : M A := λ e w, (f e, w).
Definition gets {A} (f : World → A) : M A := λ _ w, (f w, w).
Definition modify (f : World → World) : M unit := λ _ w, (tt, f w).

(** The result and the final state of a computation. *)
Definition result {A} (c : M A) (e : Env) (w : World) : A := (c e w).1.
Definition after {A} (c : M A) (e : Env) (w : World) : World := (c e w).2.

Definition set_cache (f : gmap string (string * Z) → gmap string (string * Z))
    (w : World) : World :=
  {| cache := f (cache w); now := now w; calls := calls w;
     cache_sets := cache_sets w; chans := chans w; next_chan := next_chan w;
     tasks := tasks w |}.

Definition log_call (r : Request) (w : World) : World :=
  {| cache := cache w; now := now w; calls := r :: calls w;
     cache_sets := cache_sets w; chans := chans w; next_chan := next_chan w;
     tasks := tasks w |}.

Definition log_set (k v : string) (ttl : Z) (w : World) : World :=
  {| cache := cache w; now := now w; calls := calls w;
     cache_sets := (k, v, ttl) :: cache_sets w; chans := chans w;
     next_chan := next_chan w; tasks := tasks w |}.

Definition set_chans (f : gmap nat ChanVal → gmap nat ChanVal) (w : World) : World :=
  {| cache := cache w; now := now w; calls := calls w;
     cache_sets := cache_sets w; chans := f (chans w);
     next_chan := next_chan w; tasks := tasks w |}.

Definition set_tasks (f : list Task → list Task) (w : World) : World :=
  {| cache := cache w; now := now w; calls := calls w;
     cache_sets := cache_sets w; chans := chans w;
     next_chan := next_chan w; tasks := f (tasks w) |}.

Definition fresh_chan (w : World) : World :=
  {| cache := cache w; now := now w; calls := calls w;
     cache_sets := cache_sets w; chans := chans w;
     next_chan := S (next_chan w); tasks := tasks w |}.

(** The clock moves on by [d] seconds. *)
Definition advance (d : Z) (w : World) : World :=
  {| cache := cache w; now := now w + d; calls := calls w;
     cache_sets := cache_sets w; chans := chans w;
     next_chan := next_chan w; tasks := tasks w |}.

(** *** Goroutines and channels

    [make(chan T, 1)], a send to and a receive from such a channel (no
    goroutine of the checkers sends twice to one channel, so a send never
    blocks), and the [go] statement: the goroutine is recorded as started.
    It runs to its end either while the check waits for it ([await], when
    the environment says it is in time) or after the check has returned
    ([drain] below). *)
Definition make_chan : M nat :=
  c ← gets next_chan; modify fresh_chan;; mret c.

Definition send (c : nat) (v : ChanVal) : M unit :=
  modify (set_chans (insert c v)).

Definition receive (c : nat) : M (option ChanVal) :=
  v ← gets (λ w, chans w !! c); modify (set_chans (delete c));; mret v.

Definition go (t : Task) : M unit :=
  modify (set_tasks (λ l, (l ++ [t])%list)).

Definition finished (t : Task) : M unit :=
  modify (set_tasks (filter (λ t', task_chan t' ≠ task_chan t))).

(** The [select] between a receive from the channel of [t] and
    [time.After(2 * time.Second)]: when the goroutine [t], whose code is
    [body], is in time it has run by now and [received] takes what it sent;
    otherwise [timeout] is taken and the goroutine is still running. *)
Definition await {A} (in_time : Env → bool) (t : Task) (body : M unit)
    (received timeout : M A) : M A :=
  λ e, if in_time e
       then (finished t;; (λ _, body (in_task e));; received) e
       else timeout e.

(** ** internal/models and internal/services/core *)
Module models.

(** Modelled from the spec: models.ServiceHealth (internal/models is not
    among the sources), the HealthResult of section 3: a status, a
    human-readable message, a start timestamp and an open-ended map of
    extras.  The status is one of the strings pending, offline, error,
    warning, online, unknown. *)
Record ServiceHealth := {
  Status : string;
  Message : string;
  LastChecked : Z;
  Extras : gmap string Extra;
}.

End models.

Module core.
Import models.

(** Modelled from the spec: ServiceCore.CreateHealthResponse
    (internal/services/core is not among the sources).  It assembles the
    HealthResult of section 3 from the start time, the status, the message
    and the extras it is given (none when the variadic argument is left
    out). *)
Definition CreateHealthResponse (startTime : Z) (status message : string)
    (extras : gmap string Extra) : ServiceHealth :=
  {| Status := status; Message := message; LastChecked := startTime;
     Extras := extras |}.

(** Modelled from the spec: ServiceCore.MakeRequestWithContext, the
    Transport Helper of section 4.2:
    request(context-with-deadline, url, credential, header-set) gives a
    response or an error, with no side effect beyond the network call.
    The call is recorded in [calls]; the answer is the environment's. *)
Definition MakeRequestWithContext (deadline : option Z) (url apiKey : string)
    (headers : list (string * string)) : M (http.Response + error) :=
  let r := {| rq_url := url; rq_key := apiKey; rq_headers := headers;
              rq_deadline := deadline |} in
  modify (log_call r);; ask (λ e, net e r).

(** Modelled from the spec: ServiceCore.ReadBody, the body read to its
    end exactly once. *)
Definition ReadBody (resp : http.Response) : string + error :=
  http.Body resp.

(** Modelled from the spec: the Cache Store of section 4.1,
    get(key) gives a value or absent, set(key, value, ttl); a value is
    never served past its TTL. *)
Definition cache_get (key : string) : M (option string) :=
  gets (λ w, match cache w !! key with
             | Some (v, expiry) => if (now w <? expiry)%Z then Some v else None
             | None => None
             end).

Definition cache_set (key value : string) (ttl : Z) : M (option error) :=
  modify (log_set key value ttl);;
  refused ← ask (λ e, cache_refuses e key);
  if refused : bool then mret (Some (errorString "cache: set failed"))
  else modify (λ w, set_cache (insert key (value, now w + ttl)) w);; mret None.

(** Modelled from the spec: ServiceCore.GetVersionFromCache, a read of the
    Cache Store before a new call; the callers test its result against the
    empty string, which stands for absent. *)
Definition GetVersionFromCache (key : string) : M string :=
  v ← cache_get key; mret (default EmptyString v).

(** Modelled from the spec: ServiceCore.CacheVersion, a write to the Cache
    Store with a TTL; its error is what a failed write answers. *)
Definition CacheVersion (key value : string) (ttl : Z) : M (option error) :=
  cache_set key value ttl.

End core.

(** [fmt.Printf] writes to the standard output, which is not part of the
    model: a statement that only logs is left out. *)

(** ** internal/services/autobrr *)
Module autobrr.
Import models core.

Record VersionResponse := { Version : string }.

Definition zero_AutobrrStats : AutobrrStats :=
  {| TotalCount := 0; FilteredCount := 0; FilterRejectedCount := 0;
     PushApprovedCount := 0; PushRejectedCount := 0; PushErrorCount := 0 |}.

Definition zero_IRCStatus : IRCStatus :=
  {| Name := EmptyString; Healthy := false; Enabled := false |}.

(** The struct tags: which member of an object sets which field. *)
Definition set_AutobrrStats (k : string) (v : json.value) (t : AutobrrStats)
    : option AutobrrStats :=
  let '{| TotalCount := a; FilteredCount := b; FilterRejectedCount := c;
          PushApprovedCount := d; PushRejectedCount := e;
          PushErrorCount := f |} := t in
  if json.names k "total_count" then
    n ← json.int_field v a;
    Some {| TotalCount := n; FilteredCount := b; FilterRejectedCount := c;
            PushApprovedCount := d; PushRejectedCount := e;
            PushErrorCount := f |}
  else if json.names k "filtered_count" then
    n ← json.int_field v b;
    Some {| TotalCount := a; FilteredCount := n; FilterRejectedCount := c;
            PushApprovedCount := d; PushRejectedCount := e;
            PushErrorCount := f |}
  else if json.names k "filter_rejected_count" then
    n ← json.int_field v c;
    Some {| TotalCount := a; FilteredCount := b; FilterRejectedCount := n;
            PushApprovedCount := d; PushRejectedCount := e;
            PushErrorCount := f |}
  else if json.names k "push_approved_count" then
    n ← json.int_field v d;
    Some {| TotalCount := a; FilteredCount := b; FilterRejectedCount := c;
            PushApprovedCount := n; PushRejectedCount := e;
            PushErrorCount := f |}
  else if json.names k "push_rejected_count" then
    n ← json.int_field v e;
    Some {| TotalCount := a; FilteredCount := b; FilterRejectedCount := c;
            PushApprovedCount := d; PushRejectedCount := n;
            PushErrorCount := f |}
  else if json.names k "push_error_count" then
    n ← json.int_field v f;
    Some {| TotalCount := a; FilteredCount := b; FilterRejectedCount := c;
            PushApprovedCount := d; PushRejectedCount := e;
            PushErrorCount := n |}
  else Some t.

Definition AutobrrStats_into : json.value → option AutobrrStats :=
  json.struct_into set_AutobrrStats zero_AutobrrStats.

Definition set_IRCStatus (k : string) (v : json.value) (t : IRCStatus)
    : option IRCStatus :=
  if json.names k "name" then
    x ← json.string_field v (Name t);
    Some {| Name := x; Healthy := Healthy t; Enabled := Enabled t |}
  else if json.names k "healthy" then
    x ← json.bool_field v (Healthy t);
    Some {| Name := Name t; Healthy := x; Enabled := Enabled t |}
  else if json.names k "enabled" then
    x ← json.bool_field v (Enabled t);
    Some {| Name := Name t; Healthy := Healthy t; Enabled := x |}
  else Some t.

Definition IRCStatus_into : json.value → option IRCStatus :=
  json.struct_into set_IRCStatus zero_IRCStatus.

Definition IRCStatuses_into : json.value → option (list IRCStatus) :=
  json.slice_into IRCStatus_into.

Definition set_VersionResponse (k : string) (v : json.value)
    (t : VersionResponse) : option VersionResponse :=
  if json.names k "version" then
    x ← json.string_field v (Version t); Some {| Version := x |}
  else Some t.

Definition VersionResponse_into : json.value → option VersionResponse :=
  json.struct_into set_VersionResponse {| Version := EmptyString |}.

Definition Marshal_IRCStatus (st : IRCStatus) : string :=
  "{" ++ json.quote "name" ++ ":" ++ json.quote (Name st) ++ ","
  ++ json.quote "healthy" ++ ":" ++ json.Marshal_bool (Healthy st) ++ ","
  ++ json.quote "enabled" ++ ":" ++ json.Marshal_bool (Enabled st) ++ "}".

Definition getEndpoint (baseURL path : string) : string :=
  strings.TrimRight baseURL "/" ++ path.

Definition headers (apiKey : string) : list (string * string) :=
  [("auth_header", "X-Api-Token"); ("auth_value", apiKey)].

Definition GetReleaseStats (url apiKey : string) : M (AutobrrStats * option error) :=
  if strings.empty url || strings.empty apiKey then
    mret (zero_AutobrrStats,
          Some (errorString "service not configured: missing URL or API key"))
  else
    let statsURL := getEndpoint url "/api/release/stats" in
    resp ← MakeRequestWithContext (Some (15 * Second)) statsURL apiKey (headers apiKey);
    match resp with
    | inr err => mret (zero_AutobrrStats, Some (Errorf "request failed: " err))
    | inl resp =>
        if negb (http.StatusCode resp =? http.StatusOK)%Z then
          mret (zero_AutobrrStats,
                Some (errorString ("unexpected status code: "
                                   ++ strings.itoa (http.StatusCode resp))))
        else
          match ReadBody resp with
          | inr err =>
              mret (zero_AutobrrStats, Some (Errorf "failed to read response body: " err))
          | inl body =>
              match json.Decode AutobrrStats_into body with
              | inr err =>
                  mret (zero_AutobrrStats,
                        Some (errorString ("failed to decode response: "
                                           ++ json.Error err ++ ", body: " ++ body)))
              | inl stats => mret (stats, None)
              end
          end
    end.

(** GetIRCStatusFromCache retrieves the IRC status from cache *)
Definition GetIRCStatusFromCache (url : string) : M string :=
  GetVersionFromCache (url ++ "_irc").

(** CacheIRCStatus stores the IRC status in cache *)
Definition CacheIRCStatus (url status : string) : M (option error) :=
  CacheVersion (url ++ "_irc") status (5 * Minute).

Definition unreachable_IRC : list IRCStatus :=
  [{| Name := "IRC"; Healthy := false; Enabled := false |}].

Definition unhealthy_enabled (status : IRCStatus) : bool :=
  negb (Healthy status) && Enabled status.

Definition GetIRCStatus (url apiKey : string) : M (list IRCStatus * option error) :=
  if strings.empty url || strings.empty apiKey then
    mret ([], Some (errorString "service not configured: missing URL or API key"))
  else
    (* Check cache first *)
    cached ← GetIRCStatusFromCache url;
    match (if negb (strings.empty cached)
           then match json.Unmarshal IRCStatuses_into cached with
                | inl status => Some status
                | inr _ => None
                end
           else None) with
    | Some status => mret (status, None)
    | None =>
        let ircURL := getEndpoint url "/api/irc" in
        resp ← MakeRequestWithContext (Some (15 * Second)) ircURL apiKey (headers apiKey);
        match resp with
        | inr err => mret (unreachable_IRC, Some (Errorf "request failed: " err))
        | inl resp =>
            if negb (http.StatusCode resp =? http.StatusOK)%Z then
              mret (unreachable_IRC,
                    Some (errorString ("unexpected status code: "
                                       ++ strings.itoa (http.StatusCode resp))))
            else
              match ReadBody resp with
              | inr err =>
                  mret (unreachable_IRC,
                        Some (Errorf "failed to read response body: " err))
              | inl body =>
                  (* Try to decode as array first *)
                  match json.Unmarshal IRCStatuses_into body with
                  | inl allStatus =>
                      let unhealthyStatus := List.filter unhealthy_enabled allStatus in
                      (* Cache the result; the slice is nil when nothing
                         was appended to it *)
                      CacheIRCStatus url
                        (json.Marshal_slice Marshal_IRCStatus
                           (Nat.eqb (length unhealthyStatus) 0) unhealthyStatus);;
                      mret (unhealthyStatus, None)
                  | inr _ =>
                      (* If array decode fails, try to decode as single object *)
                      match json.Unmarshal IRCStatus_into body with
                      | inl singleStatus =>
                          (* Only return if unhealthy AND enabled *)
                          if unhealthy_enabled singleStatus then
                            let status := [singleStatus] in
                            CacheIRCStatus url
                              (json.Marshal_slice Marshal_IRCStatus false status);;
                            mret (status, None)
                          else
                            (* Cache empty result *)
                            CacheIRCStatus url "[]";;
                            mret ([], None)
                      | inr _ =>
                          mret (unreachable_IRC,
                                Some (errorString ("failed to decode response: " ++ body)))
                      end
                  end
              end
        end
    end.

Definition GetVersion (url apiKey : string) : M (string * option error) :=
  (* Check cache first *)
  version ← GetVersionFromCache url;
  if negb (strings.empty version) then mret (version, None)
  else
    let versionURL := getEndpoint url "/api/config" in
    resp ← MakeRequestWithContext (Some (10 * Second)) versionURL apiKey (headers apiKey);
    match resp with
    | inr err => mret (EmptyString, Some err)
    | inl resp =>
        if negb (http.StatusCode resp =? http.StatusOK)%Z then
          mret (EmptyString,
                Some (errorString ("unexpected status code: "
                                   ++ strings.itoa (http.StatusCode resp))))
        else
          match ReadBody resp with
          | inr err => mret (EmptyString, Some err)
          | inl body =>
              match json.Unmarshal VersionResponse_into body with
              | inr err => mret (EmptyString, Some (errorString (json.Error err)))
              | inl versionData =>
                  (* Cache version for 2 hours to align with update check *)
                  CacheVersion url (Version versionData) (2 * Hour);;
                  mret (Version versionData, None)
              end
          end
    end.

(** GetUpdateFromCache retrieves the update status from cache *)
Definition GetUpdateFromCache (url : string) : M string :=
  GetVersionFromCache (url ++ "_update").

(** CacheUpdate stores the update status in cache *)
Definition CacheUpdate (url status : string) (ttl : Z) : M (option error) :=
  CacheVersion (url ++ "_update") status ttl.

Definition CheckUpdate (url apiKey : string) : M (bool * option error) :=
  (* Check cache first *)
  status ← GetUpdateFromCache url;
  if negb (strings.empty status) then mret (String.eqb status "true", None)
  else
    let updateURL := getEndpoint url "/api/updates/latest" in
    resp ← MakeRequestWithContext (Some (10 * Second)) updateURL apiKey (headers apiKey);
    match resp with
    | inr err => mret (false, Some err)
    | inl resp =>
        (* 200 means update available, 204 means no update *)
        let hasUpdate := (http.StatusCode resp =? http.StatusOK)%Z in
        let status := if hasUpdate then "true" else "false" in
        (* Cache result for 2 hours to match autobrr's check interval *)
        CacheUpdate url status (2 * Hour);;
        mret (hasUpdate, None)
    end.

(** The two goroutines of CheckHealth. *)
Definition version_task (url apiKey : string) (versionChan : nat) : M unit :=
  r ← GetVersion url apiKey;
  match r.2 with
  | Some _ => send versionChan (CString EmptyString)
  | None => send versionChan (CString r.1)
  end.

Definition update_task (url apiKey : string) (updateChan : nat) : M unit :=
  r ← CheckUpdate url apiKey;
  match r.2 with
  | Some _ => send updateChan (CBool false)
  | None => send updateChan (CBool r.1)
  end.

Definition received_string (v : option ChanVal) : string :=
  match v with Some (CString x) => x | _ => EmptyString end.

Definition received_bool (v : option ChanVal) : bool :=
  match v with Some (CBool x) => x | _ => false end.

Definition irc_details (ircStatus : list IRCStatus) : Extra :=
  XMap [("autobrr", XMap [("irc", XIRC ircStatus)])].

Definition base_extras (version : string) (responseTime : Z) (hasUpdate : bool)
    (stats : AutobrrStats) : gmap string Extra :=
  <["version" := XString version]>
    (<["responseTime" := XInt responseTime]>
       (<["updateAvailable" := XBool hasUpdate]>
          (<["stats" := XMap [("autobrr", XStats stats)]]> ∅))).

Definition liveness_request (url apiKey : string) : Request :=
  {| rq_url := getEndpoint url "/api/healthz/liveness"; rq_key := apiKey;
     rq_headers := headers apiKey; rq_deadline := Some (15 * Second) |}.

Definition CheckHealth (url apiKey : string) : M (ServiceHealth * Z) :=
  startTime ← gets now;
  if strings.empty url || strings.empty apiKey then
    mret (CreateHealthResponse startTime "pending" "Autobrr not configured" ∅,
          http.StatusOK)
  else
    (* Start version check in background *)
    versionChan ← make_chan;
    go (AutobrrVersionTask url apiKey versionChan);;
    (* Start update check in background *)
    updateChan ← make_chan;
    go (AutobrrUpdateTask url apiKey updateChan);;
    (* Get release stats; continue without stats, don't fail the health check *)
    r ← GetReleaseStats url apiKey;
    let stats := r.1 in
    (* Perform health check *)
    let livenessURL := getEndpoint url "/api/healthz/liveness" in
    resp ← MakeRequestWithContext (Some (15 * Second)) livenessURL apiKey (headers apiKey);
    match resp with
    | inr err =>
        mret (CreateHealthResponse startTime "offline"
                ("Failed to connect: " ++ Error err) ∅, http.StatusOK)
    | inl resp =>
        (* Get response time from header *)
        let responseTime := http.ResponseTime resp in
        if negb (http.StatusCode resp =? http.StatusOK)%Z then
          mret (CreateHealthResponse startTime "error"
                  ("Unexpected status code: " ++ strings.itoa (http.StatusCode resp)) ∅,
                http.StatusOK)
        else
          match ReadBody resp with
          | inr err =>
              mret (CreateHealthResponse startTime "error"
                      ("Failed to read response: " ++ Error err) ∅, http.StatusOK)
          | inl body =>
              let trimmedBody := strings.TrimSpace body in
              let trimmedBody := strings.Trim trimmedBody dquote in
              if negb (String.eqb trimmedBody "healthy")
                 && negb (String.eqb trimmedBody "OK") then
                mret (CreateHealthResponse startTime "error"
                        ("Autobrr reported unhealthy status: " ++ trimmedBody) ∅,
                      http.StatusOK)
              else
                (* Wait for version and update status with timeout *)
                version ← await version_in_time
                            (AutobrrVersionTask url apiKey versionChan)
                            (version_task url apiKey versionChan)
                            (v ← receive versionChan; mret (received_string v))
                            (mret EmptyString);
                hasUpdate ← await update_in_time
                              (AutobrrUpdateTask url apiKey updateChan)
                              (update_task url apiKey updateChan)
                              (u ← receive updateChan; mret (received_bool u))
                              (mret false);
                (* Get IRC status *)
                i ← GetIRCStatus url apiKey;
                let ircStatus := i.1 in
                match i.2 with
                | Some err =>
                    mret (CreateHealthResponse startTime "warning"
                            ("Autobrr is running but IRC status check failed: "
                             ++ Error err)
                            (<["details" := irc_details ircStatus]>
                               (base_extras version responseTime hasUpdate stats)),
                          http.StatusOK)
                | None =>
                    (* Check if any IRC connections are healthy; if no IRC
                       networks are configured, consider it healthy *)
                    let ircHealthy :=
                      if Nat.eqb (length ircStatus) 0 then true
                      else existsb Healthy ircStatus in
                    let extras := base_extras version responseTime hasUpdate stats in
                    (* Only include IRC status in details if there are
                       unhealthy connections *)
                    if negb ircHealthy then
                      mret (CreateHealthResponse startTime "warning"
                              "Autobrr is running but reports unhealthy IRC connections"
                              (<["details" := irc_details ircStatus]> extras),
                            http.StatusOK)
                    else
                      mret (CreateHealthResponse startTime "online"
                              "Autobrr is running" extras, http.StatusOK)
                end
          end
    end.

End autobrr.

(** ** internal/services/maintainerr *)
Module maintainerr.
Import models core.

Record StatusResponse := {
  Version : string;
  UpdateAvailable : bool;
}.

Definition set_StatusResponse (k : string) (v : json.value) (t : StatusResponse)
    : option StatusResponse :=
  if json.names k "version" then
    x ← json.string_field v (Version t);
    Some {| Version := x; UpdateAvailable := UpdateAvailable t |}
  else if json.names k "updateAvailable" then
    x ← json.bool_field v (UpdateAvailable t);
    Some {| Version := Version t; UpdateAvailable := x |}
  else Some t.

Definition StatusResponse_into : json.value → option StatusResponse :=
  json.struct_into set_StatusResponse
    {| Version := EmptyString; UpdateAvailable := false |}.

Definition GetHealthEndpoint (baseURL : string) : string :=
  strings.TrimRight baseURL "/" ++ "/api/app/status".

(** The context of every request of this package is
    [context.Background()]: no deadline. *)
Definition status_request (url : string) : Request :=
  {| rq_url := GetHealthEndpoint url; rq_key := EmptyString;
     rq_headers := []; rq_deadline := None |}.

Definition getVersion (url : string) : M (string * option error) :=
  version ← GetVersionFromCache url;
  if negb (strings.empty version) then mret (version, None)
  else
    let healthEndpoint := GetHealthEndpoint url in
    resp ← MakeRequestWithContext None healthEndpoint EmptyString [];
    match resp with
    | inr err =>
        mret (EmptyString,
              Some (ErrMaintainerr "get_version"
                      (Some (Errorf "failed to make request: " err)) 0))
    | inl resp =>
        match ReadBody resp with
        | inr err =>
            mret (EmptyString,
                  Some (ErrMaintainerr "get_version"
                          (Some (Errorf "failed to read response: " err)) 0))
        | inl body =>
            match json.Unmarshal StatusResponse_into body with
            | inr err =>
                mret (EmptyString,
                      Some (ErrMaintainerr "get_version"
                              (Some (errorString ("failed to parse response: "
                                                  ++ json.Error err))) 0))
            | inl statusResponse =>
                (* Log but don't fail if caching fails *)
                CacheVersion url (Version statusResponse) Hour;;
                mret (Version statusResponse, None)
            end
        end
    end.

(** The goroutine of CheckHealth. *)
Definition version_task (url : string) (versionChan errChan : nat) : M unit :=
  r ← getVersion url;
  match r.2 with
  | Some err => send errChan (CError (Some err));; send versionChan (CString EmptyString)
  | None => send versionChan (CString r.1);; send errChan (CError None)
  end.

Definition received_string (v : option ChanVal) : string :=
  match v with Some (CString x) => x | _ => EmptyString end.

Definition received_error (v : option ChanVal) : option error :=
  match v with Some (CError x) => x | _ => None end.

Definition error_message (code : Z) : string :=
  let statusText := http.StatusText code in
  if (code =? http.StatusBadGateway)%Z || (code =? http.StatusServiceUnavailable)%Z
     || (code =? http.StatusGatewayTimeout)%Z then
    "Service is temporarily unavailable (" ++ strings.itoa code ++ " "
    ++ statusText ++ ")"
  else if (code =? http.StatusUnauthorized)%Z then "Invalid API key"
  else if (code =? http.StatusForbidden)%Z then "Access forbidden"
  else if (code =? http.StatusNotFound)%Z then "Service endpoint not found"
  else "Server returned " ++ statusText ++ " (" ++ strings.itoa code ++ ")".

Definition CheckHealth (url apiKey : string) : M (ServiceHealth * Z) :=
  startTime ← gets now;
  if strings.empty url then
    mret (CreateHealthResponse startTime "error" "URL is required" ∅,
          http.StatusBadRequest)
  else
    versionChan ← make_chan;
    errChan ← make_chan;
    go (MaintainerrVersionTask url versionChan errChan);;
    let healthEndpoint := GetHealthEndpoint url in
    resp ← MakeRequestWithContext None healthEndpoint EmptyString [];
    match resp with
    | inr err =>
        mret (CreateHealthResponse startTime "offline"
                ("Failed to connect: " ++ Error err) ∅, http.StatusOK)
    | inl resp =>
        let responseTime := http.ResponseTime resp in
        match ReadBody resp with
        | inr err =>
            mret (CreateHealthResponse startTime "error"
                    ("Failed to read response: " ++ Error err) ∅, http.StatusOK)
        | inl body =>
            if (400 <=? http.StatusCode resp)%Z then
              let status := "error" in
              (* Determine appropriate message based on response code *)
              let message := error_message (http.StatusCode resp) in
              mret (CreateHealthResponse startTime status message ∅, http.StatusOK)
            else
              match json.Unmarshal StatusResponse_into body with
              | inr err =>
                  mret (CreateHealthResponse startTime "error"
                          ("Failed to parse status response: " ++ json.Error err) ∅,
                        http.StatusOK)
              | inl statusResponse =>
                  v ← await version_in_time
                        (MaintainerrVersionTask url versionChan errChan)
                        (version_task url versionChan errChan)
                        (version ← receive versionChan;
                         versionErr ← receive errChan;
                         mret (received_string version, received_error versionErr))
                        (mret (EmptyString,
                               Some (errorString "version check timed out")));
                  let version := v.1 in
                  let versionErr := v.2 in
                  let extras :=
                    <["version" := XString version]>
                      (<["updateAvailable" := XBool (UpdateAvailable statusResponse)]>
                         (<["responseTime" := XInt responseTime]> ∅)) in
                  let extras :=
                    match versionErr with
                    | Some err => <["versionError" := XString (Error err)]> extras
                    | None => extras
                    end in
                  mret (CreateHealthResponse startTime "online" "Healthy" extras,
                        http.StatusOK)
              end
        end
    end.

(** GetCollections.  The struct Collection (sixteen fields, among them a
    list of Media with a time stamp) is kept abstract: [Collection_into]
    is its decoding from a JSON value and [IsActive] its field of that
    name. *)
Section collections.
Context {Collection : Type}.
Variable IsActive : Collection → bool.
Variable Collection_into : json.value → option Collection.

Definition GetCollections (url apiKey : string) : M (list Collection * option error) :=
  if strings.empty url then
    mret ([], Some (ErrMaintainerr "get_collections"
                      (Some (errorString "URL is required")) 0))
  else if strings.empty apiKey then
    mret ([], Some (ErrMaintainerr "get_collections"
                      (Some (errorString "API key is required")) 0))
  else
    let baseURL := strings.TrimRight url "/" in
    let endpoint := baseURL ++ "/api/collections" in
    resp ← MakeRequestWithContext None endpoint apiKey [];
    match resp with
    | inr err =>
        mret ([], Some (ErrMaintainerr "get_collections"
                          (Some (Errorf "failed to connect: " err)) 0))
    | inl resp =>
        if negb (http.StatusCode resp =? http.StatusOK)%Z then
          mret ([], Some (ErrMaintainerr "get_collections" None
                            (http.StatusCode resp)))
        else
          match ReadBody resp with
          | inr err =>
              mret ([], Some (ErrMaintainerr "get_collections"
                                (Some (Errorf "failed to read response: " err)) 0))
          | inl body =>
              let parsed :=
                match json.Unmarshal (json.slice_into Collection_into) body with
                | inl collections => inl collections
                | inr _ =>
                    (* Try parsing as single collection if array parse fails *)
                    match json.Unmarshal Collection_into body with
                    | inr err => inr err
                    | inl singleCollection =>
                        if IsActive singleCollection
                        then inl [singleCollection] else inl []
                    end
                end in
              match parsed with
              | inr err =>
                  mret ([], Some (ErrMaintainerr "get_collections"
                                    (Some (errorString ("failed to parse response: "
                                                        ++ json.Error err))) 0))
              | inl collections =>
                  let activeCollections := List.filter IsActive collections in
                  mret (activeCollections, None)
              end
          end
    end.
End collections.

End maintainerr.

(** ** internal/services/general *)
Module general.
Import models core.

Definition headers (apiKey : string) : list (string * string) :=
  if negb (strings.empty apiKey) then [("Authorization", "Bearer " ++ apiKey)]
  else [].

Definition probe_request (url apiKey : string) : Request :=
  {| rq_url := url; rq_key := apiKey; rq_headers := headers apiKey;
     rq_deadline := Some (10 * Second) |}.

(** [v.(string)] of a member of the decoded map *)
Definition as_string (v : option json.value) : option string :=
  match v with Some (json.Str x) => Some x | _ => None end.

(** Map status values to our supported statuses *)
Definition map_status (statusVal : string) : string :=
  let l := strings.ToLower statusVal in
  if String.eqb l "healthy" || String.eqb l "ok" || String.eqb l "online"
  then "online"
  else if String.eqb l "unhealthy" || String.eqb l "error" || String.eqb l "offline"
  then "offline"
  else if String.eqb l "warning" then "warning"
  else "unknown".

Definition CheckHealth (url apiKey : string) : M (ServiceHealth * Z) :=
  startTime ← gets now;
  if strings.empty url then
    mret (CreateHealthResponse startTime "error" "URL is required" ∅,
          http.StatusBadRequest)
  else
    resp ← MakeRequestWithContext (Some (10 * Second)) url apiKey (headers apiKey);
    match resp with
    | inr err =>
        mret (CreateHealthResponse startTime "offline"
                ("Failed to connect: " ++ Error err) ∅,
              http.StatusServiceUnavailable)
    | inl resp =>
        let responseTime := http.ResponseTime resp in
        match http.Body resp with
        | inr err =>
            mret (CreateHealthResponse startTime "error"
                    ("Failed to read response: " ++ Error err) ∅,
                  http.StatusInternalServerError)
        | inl body =>
            let extras : gmap string Extra :=
              <["responseTime" := XInt responseTime]> ∅ in
            (* Try to parse as JSON first *)
            match json.Unmarshal json.map_into body with
            | inl jsonResponse =>
                (* Handle JSON response *)
                let status :=
                  match as_string (json.index jsonResponse "status") with
                  | Some statusVal => map_status statusVal
                  | None => "online"
                  end in
                let message :=
                  match as_string (json.index jsonResponse "message") with
                  | Some messageVal => messageVal
                  | None => EmptyString
                  end in
                mret (CreateHealthResponse startTime status message extras,
                      http.StatusCode resp)
            | inr _ =>
                (* If JSON parsing fails, treat as plain text *)
                let textResponse := strings.TrimSpace body in
                if strings.EqualFold textResponse "ok" then
                  mret (CreateHealthResponse startTime "online" EmptyString extras,
                        http.StatusCode resp)
                else
                  mret (CreateHealthResponse startTime "error"
                          ("Unexpected response: " ++ textResponse) extras,
                        http.StatusCode resp)
            end
        end
    end.

Definition GetVersion (url apiKey : string) : M (string * option error) :=
  mret (EmptyString, None).

Definition GetLatestVersion : M (string * option error) :=
  mret (EmptyString, None).

End general.

(** ** internal/services/arr *)
Module arr.
Import models core.

(** What a checker of the arr family hands to ArrHealthCheck. *)
Record HealthChecker := {
  GetHealthEndpoint : string → string;
  GetSystemStatus : string → string → M (string * option error);
  CheckForUpdates : string → string → M (bool * option error);
}.

Definition probe_deadline : Z := 15 * Second.

Definition probe_request (checker : HealthChecker) (url apiKey : string) : Request :=
  {| rq_url := GetHealthEndpoint checker url; rq_key := apiKey;
     rq_headers := []; rq_deadline := Some probe_deadline |}.

(** Modelled from the spec: arr.ArrHealthCheck (internal/services/arr is not
    among the sources), after the common algorithm shape of section 4.3.
    Step 1: an empty URL gives pending at once, with no network call.
    Step 3: the primary probe goes through the Transport Helper under a
    bounded deadline.  Step 4: a transport failure is offline, a status
    outside 2xx is error, a body that does not parse against the expected
    schema is error.  Steps 2, 5 and 6: the version comes from the
    checker's GetSystemStatus (which consults and fills the cache) and the
    update flag from its CheckForUpdates; a failure of either is
    tolerated and adds an explanatory extra.  Step 7: the status starts
    online and is downgraded to warning by a degraded sub-signal.  The
    schema of the health body is the parameter [issues]: the problems the
    body reports, or None when the body does not parse. *)
Definition ArrHealthCheck (issues : string → option (list string))
    (checker : HealthChecker) (url apiKey : string) : M (ServiceHealth * Z) :=
  startTime ← gets now;
  if strings.empty url then
    mret (CreateHealthResponse startTime "pending" "Service not configured" ∅,
          http.StatusOK)
  else
    resp ← MakeRequestWithContext (Some probe_deadline)
             (GetHealthEndpoint checker url) apiKey [];
    match resp with
    | inr err =>
        mret (CreateHealthResponse startTime "offline"
                ("Failed to connect: " ++ Error err) ∅, http.StatusOK)
    | inl resp =>
        if negb ((200 <=? http.StatusCode resp) && (http.StatusCode resp <? 300))%Z then
          mret (CreateHealthResponse startTime "error"
                  ("Unexpected status code: " ++ strings.itoa (http.StatusCode resp)) ∅,
                http.StatusOK)
        else
          match ReadBody resp with
          | inr err =>
              mret (CreateHealthResponse startTime "error"
                      ("Failed to read response: " ++ Error err) ∅, http.StatusOK)
          | inl body =>
              match issues body with
              | None =>
                  mret (CreateHealthResponse startTime "error"
                          "Failed to parse response" ∅, http.StatusOK)
              | Some problems =>
                  v ← GetSystemStatus checker url apiKey;
                  u ← CheckForUpdates checker url apiKey;
                  let extras : gmap string Extra :=
                    <["version" := XString v.1]>
                      (<["updateAvailable" := XBool u.1]>
                         (<["responseTime" := XInt (http.ResponseTime resp)]> ∅)) in
                  let extras :=
                    match v.2 with
                    | Some err => <["versionError" := XString (Error err)]> extras
                    | None => extras
                    end in
                  match problems with
                  | [] =>
                      mret (CreateHealthResponse startTime "online" "Healthy" extras,
                            http.StatusOK)
                  | _ =>
                      mret (CreateHealthResponse startTime "warning"
                              (json.join problems) extras, http.StatusOK)
                  end
              end
          end
    end.

End arr.

(** ** internal/services/prowlarr *)
Module prowlarr.
Import models core.

Record SystemStatusResponse := { Version : string }.

Definition set_SystemStatusResponse (k : string) (v : json.value)
    (t : SystemStatusResponse) : option SystemStatusResponse :=
  if json.names k "version" then
    x ← json.string_field v (Version t); Some {| Version := x |}
  else Some t.

Definition SystemStatusResponse_into : json.value → option SystemStatusResponse :=
  json.struct_into set_SystemStatusResponse {| Version := EmptyString |}.

(** makeRequest is a helper function to make requests with proper
    headers.  It builds the request itself and sends it with a client of
    its own; an error of either step is the error of the call. *)
Definition makeRequest (deadline : option Z) (url apiKey : string)
    : M (http.Response + error) :=
  let r := {| rq_url := url; rq_key := EmptyString;
              rq_headers := [("X-Api-Key", apiKey); ("Accept", "*/*")];
              rq_deadline := deadline |} in
  modify (log_call r);; ask (λ e, net e r).

(** GetSystemStatus fetches the system status from Prowlarr *)
Definition GetSystemStatus (baseURL apiKey : string) : M (string * option error) :=
  if strings.empty baseURL then
    mret (EmptyString,
          Some (ErrProwlarr "get_system_status"
                  (Some (errorString "URL is required")) 0))
  else
    (* Check cache first *)
    version ← GetVersionFromCache baseURL;
    if negb (strings.empty version) then mret (version, None)
    else
      let statusURL := strings.TrimRight baseURL "/" ++ "/api/v1/system/status" in
      resp ← makeRequest (Some (2 * Second)) statusURL apiKey;
      match resp with
      | inr err =>
          mret (EmptyString,
                Some (ErrProwlarr "get_system_status"
                        (Some (Errorf "failed to make request: " err)) 0))
      | inl resp =>
          if negb (http.StatusCode resp =? http.StatusOK)%Z then
            mret (EmptyString,
                  Some (ErrProwlarr "get_system_status" None (http.StatusCode resp)))
          else
            match ReadBody resp with
            | inr err =>
                mret (EmptyString,
                      Some (ErrProwlarr "get_system_status"
                              (Some (Errorf "failed to read response: " err)) 0))
            | inl body =>
                match json.Unmarshal SystemStatusResponse_into body with
                | inr err =>
                    mret (EmptyString,
                          Some (ErrProwlarr "get_system_status"
                                  (Some (errorString ("failed to parse response: "
                                                      ++ json.Error err))) 0))
                | inl status =>
                    (* Cache version for 1 hour *)
                    CacheVersion baseURL (Version status) Hour;;
                    mret (Version status, None)
                end
            end
      end.

(** CheckForUpdates checks if there are any updates available *)
Definition CheckForUpdates (url apiKey : string) : M (bool * option error) :=
  mret (false, None).

(** GetIndexerStats fetches indexer statistics from Prowlarr.  The struct
    types.ProwlarrIndexerStatsResponse (internal/types is not among the
    sources) is kept abstract: [ProwlarrIndexerStatsResponse_into] is its
    decoding from a JSON value.  The result is a pointer: nil with every
    error. *)
Section indexer_stats.
Context {ProwlarrIndexerStatsResponse : Type}.
Variable ProwlarrIndexerStatsResponse_into :
  json.value → option ProwlarrIndexerStatsResponse.

Definition GetIndexerStats (baseURL apiKey : string)
    : M (option ProwlarrIndexerStatsResponse * option error) :=
  if strings.empty baseURL then
    mret (None,
          Some (ErrProwlarr "get_indexer_stats"
                  (Some (errorString "URL is required")) 0))
  else
    let statsURL := strings.TrimRight baseURL "/" ++ "/api/v1/indexerstats" in
    resp ← makeRequest (Some (2 * Second)) statsURL apiKey;
    match resp with
    | inr err =>
        mret (None,
              Some (ErrProwlarr "get_indexer_stats"
                      (Some (Errorf "failed to make request: " err)) 0))
    | inl resp =>
        if negb (http.StatusCode resp =? http.StatusOK)%Z then
          mret (None,
                Some (ErrProwlarr "get_indexer_stats" None (http.StatusCode resp)))
        else
          match ReadBody resp with
          | inr err =>
              mret (None,
                    Some (ErrProwlarr "get_indexer_stats"
                            (Some (Errorf "failed to read response: " err)) 0))
          | inl body =>
              match json.Unmarshal ProwlarrIndexerStatsResponse_into body with
              | inr err =>
                  mret (None,
                        Some (ErrProwlarr "get_indexer_stats"
                                (Some (errorString ("failed to parse response: "
                                                    ++ json.Error err))) 0))
              | inl stats => mret (Some stats, None)
              end
          end
    end.
End indexer_stats.

(** GetQueue gets the current queue status: Prowlarr has no queue. *)
Definition GetQueue (url apiKey : string) : M (option Extra * option error) :=
  mret (None, None).

(** GetHealthEndpoint returns the health endpoint for Prowlarr *)
Definition GetHealthEndpoint (baseURL : string) : string :=
  strings.TrimRight baseURL "/" ++ "/api/v1/health".

Definition checker : arr.HealthChecker :=
  {| arr.GetHealthEndpoint := GetHealthEndpoint;
     arr.GetSystemStatus := GetSystemStatus;
     arr.CheckForUpdates := CheckForUpdates |}.

Definition CheckHealth (issues : string → option (list string))
    (url apiKey : string) : M (ServiceHealth * Z) :=
  arr.ArrHealthCheck issues checker url apiKey.

End prowlarr.

(** ** internal/config *)
Module config.

Definition EnvConfigPath : string := "DASHBRR__CONFIG_PATH".

(** ServerConfig holds server-related configuration *)
Record ServerConfig := { ListenAddr : string }.

(** RedisConfig holds Redis-specific configuration *)
Record RedisConfig := { Redis_Host : string; Redis_Port : Z }.

(** CacheConfig holds cache-related configuration *)
Record CacheConfig := { Cache_Type : string; Redis : RedisConfig }.

(** DatabaseConfig holds database-related configuration *)
Record DatabaseConfig := {
  DB_Type : string;
  Path : string;
  Host : string;
  Port : Z;
  User : string;
  Password : string;
  Name : string;
}.

(** OIDCConfig holds OIDC-specific configuration *)
Record OIDCConfig := {
  Issuer : string;
  ClientID : string;
  ClientSecret : string;
  RedirectURL : string;
}.

(** AuthConfig holds authentication-related configuration *)
Record AuthConfig := { OIDC : OIDCConfig }.

(** Config represents the main configuration structure *)
Record Config := {
  Server : ServerConfig;
  Cache : CacheConfig;
  Database : DatabaseConfig;
  Auth : AuthConfig;
}.

(** [&Config{}] *)
Definition zero : Config :=
  {| Server := {| ListenAddr := EmptyString |};
     Cache := {| Cache_Type := EmptyString;
                 Redis := {| Redis_Host := EmptyString; Redis_Port := 0 |} |};
     Database := {| DB_Type := EmptyString; Path := EmptyString;
                    Host := EmptyString; Port := 0; User := EmptyString;
                    Password := EmptyString; Name := EmptyString |};
     Auth := {| OIDC := {| Issuer := EmptyString; ClientID := EmptyString;
                           ClientSecret := EmptyString;
                           RedirectURL := EmptyString |} |} |}.

(** Assignments to one field of the configuration. *)
Definition set_Redis (f : RedisConfig → RedisConfig) (c : Config) : Config :=
  {| Server := Server c;
     Cache := {| Cache_Type := Cache_Type (Cache c); Redis := f (Redis (Cache c)) |};
     Database := Database c; Auth := Auth c |}.

Definition set_Database (f : DatabaseConfig → DatabaseConfig) (c : Config) : Config :=
  {| Server := Server c; Cache := Cache c; Database := f (Database c);
     Auth := Auth c |}.

Definition set_OIDC (f : OIDCConfig → OIDCConfig) (c : Config) : Config :=
  {| Server := Server c; Cache := Cache c; Database := Database c;
     Auth := {| OIDC := f (OIDC (Auth c)) |} |}.

Section environment.
(** [os.Getenv]: the value of a variable of the process environment, empty
    when the variable is not set. *)
Variable Getenv : string → string.

Definition requiredVars : list string :=
  ["DASHBRR__DB_HOST"; "DASHBRR__DB_PORT"; "DASHBRR__DB_USER";
   "DASHBRR__DB_PASSWORD"; "DASHBRR__DB_NAME"].

(** HasRequiredEnvVars checks if all required environment variables are set *)
Definition HasRequiredEnvVars : bool :=
  (* Check server config *)
  if strings.empty (Getenv "DASHBRR__LISTEN_ADDR") then false
  else
    (* Check database config - either SQLite or PostgreSQL must be configured *)
    let dbType := Getenv "DASHBRR__DB_TYPE" in
    if strings.empty dbType then false
    else if String.eqb dbType "sqlite" then
      (if strings.empty (Getenv "DASHBRR__DB_PATH") then false else true)
    else if String.eqb dbType "postgres" then
      forallb (λ v, negb (strings.empty (Getenv v))) requiredVars
    else false.

(** [if env := os.Getenv(name); env != empty { assign(env) }] *)
Definition override (name : string) (assign : string → Config → Config)
    (config : Config) : Config :=
  let env := Getenv name in
  if negb (strings.empty env) then assign env config else config.

(** The same for a port: the value is assigned only when [strconv.Atoi]
    accepts it. *)
Definition override_port (name : string) (assign : Z → Config → Config)
    (config : Config) : Config :=
  override name
    (λ env config, match strconv.Atoi env with
                   | Some port => assign port config
                   | None => config
                   end)
    config.

(** LoadEnvOverrides loads configuration from environment variables.  The
    configuration is changed in place; the error it returns is always nil. *)
Definition LoadEnvOverrides (config : Config) : Config * option error :=
  (* Server *)
  let config :=
    override "DASHBRR__LISTEN_ADDR"
      (λ env c, {| Server := {| ListenAddr := env |}; Cache := Cache c;
                   Database := Database c; Auth := Auth c |}) config in
  (* Cache *)
  let config :=
    override "CACHE_TYPE"
      (λ env c, {| Server := Server c;
                   Cache := {| Cache_Type := env; Redis := Redis (Cache c) |};
                   Database := Database c; Auth := Auth c |}) config in
  let config :=
    override "REDIS_HOST"
      (λ env, set_Redis (λ r, {| Redis_Host := env; Redis_Port := Redis_Port r |}))
      config in
  let config :=
    override_port "REDIS_PORT"
      (λ port, set_Redis (λ r, {| Redis_Host := Redis_Host r; Redis_Port := port |}))
      config in
  (* Database *)
  let config :=
    override "DASHBRR__DB_TYPE"
      (λ env, set_Database (λ d,
         {| DB_Type := env; Path := Path d; Host := Host d; Port := Port d;
            User := User d; Password := Password d; Name := Name d |}))
      config in
  let config :=
    override "DASHBRR__DB_PATH"
      (λ env, set_Database (λ d,
         {| DB_Type := DB_Type d; Path := env; Host := Host d; Port := Port d;
            User := User d; Password := Password d; Name := Name d |}))
      config in
  let config :=
    override "DASHBRR__DB_HOST"
      (λ env, set_Database (λ d,
         {| DB_Type := DB_Type d; Path := Path d; Host := env; Port := Port d;
            User := User d; Password := Password d; Name := Name d |}))
      config in
  let config :=
    override_port "DASHBRR__DB_PORT"
      (λ port, set_Database (λ d,
         {| DB_Type := DB_Type d; Path := Path d; Host := Host d; Port := port;
            User := User d; Password := Password d; Name := Name d |}))
      config in
  let config :=
    override "DASHBRR__DB_USER"
      (λ env, set_Database (λ d,
         {| DB_Type := DB_Type d; Path := Path d; Host := Host d; Port := Port d;
            User := env; Password := Password d; Name := Name d |}))
      config in
  let config :=
    override "DASHBRR__DB_PASSWORD"
      (λ env, set_Database (λ d,
         {| DB_Type := DB_Type d; Path := Path d; Host := Host d; Port := Port d;
            User := User d; Password := env; Name := Name d |}))
      config in
  let config :=
    override "DASHBRR__DB_NAME"
      (λ env, set_Database (λ d,
         {| DB_Type := DB_Type d; Path := Path d; Host := Host d; Port := Port d;
            User := User d; Password := Password d; Name := env |}))
      config in
  (* Auth OIDC *)
  let config :=
    override "OIDC_ISSUER"
      (λ env, set_OIDC (λ o,
         {| Issuer := env; ClientID := ClientID o;
            ClientSecret := ClientSecret o; RedirectURL := RedirectURL o |}))
      config in
  let config :=
    override "OIDC_CLIENT_ID"
      (λ env, set_OIDC (λ o,
         {| Issuer := Issuer o; ClientID := env;
            ClientSecret := ClientSecret o; RedirectURL := RedirectURL o |}))
      config in
  let config :=
    override "OIDC_CLIENT_SECRET"
      (λ env, set_OIDC (λ o,
         {| Issuer := Issuer o; ClientID := ClientID o;
            ClientSecret := env; RedirectURL := RedirectURL o |}))
      config in
  let config :=
    override "OIDC_REDIRECT_URL"
      (λ env, set_OIDC (λ o,
         {| Issuer := Issuer o; ClientID := ClientID o;
            ClientSecret := ClientSecret o; RedirectURL := env |}))
      config in
  (config, None).

(** [os.ReadFile], and [toml.Unmarshal] of go-toml, which fills the
    configuration it is given from the text of a file. *)
Variable ReadFile : string → string + error.
Variable toml_Unmarshal : string → Config → Config + error.

(** LoadConfig loads the configuration from environment variables or TOML
    file *)
Definition LoadConfig (path : string) : option Config * option error :=
  let config := zero in
  (* If all required environment variables are set, use them directly *)
  if HasRequiredEnvVars then
    match LoadEnvOverrides config with
    | (_, Some err) =>
        (None, Some (Errorf "error loading environment variables: " err))
    | (config, None) => (Some config, None)
    end
  else
    (* Otherwise try to load from config file *)
    match ReadFile path with
    | inr err => (None, Some (Errorf "error reading config file: " err))
    | inl data =>
        match toml_Unmarshal data config with
        | inr err => (None, Some (Errorf "error decoding config file: " err))
        | inl config =>
            (* Override with any environment variables that are set *)
            match LoadEnvOverrides config with
            | (_, Some err) =>
                (None, Some (Errorf "error loading environment variables: " err))
            | (config, None) => (Some config, None)
            end
        end
    end.

End environment.

End config.

(** ** cmd/dashbrr *)
Module main.

Section environment.
Variable Getenv : string → string.
Variable ReadFile : string → string + error.
Variable toml_Unmarshal : string → config.Config → config.Config + error.


End environment.

End main.

(** ** Goroutines that outlive the check that started them *)

Definition run_task (t : Task) : M unit :=
  match t with
  | AutobrrVersionTask url apiKey versionChan =>
      autobrr.version_task url apiKey versionChan
  | AutobrrUpdateTask url apiKey updateChan =>
      autobrr.update_task url apiKey updateChan
  | MaintainerrVersionTask url versionChan errChan =>
      maintainerr.version_task url versionChan errChan
  end.

(** Every goroutine that is still running runs to its end. *)
Definition drain : M unit :=
  λ e w, (tt, foldl (λ w' t, after (run_task t) (in_task e) w')
                (set_tasks (λ _, []) w) (tasks w)).

(** ** Concrete worlds and upstreams for the examples *)

Definition world0 : World :=
  {| cache := ∅; now := 0; calls := []; cache_sets := []; chans := ∅;
     next_chan := 0; tasks := [] |}.

Definition response (code : Z) (body : string) : http.Response :=
  {| http.StatusCode := code; http.ResponseTime := 12; http.Body := inl body |}.

Definition answer (code : Z) (body : string) : http.Response + error :=
  inl (response code body).

Definition refused : http.Response + error :=
  inr (errorString "dial tcp: connection refused").

(** An upstream that answers the listed URLs and refuses every other
    connection. *)
Definition upstream (routes : list (string * (http.Response + error)))
    (r : Request) : http.Response + error :=
  match find (λ p, String.eqb p.1 (rq_url r)) routes with
  | Some p => p.2
  | None => refused
  end.

(** The upstream answers the check and its goroutines alike. *)
Definition env_of (n : Request → http.Response + error) (in_time : bool) : Env :=
  {| net := n; task_net := n; cache_refuses := λ _, false;
     version_in_time := in_time; update_in_time := in_time |}.

(** The upstream answers the check by [n] and its goroutines, which are in
    time, by [t]. *)
Definition env_with_tasks (n t : Request → http.Response + error) : Env :=
  {| net := n; task_net := t; cache_refuses := λ _, false;
     version_in_time := true; update_in_time := true |}.

(** The state at instant 0 with the given cache entries. *)
Definition world_with (entries : list (string * (string * Z))) : World :=
  {| cache := list_to_map entries; now := 0; calls := []; cache_sets := [];
     chans := ∅; next_chan := 0; tasks := [] |}.

(** The scenario of the specification for the IRC-capable product. *)
Definition autobrr_upstream : Request → http.Response + error :=
  upstream
    [("http://x:7474/api/healthz/liveness", answer 200 (q "'healthy'"));
     ("http://x:7474/api/irc",
      answer 200 (q "[{'name':'a','healthy':true,'enabled':true},{'name':'b','healthy':false,'enabled':true}]"));
     ("http://x:7474/api/config", answer 200 (q "{'version':'1.2.3'}"));
     ("http://x:7474/api/updates/latest", answer 204 EmptyString);
     ("http://x:7474/api/release/stats", answer 200 (q "{'total_count':7, 'push_error_count': 1}"))].

(** ** Vocabulary of the statements *)

(** Exactly offline: neither error nor warning. *)
Definition exactly_offline (r : models.ServiceHealth) : Prop :=
  models.Status r = "offline" ∧ models.Status r ≠ "error"
  ∧ models.Status r ≠ "warning".

(** The mapping of the status field of a generic JSON answer as the
    specification words it: healthy and ok are online, unhealthy and error
    are offline, warning is warning, anything else is unknown. *)
Definition claimed_status (statusVal : string) : string :=
  let l := strings.ToLower statusVal in
  if bool_decide (l ∈ ["healthy"; "ok"]) then "online"
  else if bool_decide (l ∈ ["unhealthy"; "error"]) then "offline"
  else if bool_decide (l = "warning") then "warning"
  else "unknown".

(** The mapping with the two synonyms the checker also accepts, and with the
    case of an answer that has no status string. *)
Definition amended_status (field : option string) : string :=
  match field with
  | None => "online"
  | Some statusVal =>
      let l := strings.ToLower statusVal in
      if bool_decide (l ∈ ["healthy"; "ok"; "online"]) then "online"
      else if bool_decide (l ∈ ["unhealthy"; "error"; "offline"]) then "offline"
      else if bool_decide (l = "warning") then "warning"
      else "unknown"
  end.

(** The requests of the autobrr and the prowlarr package. *)
Definition autobrr_request (url apiKey path : string) (deadline : Z) : Request :=
  {| rq_url := autobrr.getEndpoint url path; rq_key := apiKey;
     rq_headers := autobrr.headers apiKey; rq_deadline := Some deadline |}.

Definition irc_request (url apiKey : string) : Request :=
  autobrr_request url apiKey "/api/irc" (15 * Second).

Definition collections_request (url apiKey : string) : Request :=
  {| rq_url := strings.TrimRight url "/" ++ "/api/collections"; rq_key := apiKey;
     rq_headers := []; rq_deadline := None |}.

(** [n] slashes. *)
Fixpoint slashes (n : nat) : string :=
  match n with
  | O => EmptyString
  | S k => String "/" (slashes k)
  end.

Definition stats_request (url apiKey : string) : Request :=
  autobrr_request url apiKey "/api/release/stats" (15 * Second).

(** The requests of the prowlarr package: the key travels in a header. *)
Definition indexer_stats_request (baseURL apiKey : string) : Request :=
  {| rq_url := strings.TrimRight baseURL "/" ++ "/api/v1/indexerstats";
     rq_key := EmptyString;
     rq_headers := [("X-Api-Key", apiKey); ("Accept", "*/*")];
     rq_deadline := Some (2 * Second) |}.

(** The text of the error a fetch returns for a status code it does not
    accept. *)
Definition server_returned (service op : string) (code : Z) : string :=
  service ++ " " ++ op ++ ": server returned " ++ http.StatusText code
  ++ " (" ++ strings.itoa code ++ ")".

Definition system_status_request (baseURL apiKey : string) : Request :=
  {| rq_url := strings.TrimRight baseURL "/" ++ "/api/v1/system/status";
     rq_key := EmptyString;
     rq_headers := [("X-Api-Key", apiKey); ("Accept", "*/*")];
     rq_deadline := Some (2 * Second) |}.

(** The value a variable of the environment leaves in a field that holds
    [old]: its own when it is set, and for a port when it is a number. *)
Definition pick (Getenv : string → string) (name old : string) : string :=
  if strings.empty (Getenv name) then old else Getenv name.

Definition pick_port (Getenv : string → string) (name : string) (old : Z) : Z :=
  if strings.empty (Getenv name) then old
  else default old (strconv.Atoi (Getenv name)).

(** The configuration [config] with every field overridden by its variable. *)
Definition overridden (Getenv : string → string) (c : config.Config)
    : config.Config :=
  let s := pick Getenv in
  let p := pick_port Getenv in
  {| config.Server :=
       {| config.ListenAddr :=
            s "DASHBRR__LISTEN_ADDR" (config.ListenAddr (config.Server c)) |};
     config.Cache :=
       {| config.Cache_Type := s "CACHE_TYPE" (config.Cache_Type (config.Cache c));
          config.Redis :=
            {| config.Redis_Host :=
                 s "REDIS_HOST" (config.Redis_Host (config.Redis (config.Cache c)));
               config.Redis_Port :=
                 p "REDIS_PORT" (config.Redis_Port (config.Redis (config.Cache c))) |} |};
     config.Database :=
       {| config.DB_Type := s "DASHBRR__DB_TYPE" (config.DB_Type (config.Database c));
          config.Path := s "DASHBRR__DB_PATH" (config.Path (config.Database c));
          config.Host := s "DASHBRR__DB_HOST" (config.Host (config.Database c));
          config.Port := p "DASHBRR__DB_PORT" (config.Port (config.Database c));
          config.User := s "DASHBRR__DB_USER" (config.User (config.Database c));
          config.Password :=
            s "DASHBRR__DB_PASSWORD" (config.Password (config.Database c));
          config.Name := s "DASHBRR__DB_NAME" (config.Name (config.Database c)) |};
     config.Auth :=
       {| config.OIDC :=
            {| config.Issuer :=
                 s "OIDC_ISSUER" (config.Issuer (config.OIDC (config.Auth c)));
               config.ClientID :=
                 s "OIDC_CLIENT_ID" (config.ClientID (config.OIDC (config.Auth c)));
               config.ClientSecret :=
                 s "OIDC_CLIENT_SECRET"
                   (config.ClientSecret (config.OIDC (config.Auth c)));
               config.RedirectURL :=
                 s "OIDC_REDIRECT_URL"
                   (config.RedirectURL (config.OIDC (config.Auth c))) |} |} |}.

(** An environment that names an SQLite database. *)
Definition sqlite_environment (name : string) : string :=
  if String.eqb name "DASHBRR__LISTEN_ADDR" then "0.0.0.0:8080"
  else if String.eqb name "DASHBRR__DB_TYPE" then "sqlite"
  else if String.eqb name "DASHBRR__DB_PATH" then "/data/dashbrr.db"
  else if String.eqb name "REDIS_PORT" then "6379"
  else EmptyString.


(** ** Vocabulary of the proofs *)

(** A Hoare triple for one environment: from a state that satisfies [P] the
    computation ends with a result and a state that satisfy [Q]. *)
Definition hoare {A} (e : Env) (P : World → Prop) (c : M A)
    (Q : A → World → Prop) : Prop :=
  ∀ w, P w → Q (c e w).1 (c e w).2.

(** What a computation may change besides the two logs, the channels and
    the channel counter: the cache entries of the keys [ks].  The clock and
    the list of running goroutines stay. *)
Definition footprint (ks : list string) (w w' : World) : Prop :=
  now w' = now w ∧ tasks w' = tasks w
  ∧ ∀ k, k ∉ ks → cache w' !! k = cache w !! k.

Definition quiet {A} (ks : list string) (c : M A) : Prop :=
  ∀ e w, footprint ks w (c e w).2.

(** The cache entry a read finds under [key]: the value stored there while
    it has not expired. *)
Definition cached (w : World) (key : string) : option string :=
  match cache w !! key with
  | Some (v, expiry) => if (now w <? expiry)%Z then Some v else None
  | None => None
  end.

(** Nothing is served from the cache under [key]: no entry, an expired
    entry, or the empty string, which the fetchers take for absent. *)
Definition missing (w : World) (key : string) : Prop :=
  default EmptyString (cached w key) = EmptyString.

(** [near ks w0 w]: the clock of [w] is that of [w0], and so is every cache
    entry outside the keys [ks]. *)
Definition near (ks : list string) (w0 w : World) : Prop :=
  now w = now w0 ∧ ∀ k, k ∉ ks → cache w !! k = cache w0 !! k.

(** What CheckHealth of autobrr has of the version and of the update flag
    when it assembles its result: what the lookup answers when it is in
    time and succeeds, the zero value otherwise.  The lookups are those of
    the state [w] the check starts in, answered as the requests of
    goroutines are. *)
Definition version_seen (e : Env) (w : World) (url apiKey : string) : string :=
  if version_in_time e then
    let r := result (autobrr.GetVersion url apiKey) (in_task e) w in
    match r.2 with Some _ => EmptyString | None => r.1 end
  else EmptyString.

Definition update_seen (e : Env) (w : World) (url apiKey : string) : bool :=
  if update_in_time e then
    let r := result (autobrr.CheckUpdate url apiKey) (in_task e) w in
    match r.2 with Some _ => false | None => r.1 end
  else false.

(** The result CheckHealth of autobrr assembles once the liveness probe has
    answered healthy, from what its sub-checks answer in the state [w]. *)
Definition autobrr_verdict (e : Env) (w : World) (url apiKey : string)
    (responseTime : Z) : models.ServiceHealth :=
  let version := version_seen e w url apiKey in
  let hasUpdate := update_seen e w url apiKey in
  let stats := (result (autobrr.GetReleaseStats url apiKey) e w).1 in
  let i := result (autobrr.GetIRCStatus url apiKey) e w in
  let extras := autobrr.base_extras version responseTime hasUpdate stats in
  match i.2 with
  | Some err =>
      core.CreateHealthResponse (now w) "warning"
        ("Autobrr is running but IRC status check failed: " ++ Error err)
        (<["details" := autobrr.irc_details i.1]> extras)
  | None =>
      if negb (if Nat.eqb (length i.1) 0 then true else existsb Healthy i.1)
      then core.CreateHealthResponse (now w) "warning"
             "Autobrr is running but reports unhealthy IRC connections"
             (<["details" := autobrr.irc_details i.1]> extras)
      else core.CreateHealthResponse (now w) "online" "Autobrr is running" extras
  end.

(** The liveness body autobrr takes for healthy. *)
Definition reports_healthy (body : string) : Prop :=
  let trimmedBody := strings.Trim (strings.TrimSpace body) dquote in
  trimmedBody = "healthy" ∨ trimmedBody = "OK".

(** A goroutine of the check of [url] with the key [apiKey]. *)
Definition autobrr_task (url apiKey : string) (t : Task) : Prop :=
  ∃ c, t = AutobrrVersionTask url apiKey c ∨ t = AutobrrUpdateTask url apiKey c.

Definition maintainerr_task (url : string) (t : Task) : Prop :=
  ∃ c c', t = MaintainerrVersionTask url c c'.

(** The state after a computation holds the cache and the list of cache
    writes of the state before. *)
Definition no_write {A} (c : M A) (e : Env) (w : World) : Prop :=
  cache (after c e w) = cache w ∧ cache_sets (after c e w) = cache_sets w.

(** [settled w0 cs w]: the cache and the clock of [w] are those of [w0],
    and the requests sent so far are [cs]. *)
Definition settled (w0 : World) (cs : list Request) (w : World) : Prop :=
  cache w = cache w0 ∧ now w = now w0 ∧ calls w = cs.

(** [utf8.ValidString] *)
Fixpoint valid_utf8 (skip : nat) (s : string) : bool :=
  match s with
  | EmptyString => true
  | String a r =>
      match skip with
      | S k => valid_utf8 k r
      | O =>
          if (code a <? 128)%N then valid_utf8 0 r
          else match utf8.size a r with
               | O => false
               | S k => valid_utf8 k r
               end
      end
  end.

(** The scanner after the bytes of [s], short of the end of the input. *)
Fixpoint steps (st : json.state) (s : string) : option json.state :=
  match s with
  | EmptyString => Some st
  | String c r => st' ← json.feed st c; steps st' r
  end.

(** Every byte of [s] is 128 or more. *)
Fixpoint high (s : string) : bool :=
  match s with
  | EmptyString => true
  | String c r => (128 <=? code c)%N && high r
  end.

(** The first [k] bytes of [s], and what follows them. *)
Fixpoint take (k : nat) (s : string) : string :=
  match k, s with
  | S k', String c r => String c (take k' r)
  | _, _ => EmptyString
  end.

Fixpoint drop (k : nat) (s : string) : string :=
  match k, s with
  | S k', String c r => drop k' r
  | _, _ => s
  end.

(** The bytes of [s] as the scanner collects them when it copies them. *)
Definition raws (s : string) : list json.sitem :=
  json.SRaw <$> list_ascii_of_string s.

(** The item the scanner makes of what [quote] writes for an ASCII byte. *)
Definition ascii_item (a : ascii) : json.sitem :=
  if json.html_safe a then json.SRaw a
  else if is_byte 92 a || is_byte 34 a || is_byte 8 a || is_byte 12 a
          || is_byte 10 a || is_byte 13 a || is_byte 9 a then json.SEsc a
  else json.SUnit (code a).

(** The JSON value of an IRC status. *)
Definition IRCStatus_value (st : IRCStatus) : json.value :=
  json.Object [("name", json.Str (Name st)); ("healthy", json.Bool (Healthy st));
               ("enabled", json.Bool (Enabled st))].

(** The names of the statuses are well-formed UTF-8. *)
Definition valid_names (l : list IRCStatus) : Prop :=
  Forall (λ st, valid_utf8 0 (Name st) = true) l.

(** What the scanner collects of a string literal. *)
Definition item_ok (it : json.sitem) : bool :=
  match it with
  | json.SRaw _ => true
  | json.SEsc a => (code a <? 128)%N
  | json.SUnit u => (u <? 65536)%N
  end.

(** Every string of a value is well-formed UTF-8. *)
Fixpoint vvalid (v : json.value) : bool :=
  match v with
  | json.Str s => valid_utf8 0 s
  | json.Array l => forallb vvalid l
  | json.Object fs => forallb (λ kv, let '(_, x) := kv in vvalid x) fs
  | _ => true
  end.

(** The same for what the parser and the scanner hold while they read. *)
Definition frame_ok (f : json.frame) : bool :=
  match f with
  | json.FArr es => forallb vvalid es
  | json.FObj fs _ => forallb (λ kv, let '(_, x) := kv in vvalid x) fs
  end.

Definition pstate_ok (ps : json.pstate) : bool :=
  forallb frame_ok ps.2
  && match ps.1 with json.PDone v => vvalid v | _ => true end.

Definition token_ok (t : json.token) : bool :=
  match t with json.TValue v => vvalid v | _ => true end.

Definition lex_ok (lm : json.lexmode) : bool :=
  match lm with
  | json.LStr items | json.LEsc items => forallb item_ok items
  | json.LHex items ds => forallb item_ok items && forallb (λ d, d <? 16)%N ds
  | _ => true
  end.

Definition state_ok (st : json.state) : bool := lex_ok st.1 && pstate_ok st.2.

(** * Properties *)

Import models.

(** ** Reasoning about computations in [M] *)

Lemma hoare_bind {A B} e P (c : M A) (k : A → M B) Q R :
  hoare e P c Q → (∀ a, hoare e (Q a) (k a) R) → hoare e P (c ≫= k) R.
Proof. intros Hc Hk w Hw. apply Hk, Hc, Hw. Qed.

Lemma hoare_ret {A} e (P : World → Prop) (a : A) (Q : A → World → Prop) :
  (∀ w, P w → Q a w) → hoare e P (mret a) Q.
Proof. intros H w Hw. apply H, Hw. Qed.

Lemma hoare_any {A} e P (c : M A) : hoare e P c (λ _ _, True).
Proof. intros w _. exact I. Qed.

Lemma empty_false s : s ≠ EmptyString → strings.empty s = false.
Proof. by destruct s. Qed.

(** Unfolding one bind, and the monad operations altogether. *)
Lemma bind_run {A B} (c : M A) (k : A → M B) e w :
  (c ≫= k) e w = k (c e w).1 e (c e w).2.
Proof. reflexivity. Qed.

Ltac run_monad :=
  unfold mbind, M_bind, mret, M_ret, gets, ask, modify; simpl.

(** A read of the cache. *)
Lemma GetVersionFromCache_run key e w :
  core.GetVersionFromCache key e w = (default EmptyString (cached w key), w).
Proof. reflexivity. Qed.

(** Membership in, and inclusion of, explicit lists of keys. *)
Ltac keys :=
  lazymatch goal with
  | |- _ ∈ _ => first [apply list_elem_of_here | apply list_elem_of_further; keys]
  | |- _ ∉ [] => apply not_elem_of_nil
  | |- _ ⊆ _ =>
      let k := fresh "k" in
      let Hk := fresh "Hk" in
      intros k Hk;
      repeat (apply elem_of_cons in Hk as [-> | Hk]);
      first [by apply elem_of_nil in Hk | keys]
  | |- _ => done
  end.

(** One step of a computation whose result and state do not matter. *)
Ltac skip_step := eapply hoare_bind; [apply hoare_any | intros ?].

Ltac case_step :=
  match goal with
  | |- hoare _ _ (match ?x with _ => _ end) _ => destruct x
  | |- hoare _ _ (if ?x then _ else _) _ => destruct x
  end.

Ltac always :=
  repeat first
    [ apply hoare_ret; intros; reflexivity
    | eapply hoare_bind; [apply hoare_any | intros ?]
    | case_step
    | unfold await ].

(** ** The models at work *)

Example TrimRight_slashes :
  strings.TrimRight "http://x:7474//" "/" = "http://x:7474".
Proof. reflexivity. Qed.

Example TrimSpace_ok :
  strings.TrimSpace (String (byte 9) (" ok " ++ String (byte 10) EmptyString))
  = "ok".
Proof. reflexivity. Qed.

Example TrimSpace_nbsp :
  strings.TrimSpace (String (byte 194) (String (byte 160) "ok")) = "ok".
Proof. reflexivity. Qed.

Example Trim_quotes : strings.Trim (q "'healthy'") dquote = "healthy".
Proof. reflexivity. Qed.

Example ToLower_mixed : strings.ToLower "HeAlThY" = "healthy".
Proof. reflexivity. Qed.

Example EqualFold_ok :
  strings.EqualFold "Ok" "ok" = true /\ strings.EqualFold "okay" "ok" = false.
Proof. split; reflexivity. Qed.

Example itoa_500 : strings.itoa 500 = "500" /\ strings.itoa (-3) = "-3".
Proof. split; vm_compute; reflexivity. Qed.

Example parse_object :
  json.parse (q " {'a': [1, -2.5e3, true, null], 'b': {'c': 'x\ny'}} ")
  = Some (json.Object
            [("a", json.Array [json.Number "1"; json.Number "-2.5e3";
                               json.Bool true; json.Null]);
             ("b", json.Object [("c", json.Str ("x" ++ String (byte 10) "y"))])]).
Proof. vm_compute. reflexivity. Qed.

Example parse_rejects :
  json.parse "OK" = None /\ json.parse "[1,]" = None /\ json.parse "01" = None
  /\ json.parse "{} x" = None /\ json.parse "" = None
  /\ json.parse "[1 2]" = None /\ json.parse "truefalse" = None
  /\ json.parse (q "{'a' 1}") = None /\ json.parse (q "'a") = None.
Proof. vm_compute. repeat split. Qed.

Example parse_unicode_escapes :
  json.parse (q "'\u00e9\ud83d\ude00\ud800x'")
  = Some (json.Str (utf8.encode 233 ++ utf8.encode 128512
                    ++ utf8.replacement ++ "x")).
Proof. vm_compute. reflexivity. Qed.

Example parse_first_cases :
  json.parse_first "{} trailing" = Some (json.Object [])
  /\ json.parse_first " [1]]" = Some (json.Array [json.Number "1"])
  /\ json.parse_first "null x" = Some json.Null
  /\ json.parse_first "null," = Some json.Null
  /\ json.parse_first "nullx" = Some json.Null
  /\ json.parse_first "nulx" = None
  /\ json.parse_first "nul" = None
  /\ json.parse_first "12 x" = Some (json.Number "12")
  /\ json.parse_first "12x" = Some (json.Number "12")
  /\ json.parse_first "012" = Some (json.Number "0")
  /\ json.parse_first "-1.5e+3]" = Some (json.Number "-1.5e+3")
  /\ json.parse_first "1.x" = None
  /\ json.parse_first "1e" = None
  /\ json.parse_first "-" = None
  /\ json.parse_first (q "'a' x") = Some (json.Str "a")
  /\ json.parse_first (q "'a'x") = Some (json.Str "a")
  /\ json.parse_first (q "'a") = None
  /\ json.parse_first "[1x]" = None
  /\ json.parse_first "[1" = None
  /\ json.parse_first "}" = None
  /\ json.parse_first "  " = None.
Proof. vm_compute. repeat split. Qed.

Example float64_range :
  json.float64_overflows "1e999" = true
  /\ json.float64_overflows "-1e999" = true
  /\ json.float64_overflows "1e309" = true
  /\ json.float64_overflows "1.7976931348623159e308" = true
  /\ json.float64_overflows "1.7976931348623158e308" = false
  /\ json.float64_overflows "179769313486231580793728971405303415079934132710037826936173778980444968292764750946649017977587207096330286416692887910946555547851940402630657488671505820681908902000708383676273854845817711531764475730270069855571366959622842914819860834936475292719074168444365510704342711559699508093042880177904174497791" = false
  /\ json.float64_overflows "179769313486231580793728971405303415079934132710037826936173778980444968292764750946649017977587207096330286416692887910946555547851940402630657488671505820681908902000708383676273854845817711531764475730270069855571366959622842914819860834936475292719074168444365510704342711559699508093042880177904174497792" = true
  /\ json.float64_overflows "0e999" = false
  /\ json.float64_overflows "1e-999" = false
  /\ json.float64_overflows "0.000001e315" = true
  /\ json.float64_overflows "12" = false.
Proof. vm_compute. repeat split. Qed.

Example map_into_numbers :
  json.Unmarshal json.map_into (q "{'status':'ok','n':1e308}")
  = inl [("status", json.Str "ok"); ("n", json.Number "1e308")]
  /\ json.Unmarshal json.map_into (q "{'status':'ok','n':1e999}")
     = inr json.UnmarshalTypeError
  /\ json.Unmarshal json.map_into (q "{'status':'ok','n':[{'m':-1e999}]}")
     = inr json.UnmarshalTypeError.
Proof. vm_compute. repeat split. Qed.

Example autobrr_scenario :
  let r := result (autobrr.CheckHealth "http://x:7474" "abc")
             (env_of autobrr_upstream true) world0 in
  models.Status r.1 = "warning"
  /\ models.Message r.1 = "Autobrr is running but reports unhealthy IRC connections"
  /\ models.Extras r.1 !! "details"
     = Some (autobrr.irc_details [{| Name := "b"; Healthy := false; Enabled := true |}])
  /\ models.Extras r.1 !! "version" = Some (XString "1.2.3")
  /\ models.Extras r.1 !! "updateAvailable" = Some (XBool false)
  /\ models.Extras r.1 !! "responseTime" = Some (XInt 12)
  /\ r.2 = 200.
Proof. vm_compute. repeat split. Qed.

Example autobrr_scenario_cache :
  let w := after (autobrr.CheckHealth "http://x:7474" "abc")
             (env_of autobrr_upstream true) world0 in
  cache w !! "http://x:7474_irc"
  = Some (q "[{'name':'b','healthy':false,'enabled':true}]", 300)
  /\ cache w !! "http://x:7474" = Some ("1.2.3", 7200)
  /\ cache w !! "http://x:7474_update" = Some ("false", 7200)
  /\ length (calls w) = 5%nat /\ tasks w = [].
Proof. vm_compute. repeat split. Qed.

Lemma hoare_run {A} e (c : M A) (Φ : A → Prop) w :
  hoare e (λ _, True) c (λ a _, Φ a) → Φ (result c e w).
Proof. intros H. apply (H w I). Qed.

(** The continuation of a request runs on the answer of the environment. *)
Lemma hoare_request_bind {B} e P d u k h (f : http.Response + error → M B) Q :
  hoare e (λ _, True)
    (f (net e {| rq_url := u; rq_key := k; rq_headers := h; rq_deadline := d |})) Q →
  hoare e P (core.MakeRequestWithContext d u k h ≫= f) Q.
Proof. intros H w _. apply (H _ I). Qed.

(** ** The second result of autobrr's CheckHealth *)

(** C10.  AutobrrService.CheckHealth returns http.StatusOK as its second
    result on every path, for every URL, credential, state and upstream. *)
Theorem C10_autobrr_status_ok (e : Env) (w : World) (url apiKey : string) :
  (result (autobrr.CheckHealth url apiKey) e w).2 = http.StatusOK.
Proof.
  apply (hoare_run e _ (λ r, r.2 = http.StatusOK)).
  unfold autobrr.CheckHealth. always.
Qed.

(** ** An empty URL *)

Section empty_url.
Context (e : Env) (w : World) (apiKey : string).

Lemma autobrr_empty_url :
  autobrr.CheckHealth EmptyString apiKey e w
  = (core.CreateHealthResponse (now w) "pending" "Autobrr not configured" ∅,
     http.StatusOK, w).
Proof. reflexivity. Qed.

Lemma maintainerr_empty_url :
  maintainerr.CheckHealth EmptyString apiKey e w
  = (core.CreateHealthResponse (now w) "error" "URL is required" ∅,
     http.StatusBadRequest, w).
Proof. reflexivity. Qed.

Lemma general_empty_url :
  general.CheckHealth EmptyString apiKey e w
  = (core.CreateHealthResponse (now w) "error" "URL is required" ∅,
     http.StatusBadRequest, w).
Proof. reflexivity. Qed.

Lemma prowlarr_empty_url issues :
  prowlarr.CheckHealth issues EmptyString apiKey e w
  = (core.CreateHealthResponse (now w) "pending" "Service not configured" ∅,
     http.StatusOK, w).
Proof. reflexivity. Qed.
End empty_url.

(** C1, the claim as stated fails: with an empty URL the maintainerr checker
    (and the generic one) answers error, not pending. *)
Lemma C1_counterexample :
  let e := env_of (upstream []) true in
  Status (result (maintainerr.CheckHealth EmptyString "abc") e world0).1 = "error"
  ∧ Status (result (general.CheckHealth EmptyString "abc") e world0).1 = "error"
  ∧ "error" ≠ "pending".
Proof. repeat split. discriminate. Qed.

(** C1, amended.  With an empty URL no checker touches the state, so none
    sends a request, whatever the credential.  The autobrr checker (and the
    arr-family algorithm as specified, which prowlarr calls) answers
    pending; the maintainerr and the generic checker answer error with the
    message URL is required and the code 400. *)
Theorem C1_empty_url (e : Env) (w : World) (apiKey : string)
    (issues : string → option (list string)) :
  (Status (result (autobrr.CheckHealth EmptyString apiKey) e w).1 = "pending"
   ∧ after (autobrr.CheckHealth EmptyString apiKey) e w = w)
  ∧ (Status (result (prowlarr.CheckHealth issues EmptyString apiKey) e w).1 = "pending"
     ∧ after (prowlarr.CheckHealth issues EmptyString apiKey) e w = w)
  ∧ (result (maintainerr.CheckHealth EmptyString apiKey) e w
     = (core.CreateHealthResponse (now w) "error" "URL is required" ∅,
        http.StatusBadRequest)
     ∧ after (maintainerr.CheckHealth EmptyString apiKey) e w = w)
  ∧ (result (general.CheckHealth EmptyString apiKey) e w
     = (core.CreateHealthResponse (now w) "error" "URL is required" ∅,
        http.StatusBadRequest)
     ∧ after (general.CheckHealth EmptyString apiKey) e w = w).
Proof.
  unfold result, after.
  rewrite autobrr_empty_url, maintainerr_empty_url, general_empty_url,
    prowlarr_empty_url.
  repeat split.
Qed.

(** ** A failed connection *)

Lemma offline_exactly r : Status r = "offline" → exactly_offline r.
Proof. intros H. unfold exactly_offline. rewrite H. by repeat split. Qed.

Section transport_failure.
Context (e : Env) (w : World) (url apiKey : string) (err : error).
Hypothesis Hurl : url ≠ EmptyString.

Lemma autobrr_offline :
  apiKey ≠ EmptyString →
  net e (autobrr.liveness_request url apiKey) = inr err →
  Status (result (autobrr.CheckHealth url apiKey) e w).1 = "offline".
Proof.
  unfold autobrr.liveness_request. intros Hkey Hnet.
  apply (hoare_run e _ (λ r, Status r.1 = "offline")).
  unfold autobrr.CheckHealth. skip_step.
  rewrite (empty_false _ Hurl), (empty_false _ Hkey). simpl.
  do 5 skip_step. apply hoare_request_bind. rewrite Hnet.
  by apply hoare_ret.
Qed.

Lemma maintainerr_offline :
  net e (maintainerr.status_request url) = inr err →
  Status (result (maintainerr.CheckHealth url apiKey) e w).1 = "offline".
Proof.
  unfold maintainerr.status_request. intros Hnet.
  apply (hoare_run e _ (λ r, Status r.1 = "offline")).
  unfold maintainerr.CheckHealth. skip_step.
  rewrite (empty_false _ Hurl).
  do 3 skip_step. apply hoare_request_bind. rewrite Hnet.
  by apply hoare_ret.
Qed.

Lemma general_offline :
  net e (general.probe_request url apiKey) = inr err →
  Status (result (general.CheckHealth url apiKey) e w).1 = "offline".
Proof.
  unfold general.probe_request. intros Hnet.
  apply (hoare_run e _ (λ r, Status r.1 = "offline")).
  unfold general.CheckHealth. skip_step.
  rewrite (empty_false _ Hurl).
  apply hoare_request_bind. rewrite Hnet.
  by apply hoare_ret.
Qed.

Lemma prowlarr_offline issues :
  net e (arr.probe_request prowlarr.checker url apiKey) = inr err →
  Status (result (prowlarr.CheckHealth issues url apiKey) e w).1 = "offline".
Proof.
  unfold arr.probe_request. intros Hnet.
  apply (hoare_run e _ (λ r, Status r.1 = "offline")).
  unfold prowlarr.CheckHealth, arr.ArrHealthCheck. skip_step.
  rewrite (empty_false _ Hurl).
  apply hoare_request_bind. rewrite Hnet.
  by apply hoare_ret.
Qed.
End transport_failure.

(** C3.  When the primary probe fails at the transport level (the
    environment answers the request with an error: a failed connection, name
    lookup or handshake, or an expired deadline), the result of every
    checker has the status offline, and so neither error nor warning.  The
    probe is only sent for a URL that is not empty and, by the autobrr
    checker, for a key that is not empty. *)
Theorem C3_transport_failure_is_offline
    (e : Env) (w : World) (url apiKey : string) (err : error)
    (issues : string → option (list string)) :
  url ≠ EmptyString →
  (apiKey ≠ EmptyString →
   net e (autobrr.liveness_request url apiKey) = inr err →
   exactly_offline (result (autobrr.CheckHealth url apiKey) e w).1)
  ∧ (net e (maintainerr.status_request url) = inr err →
     exactly_offline (result (maintainerr.CheckHealth url apiKey) e w).1)
  ∧ (net e (general.probe_request url apiKey) = inr err →
     exactly_offline (result (general.CheckHealth url apiKey) e w).1)
  ∧ (net e (arr.probe_request prowlarr.checker url apiKey) = inr err →
     exactly_offline (result (prowlarr.CheckHealth issues url apiKey) e w).1).
Proof.
  intros Hurl. split; [|split; [|split]]; intros; apply offline_exactly.
  - by apply autobrr_offline with err.
  - by apply maintainerr_offline with err.
  - by apply general_offline with err.
  - by apply prowlarr_offline with err.
Qed.

(** C3 at an upstream that refuses every connection. *)
Lemma C3_witness :
  let e := env_of (upstream []) true in
  let url := "http://x:7474" in
  url ≠ EmptyString ∧ "abc" ≠ EmptyString
  ∧ net e (autobrr.liveness_request url "abc") = refused
  ∧ net e (maintainerr.status_request url) = refused
  ∧ net e (general.probe_request url "abc") = refused
  ∧ net e (arr.probe_request prowlarr.checker url "abc") = refused
  ∧ exactly_offline (result (autobrr.CheckHealth url "abc") e world0).1
  ∧ exactly_offline (result (maintainerr.CheckHealth url "abc") e world0).1
  ∧ exactly_offline (result (general.CheckHealth url "abc") e world0).1
  ∧ exactly_offline (result (prowlarr.CheckHealth (λ _, None) url "abc") e world0).1.
Proof.
  intros e url.
  assert (Hurl : url ≠ EmptyString) by discriminate.
  destruct (C3_transport_failure_is_offline e world0 url "abc"
              (errorString "dial tcp: connection refused") (λ _, None) Hurl)
    as (Ha & Hm & Hg & Hp).
  split; [discriminate |]. split; [discriminate |].
  do 4 (split; [reflexivity |]).
  split; [apply Ha; [discriminate | reflexivity] |].
  split; [apply Hm; reflexivity |].
  split; [apply Hg; reflexivity | apply Hp; reflexivity].
Defined.

(** ** HTTP 500 *)

Section http_500.
Context (e : Env) (w : World) (url apiKey : string) (resp : http.Response).
Hypothesis Hurl : url ≠ EmptyString.
Hypothesis Hcode : http.StatusCode resp = http.StatusInternalServerError.

Lemma autobrr_500 :
  apiKey ≠ EmptyString →
  net e (autobrr.liveness_request url apiKey) = inl resp →
  Status (result (autobrr.CheckHealth url apiKey) e w).1 = "error".
Proof.
  unfold autobrr.liveness_request. intros Hkey Hnet.
  apply (hoare_run e _ (λ r, Status r.1 = "error")).
  unfold autobrr.CheckHealth. skip_step.
  rewrite (empty_false _ Hurl), (empty_false _ Hkey). simpl.
  do 5 skip_step. apply hoare_request_bind. rewrite Hnet, Hcode.
  by apply hoare_ret.
Qed.

Lemma maintainerr_500 :
  net e (maintainerr.status_request url) = inl resp →
  Status (result (maintainerr.CheckHealth url apiKey) e w).1 = "error".
Proof.
  unfold maintainerr.status_request. intros Hnet.
  apply (hoare_run e _ (λ r, Status r.1 = "error")).
  unfold maintainerr.CheckHealth. skip_step.
  rewrite (empty_false _ Hurl).
  do 3 skip_step. apply hoare_request_bind. rewrite Hnet, Hcode.
  destruct (core.ReadBody resp); by apply hoare_ret.
Qed.

Lemma prowlarr_500 issues :
  net e (arr.probe_request prowlarr.checker url apiKey) = inl resp →
  Status (result (prowlarr.CheckHealth issues url apiKey) e w).1 = "error".
Proof.
  unfold arr.probe_request. intros Hnet.
  apply (hoare_run e _ (λ r, Status r.1 = "error")).
  unfold prowlarr.CheckHealth, arr.ArrHealthCheck. skip_step.
  rewrite (empty_false _ Hurl).
  apply hoare_request_bind. rewrite Hnet, Hcode.
  by apply hoare_ret.
Qed.
End http_500.

(** The generic checker once the upstream has answered. *)
Lemma general_answered e w url apiKey resp :
  url ≠ EmptyString →
  net e (general.probe_request url apiKey) = inl resp →
  result (general.CheckHealth url apiKey) e w
  = match http.Body resp with
    | inr err =>
        (core.CreateHealthResponse (now w) "error"
           ("Failed to read response: " ++ Error err) ∅,
         http.StatusInternalServerError)
    | inl body =>
        let extras : gmap string Extra :=
          <["responseTime" := XInt (http.ResponseTime resp)]> ∅ in
        (match json.Unmarshal json.map_into body with
         | inl m =>
             core.CreateHealthResponse (now w)
               (match general.as_string (json.index m "status") with
                | Some statusVal => general.map_status statusVal
                | None => "online"
                end)
               (default EmptyString (general.as_string (json.index m "message")))
               extras
         | inr _ =>
             if strings.EqualFold (strings.TrimSpace body) "ok"
             then core.CreateHealthResponse (now w) "online" EmptyString extras
             else core.CreateHealthResponse (now w) "error"
                    ("Unexpected response: " ++ strings.TrimSpace body) extras
         end, http.StatusCode resp)
    end.
Proof.
  intros Hurl Hnet. unfold general.probe_request in Hnet.
  unfold result, general.CheckHealth, mbind, M_bind, gets,
    core.MakeRequestWithContext, modify, ask, mret, M_ret.
  simpl. rewrite (empty_false _ Hurl). simpl. rewrite Hnet.
  destruct (http.Body resp) as [body | err]; [| reflexivity].
  destruct (json.Unmarshal json.map_into body) as [m | ?].
  - simpl. destruct (general.as_string (json.index m "message")); reflexivity.
  - destruct (strings.EqualFold (strings.TrimSpace body) "ok"); reflexivity.
Qed.

Lemma general_500 e w url apiKey resp :
  url ≠ EmptyString →
  http.StatusCode resp = http.StatusInternalServerError →
  net e (general.probe_request url apiKey) = inl resp →
  (result (general.CheckHealth url apiKey) e w).2 = http.StatusInternalServerError.
Proof.
  intros Hurl Hcode Hnet. rewrite (general_answered _ _ _ _ resp) by done.
  destruct (http.Body resp); [exact Hcode | reflexivity].
Qed.

(** The status the generic checker answers depends on the body alone, not
    on the status code of the answer. *)
Lemma general_status_by_body e e' w w' url apiKey resp resp' :
  url ≠ EmptyString →
  net e (general.probe_request url apiKey) = inl resp →
  net e' (general.probe_request url apiKey) = inl resp' →
  http.Body resp' = http.Body resp →
  Status (result (general.CheckHealth url apiKey) e' w').1
  = Status (result (general.CheckHealth url apiKey) e w).1.
Proof.
  intros Hurl Hnet Hnet' Hbody.
  rewrite (general_answered e w _ _ resp), (general_answered e' w' _ _ resp') by done.
  rewrite Hbody. destruct (http.Body resp) as [body | err]; [| reflexivity].
  simpl. destruct (json.Unmarshal json.map_into body); [reflexivity |].
  destruct (strings.EqualFold (strings.TrimSpace body) "ok"); reflexivity.
Qed.

(** C2, the claim as stated fails: the generic checker answers online when
    the upstream answers HTTP 500 with the body ok. *)
Lemma C2_counterexample :
  let url := "http://x/health" in
  let e := env_of (upstream [(url, answer 500 "ok")]) true in
  net e (general.probe_request url EmptyString) = answer 500 "ok"
  ∧ Status (result (general.CheckHealth url EmptyString) e world0).1 = "online"
  ∧ (result (general.CheckHealth url EmptyString) e world0).2 = 500.
Proof. vm_compute. repeat split. Qed.

(** C2, amended.  When the upstream answers the primary probe with HTTP
    500, the autobrr and the maintainerr checker (and the arr-family
    algorithm as specified, which prowlarr calls) answer the status error.
    The generic checker does not classify by the status code: it hands the
    500 to its caller as second result, and its status is that of any other
    answer with the same body. *)
Theorem C2_http_500 (e : Env) (w : World) (url apiKey : string)
    (resp : http.Response) (issues : string → option (list string)) :
  url ≠ EmptyString →
  http.StatusCode resp = http.StatusInternalServerError →
  (apiKey ≠ EmptyString →
   net e (autobrr.liveness_request url apiKey) = inl resp →
   Status (result (autobrr.CheckHealth url apiKey) e w).1 = "error")
  ∧ (net e (maintainerr.status_request url) = inl resp →
     Status (result (maintainerr.CheckHealth url apiKey) e w).1 = "error")
  ∧ (net e (arr.probe_request prowlarr.checker url apiKey) = inl resp →
     Status (result (prowlarr.CheckHealth issues url apiKey) e w).1 = "error")
  ∧ (net e (general.probe_request url apiKey) = inl resp →
     (result (general.CheckHealth url apiKey) e w).2 = http.StatusInternalServerError
     ∧ ∀ e' w' resp',
         net e' (general.probe_request url apiKey) = inl resp' →
         http.Body resp' = http.Body resp →
         Status (result (general.CheckHealth url apiKey) e' w').1
         = Status (result (general.CheckHealth url apiKey) e w).1).
Proof.
  intros Hurl Hcode. split; [| split; [| split]].
  - intros. by apply autobrr_500 with resp.
  - intros. by apply maintainerr_500 with resp.
  - intros. by apply prowlarr_500 with resp.
  - intros Hnet. split; [by apply general_500 with resp |].
    intros e' w' resp' Hnet' Hbody. by apply general_status_by_body with resp resp'.
Qed.

(** C2 at an upstream that answers every probe with HTTP 500. *)
Lemma C2_witness :
  let url := "http://x:7474" in
  let r := {| http.StatusCode := 500; http.ResponseTime := 12;
              http.Body := inl "Internal Server Error" |} in
  let e := env_of (λ _, inl r) true in
  url ≠ EmptyString ∧ http.StatusCode r = http.StatusInternalServerError
  ∧ "abc" ≠ EmptyString
  ∧ Status (result (autobrr.CheckHealth url "abc") e world0).1 = "error"
  ∧ Status (result (maintainerr.CheckHealth url "abc") e world0).1 = "error"
  ∧ Status (result (prowlarr.CheckHealth (λ _, None) url "abc") e world0).1 = "error"
  ∧ (result (general.CheckHealth url "abc") e world0).2 = 500.
Proof.
  intros url r e.
  assert (Hurl : url ≠ EmptyString) by discriminate.
  destruct (C2_http_500 e world0 url "abc" r (λ _, None) Hurl eq_refl)
    as (Ha & Hm & Hp & Hg).
  split; [discriminate |]. split; [reflexivity |]. split; [discriminate |].
  split; [apply Ha; [discriminate | reflexivity] |].
  split; [apply Hm; reflexivity |].
  split; [apply Hp; reflexivity | apply Hg; reflexivity].
Defined.

(** ** The verdict of the generic checker *)

(** C4, the claim as stated fails: the status strings online and offline are
    not among the synonyms it lists, so it maps them to unknown; the
    checker maps them to online and offline. *)
Lemma C4_counterexample :
  let url := "http://x/health" in
  let e := env_of (upstream [(url, answer 200 (q "{'status':'online'}"))]) true in
  json.Unmarshal json.map_into (q "{'status':'online'}")
  = inl [("status", json.Str "online")]
  ∧ Status (result (general.CheckHealth url EmptyString) e world0).1 = "online"
  ∧ claimed_status "online" = "unknown".
Proof. vm_compute. repeat split. Qed.

Lemma map_status_amended statusVal :
  general.map_status statusVal = amended_status (Some statusVal).
Proof.
  unfold general.map_status, amended_status.
  generalize (strings.ToLower statusVal). intros l.
  repeat match goal with
         | |- context [String.eqb l ?s] =>
             destruct (String.eqb_spec l s); [subst; reflexivity |]
         end.
  simpl. rewrite !bool_decide_eq_false_2; [reflexivity | | |];
    first [ assumption
          | let H := fresh in
            intros H;
            repeat (apply elem_of_cons in H as [H | H]; [congruence |]);
            by apply elem_of_nil in H ].
Qed.

(** C4, amended.  Once a reachable upstream has answered with the body
    [body]: when the body decodes into a map, that is when it is a JSON
    object (or null) in which every number, at any depth, is in the range
    of float64, the status is read off its member status, when that is a
    string, by its lower-case form: healthy, ok and online give online;
    unhealthy, error and offline give offline; warning gives warning; any
    other string gives unknown; without such a member the status is online.
    The message is the member message when that is a string, and empty
    otherwise.  When the body does
    not decode so (it is no JSON text, it is JSON of another kind, or it
    holds a number out of that range), the status is online when the body
    trimmed of white space equals ok up to case, and otherwise it is error
    with a message that quotes the trimmed body. *)
Theorem C4_generic_verdict (e : Env) (w : World) (url apiKey body : string)
    (resp : http.Response) :
  url ≠ EmptyString →
  net e (general.probe_request url apiKey) = inl resp →
  http.Body resp = inl body →
  let r := (result (general.CheckHealth url apiKey) e w).1 in
  match json.Unmarshal json.map_into body with
  | inl m =>
      Status r = amended_status (general.as_string (json.index m "status"))
      ∧ Message r = default EmptyString (general.as_string (json.index m "message"))
  | inr _ =>
      if strings.EqualFold (strings.TrimSpace body) "ok"
      then Status r = "online"
      else Status r = "error"
           ∧ Message r = "Unexpected response: " ++ strings.TrimSpace body
  end.
Proof.
  intros Hurl Hnet Hbody r. subst r.
  rewrite (general_answered _ _ _ _ resp) by done. rewrite Hbody. simpl.
  destruct (json.Unmarshal json.map_into body) as [m | ?].
  - simpl. split; [| reflexivity].
    destruct (general.as_string (json.index m "status")); [| reflexivity].
    apply map_status_amended.
  - destruct (strings.EqualFold (strings.TrimSpace body) "ok"); simpl; auto.
Qed.

(** C4 at the three scenarios of the specification, and at an object that
    holds a number too large for a float64. *)
Lemma C4_witness :
  let url := "http://x/health" in
  let run body :=
    (result (general.CheckHealth url EmptyString)
       (env_of (upstream [(url, answer 200 body)]) true) world0).1 in
  url ≠ EmptyString
  ∧ (Status (run (q "{'status':'OK','message':'all good'}")) = "online"
     ∧ Message (run (q "{'status':'OK','message':'all good'}")) = "all good")
  ∧ Status (run "OK") = "online"
  ∧ (Status (run "nope") = "error"
     ∧ Message (run "nope") = "Unexpected response: nope")
  ∧ (Status (run (q "{'status':'ok','n':1e999}")) = "error"
     ∧ Message (run (q "{'status':'ok','n':1e999}"))
       = "Unexpected response: " ++ q "{'status':'ok','n':1e999}").
Proof.
  intros url run.
  assert (Hurl : url ≠ EmptyString) by discriminate.
  split; [exact Hurl |].
  split; [| split; [| split]].
  - exact (C4_generic_verdict
             (env_of (upstream [(url, answer 200 (q "{'status':'OK','message':'all good'}"))]) true)
             world0 url EmptyString (q "{'status':'OK','message':'all good'}") _
             Hurl eq_refl eq_refl).
  - exact (C4_generic_verdict (env_of (upstream [(url, answer 200 "OK")]) true)
             world0 url EmptyString "OK" _ Hurl eq_refl eq_refl).
  - exact (C4_generic_verdict (env_of (upstream [(url, answer 200 "nope")]) true)
             world0 url EmptyString "nope" _ Hurl eq_refl eq_refl).
  - exact (C4_generic_verdict
             (env_of (upstream [(url, answer 200 (q "{'status':'ok','n':1e999}"))]) true)
             world0 url EmptyString (q "{'status':'ok','n':1e999}") _
             Hurl eq_refl eq_refl).
Defined.

(** ** Lenient decoding *)

Section lenient.
Context (e : Env) (w : World) (url apiKey body : string) (resp : http.Response).
Hypothesis Hurl : url ≠ EmptyString.
Hypothesis Hkey : apiKey ≠ EmptyString.
Hypothesis Hcode : http.StatusCode resp = http.StatusOK.
Hypothesis Hbody : http.Body resp = inl body.

Lemma GetIRCStatus_decodes :
  cached w (url ++ "_irc") = None →
  net e (irc_request url apiKey) = inl resp →
  result (autobrr.GetIRCStatus url apiKey) e w
  = match json.Unmarshal autobrr.IRCStatuses_into body with
    | inl allStatus => (List.filter autobrr.unhealthy_enabled allStatus, None)
    | inr _ =>
        match json.Unmarshal autobrr.IRCStatus_into body with
        | inl singleStatus =>
            (if autobrr.unhealthy_enabled singleStatus then [singleStatus] else [],
             None)
        | inr _ =>
            (autobrr.unreachable_IRC,
             Some (errorString ("failed to decode response: " ++ body)))
        end
    end.
Proof.
  intros Hmiss Hnet. unfold irc_request, autobrr_request in Hnet.
  unfold result, autobrr.GetIRCStatus.
  rewrite (empty_false _ Hurl), (empty_false _ Hkey). simpl.
  unfold mbind at 1, M_bind at 1. unfold autobrr.GetIRCStatusFromCache.
  rewrite GetVersionFromCache_run, Hmiss. simpl.
  unfold mbind at 1, M_bind at 1, core.MakeRequestWithContext. run_monad.
  rewrite Hnet, Hcode. simpl. unfold core.ReadBody. rewrite Hbody.
  destruct (json.Unmarshal autobrr.IRCStatuses_into body) as [allStatus | ?];
    [reflexivity |].
  destruct (json.Unmarshal autobrr.IRCStatus_into body) as [singleStatus | ?];
    [| reflexivity].
  destruct (autobrr.unhealthy_enabled singleStatus); reflexivity.
Qed.

Context {Collection : Type} (IsActive : Collection → bool).
Context (Collection_into : json.value → option Collection).

Lemma GetCollections_decodes :
  net e (collections_request url apiKey) = inl resp →
  result (maintainerr.GetCollections IsActive Collection_into url apiKey) e w
  = match json.Unmarshal (json.slice_into Collection_into) body with
    | inl collections => (List.filter IsActive collections, None)
    | inr _ =>
        match json.Unmarshal Collection_into body with
        | inl singleCollection =>
            (if IsActive singleCollection then [singleCollection] else [], None)
        | inr err =>
            ([], Some (ErrMaintainerr "get_collections"
                         (Some (errorString ("failed to parse response: "
                                             ++ json.Error err))) 0))
        end
    end.
Proof.
  intros Hnet. unfold collections_request in Hnet.
  unfold result, maintainerr.GetCollections.
  rewrite (empty_false _ Hurl), (empty_false _ Hkey).
  unfold core.MakeRequestWithContext. run_monad.
  rewrite Hnet, Hcode. simpl. unfold core.ReadBody. rewrite Hbody.
  destruct (json.Unmarshal (json.slice_into Collection_into) body) as [cs | ?];
    [reflexivity |].
  destruct (json.Unmarshal Collection_into body) as [c | ?]; [| reflexivity].
  simpl. destruct (IsActive c) eqn:Hc; simpl; [rewrite Hc |]; reflexivity.
Qed.
End lenient.

(** C5.  A sub-status body that was fetched with success is first decoded
    as a JSON array; only when that fails, as a single object; and a parse
    error is declared only when both fail.  A decoded array is filtered to
    exactly its elements that are unhealthy and enabled; a decoded single
    object that is unhealthy and enabled gives the one-element list of that
    object (any other single object gives the empty list).  The collections
    of maintainerr are decoded in the same two stages, and filtered to the
    active ones. *)
Theorem C5_lenient_decoding (e : Env) (w : World) (url apiKey body : string)
    (resp : http.Response) {Collection : Type} (IsActive : Collection → bool)
    (Collection_into : json.value → option Collection) :
  url ≠ EmptyString → apiKey ≠ EmptyString →
  http.StatusCode resp = http.StatusOK → http.Body resp = inl body →
  (cached w (url ++ "_irc") = None →
   net e (irc_request url apiKey) = inl resp →
   let r := result (autobrr.GetIRCStatus url apiKey) e w in
   match json.Unmarshal autobrr.IRCStatuses_into body with
   | inl allStatus =>
       r = (List.filter (λ s, negb (Healthy s) && Enabled s) allStatus, None)
   | inr _ =>
       match json.Unmarshal autobrr.IRCStatus_into body with
       | inl singleStatus =>
           r = (if negb (Healthy singleStatus) && Enabled singleStatus
                then [singleStatus] else [], None)
       | inr _ =>
           r.2 = Some (errorString ("failed to decode response: " ++ body))
       end
   end)
  ∧ (net e (collections_request url apiKey) = inl resp →
     let r := result (maintainerr.GetCollections IsActive Collection_into
                        url apiKey) e w in
     match json.Unmarshal (json.slice_into Collection_into) body with
     | inl collections => r = (List.filter IsActive collections, None)
     | inr _ =>
         match json.Unmarshal Collection_into body with
         | inl singleCollection =>
             r = (if IsActive singleCollection then [singleCollection] else [],
                  None)
         | inr err =>
             r.2 = Some (ErrMaintainerr "get_collections"
                           (Some (errorString ("failed to parse response: "
                                               ++ json.Error err))) 0)
         end
     end).
Proof.
  intros Hurl Hkey Hcode Hbody. split.
  - intros Hmiss Hnet r. subst r.
    rewrite (GetIRCStatus_decodes e w url apiKey body resp) by done.
    destruct (json.Unmarshal autobrr.IRCStatuses_into body); [reflexivity |].
    destruct (json.Unmarshal autobrr.IRCStatus_into body); reflexivity.
  - intros Hnet r. subst r.
    rewrite (GetCollections_decodes e w url apiKey body resp) by done.
    destruct (json.Unmarshal (json.slice_into Collection_into) body);
      [reflexivity |].
    destruct (json.Unmarshal Collection_into body); reflexivity.
Qed.

(** C5 at the scenario of the specification: an array of two sub-status
    objects of which one is unhealthy and enabled, and that object alone. *)
Lemma C5_witness :
  let url := "http://x:7474" in
  let one := q "{'name':'b','healthy':false,'enabled':true}" in
  let two := q "[{'name':'a','healthy':true,'enabled':true}," ++ one ++ "]" in
  let b := {| Name := "b"; Healthy := false; Enabled := true |} in
  let run body :=
    result (autobrr.GetIRCStatus url "abc")
      (env_of (upstream [(url ++ "/api/irc", answer 200 body)]) true) world0 in
  let flag v := match v with json.Bool x => Some x | _ => None end in
  let collections body :=
    result (maintainerr.GetCollections id flag url "abc")
      (env_of (upstream [(url ++ "/api/collections", answer 200 body)]) true)
      world0 in
  url ≠ EmptyString ∧ "abc" ≠ EmptyString
  ∧ cached world0 (url ++ "_irc") = None
  ∧ run two = ([b], None) ∧ run one = ([b], None)
  ∧ collections "[true,false,true]" = ([true; true], None)
  ∧ collections "true" = ([true], None).
Proof.
  intros url one two b run flag collections.
  assert (Hurl : url ≠ EmptyString) by discriminate.
  assert (Hkey : "abc" ≠ EmptyString) by discriminate.
  split; [exact Hurl |]. split; [exact Hkey |]. split; [reflexivity |].
  split; [| split; [| split]].
  - exact (proj1 (C5_lenient_decoding
                    (env_of (upstream [(url ++ "/api/irc", answer 200 two)]) true)
                    world0 url "abc" two (response 200 two) id flag
                    Hurl Hkey eq_refl eq_refl) eq_refl eq_refl).
  - exact (proj1 (C5_lenient_decoding
                    (env_of (upstream [(url ++ "/api/irc", answer 200 one)]) true)
                    world0 url "abc" one (response 200 one) id flag
                    Hurl Hkey eq_refl eq_refl) eq_refl eq_refl).
  - exact (proj2 (C5_lenient_decoding
                    (env_of (upstream [(url ++ "/api/collections",
                                        answer 200 "[true,false,true]")]) true)
                    world0 url "abc" "[true,false,true]"
                    (response 200 "[true,false,true]") id flag
                    Hurl Hkey eq_refl eq_refl) eq_refl).
  - exact (proj2 (C5_lenient_decoding
                    (env_of (upstream [(url ++ "/api/collections",
                                        answer 200 "true")]) true)
                    world0 url "abc" "true" (response 200 "true") id flag
                    Hurl Hkey eq_refl eq_refl) eq_refl).
Defined.

(** ** Cache writes after a call that failed *)

(** C6, the code at a failing input.  The upstream answers the update
    lookup of autobrr with HTTP 500: CheckUpdate reports no error, writes
    false under the update key for two hours, and the next call within that
    time is answered from the cache.  The upstream answers the status
    lookup of maintainerr with HTTP 500 and a JSON body: getVersion writes
    the empty version it decoded for an hour. *)
Theorem C6_cache_written_after_http_500 :
  let url := "http://x:7474" in
  let e := env_of (upstream
                     [(url ++ "/api/updates/latest", answer 500 "Internal Server Error");
                      (url ++ "/api/app/status", answer 500 (q "{'error':'boom'}"))])
             true in
  let w1 := after (autobrr.CheckUpdate url "abc") e world0 in
  let w2 := after (maintainerr.getVersion url) e world0 in
  result (autobrr.CheckUpdate url "abc") e world0 = (false, None)
  ∧ cache_sets w1 = [(url ++ "_update", "false", 2 * Hour)]
  ∧ cached w1 (url ++ "_update") = Some "false"
  ∧ autobrr.CheckUpdate url "abc" e w1 = (false, None, w1)
  ∧ result (maintainerr.getVersion url) e world0 = (EmptyString, None)
  ∧ cache_sets w2 = [(url, EmptyString, Hour)].
Proof. vm_compute. repeat split. Qed.

(** ** A fetch that reports an error writes nothing *)

Ltac no_write_cases :=
  repeat match goal with
         | |- context [match ?x with _ => _ end] =>
             destruct x; simpl; try done
         end.

Lemma GetVersion_error e w url apiKey :
  (result (autobrr.GetVersion url apiKey) e w).2 ≠ None →
  no_write (autobrr.GetVersion url apiKey) e w.
Proof.
  unfold no_write, result, after, autobrr.GetVersion.
  rewrite !bind_run, GetVersionFromCache_run. simpl.
  destruct (negb _); [done |].
  unfold core.MakeRequestWithContext. rewrite !bind_run. simpl.
  no_write_cases.
Qed.

Lemma GetSystemStatus_error e w url apiKey :
  (result (prowlarr.GetSystemStatus url apiKey) e w).2 ≠ None →
  no_write (prowlarr.GetSystemStatus url apiKey) e w.
Proof.
  unfold no_write, result, after, prowlarr.GetSystemStatus.
  destruct (strings.empty url); [done |].
  rewrite !bind_run, GetVersionFromCache_run. simpl.
  destruct (negb _); [done |].
  unfold prowlarr.makeRequest. rewrite !bind_run. simpl.
  no_write_cases.
Qed.

Lemma CheckUpdate_error e w url apiKey :
  (result (autobrr.CheckUpdate url apiKey) e w).2 ≠ None →
  no_write (autobrr.CheckUpdate url apiKey) e w.
Proof.
  unfold no_write, result, after, autobrr.CheckUpdate, autobrr.GetUpdateFromCache.
  rewrite !bind_run, GetVersionFromCache_run. simpl.
  destruct (negb _); [done |].
  unfold core.MakeRequestWithContext. rewrite !bind_run. simpl.
  no_write_cases.
Qed.

Lemma getVersion_error e w url :
  (result (maintainerr.getVersion url) e w).2 ≠ None →
  no_write (maintainerr.getVersion url) e w.
Proof.
  unfold no_write, result, after, maintainerr.getVersion.
  rewrite !bind_run, GetVersionFromCache_run. simpl.
  destruct (negb _); [done |].
  unfold core.MakeRequestWithContext. rewrite !bind_run. simpl.
  no_write_cases.
Qed.

Lemma GetIRCStatus_error e w url apiKey :
  (result (autobrr.GetIRCStatus url apiKey) e w).2 ≠ None →
  no_write (autobrr.GetIRCStatus url apiKey) e w.
Proof.
  unfold no_write, result, after, autobrr.GetIRCStatus,
    autobrr.GetIRCStatusFromCache.
  destruct (_ || _); [done |].
  rewrite !bind_run, GetVersionFromCache_run. simpl.
  match goal with
  | |- context [match ?x with Some _ => _ | None => _ end] => destruct x
  end; [done |].
  unfold core.MakeRequestWithContext. rewrite !bind_run. simpl.
  no_write_cases.
Qed.

(** X1.  A fetch that returns an error has written nothing to the cache:
    GetVersion, CheckUpdate and GetIRCStatus of autobrr, getVersion of
    maintainerr and GetSystemStatus of prowlarr leave the cache and the
    list of cache writes as they found them when their error is not nil. *)
Theorem X1_error_writes_nothing (e : Env) (w : World) (url apiKey : string) :
  ((result (autobrr.GetVersion url apiKey) e w).2 ≠ None →
   no_write (autobrr.GetVersion url apiKey) e w)
  ∧ ((result (autobrr.CheckUpdate url apiKey) e w).2 ≠ None →
     no_write (autobrr.CheckUpdate url apiKey) e w)
  ∧ ((result (autobrr.GetIRCStatus url apiKey) e w).2 ≠ None →
     no_write (autobrr.GetIRCStatus url apiKey) e w)
  ∧ ((result (maintainerr.getVersion url) e w).2 ≠ None →
     no_write (maintainerr.getVersion url) e w)
  ∧ ((result (prowlarr.GetSystemStatus url apiKey) e w).2 ≠ None →
     no_write (prowlarr.GetSystemStatus url apiKey) e w).
Proof.
  split; [apply GetVersion_error |].
  split; [apply CheckUpdate_error |].
  split; [apply GetIRCStatus_error |].
  split; [apply getVersion_error | apply GetSystemStatus_error].
Qed.

(** X1 at an upstream that refuses every connection. *)
Lemma X1_witness :
  let url := "http://x:7474" in
  let e := env_of (upstream []) true in
  no_write (autobrr.GetVersion url "abc") e world0
  ∧ no_write (autobrr.CheckUpdate url "abc") e world0
  ∧ no_write (autobrr.GetIRCStatus url "abc") e world0
  ∧ no_write (maintainerr.getVersion url) e world0
  ∧ no_write (prowlarr.GetSystemStatus url "abc") e world0.
Proof.
  intros url e.
  destruct (X1_error_writes_nothing e world0 url "abc")
    as (H1 & H2 & H3 & H4 & H5).
  split; [apply H1; discriminate |].
  split; [apply H2; discriminate |].
  split; [apply H3; discriminate |].
  split; [apply H4; discriminate | apply H5; discriminate].
Defined.

(** ** Cache hits *)

Section cache_hit.
Context (e : Env) (w : World) (url apiKey v : string).
Hypothesis Hv : v ≠ EmptyString.

Lemma GetVersion_hit :
  cached w url = Some v →
  autobrr.GetVersion url apiKey e w = (v, None, w).
Proof.
  intros Hc. unfold autobrr.GetVersion.
  unfold mbind at 1, M_bind at 1. rewrite GetVersionFromCache_run, Hc. simpl.
  by rewrite (empty_false _ Hv).
Qed.

Lemma GetSystemStatus_hit :
  url ≠ EmptyString → cached w url = Some v →
  prowlarr.GetSystemStatus url apiKey e w = (v, None, w).
Proof.
  intros Hurl Hc. unfold prowlarr.GetSystemStatus. rewrite (empty_false _ Hurl).
  unfold mbind at 1, M_bind at 1. rewrite GetVersionFromCache_run, Hc. simpl.
  by rewrite (empty_false _ Hv).
Qed.

Lemma CheckUpdate_hit :
  cached w (url ++ "_update") = Some v →
  autobrr.CheckUpdate url apiKey e w = (String.eqb v "true", None, w).
Proof.
  intros Hc. unfold autobrr.CheckUpdate, autobrr.GetUpdateFromCache.
  unfold mbind at 1, M_bind at 1. rewrite GetVersionFromCache_run, Hc. simpl.
  by rewrite (empty_false _ Hv).
Qed.

Lemma GetIRCStatus_hit status :
  url ≠ EmptyString → apiKey ≠ EmptyString →
  cached w (url ++ "_irc") = Some v →
  json.Unmarshal autobrr.IRCStatuses_into v = inl status →
  autobrr.GetIRCStatus url apiKey e w = (status, None, w).
Proof.
  intros Hurl Hkey Hc Hdec. unfold autobrr.GetIRCStatus.
  rewrite (empty_false _ Hurl), (empty_false _ Hkey). simpl.
  unfold mbind at 1, M_bind at 1. unfold autobrr.GetIRCStatusFromCache.
  rewrite GetVersionFromCache_run, Hc. simpl.
  by rewrite (empty_false _ Hv), Hdec.
Qed.
End cache_hit.




(** ** What a computation leaves as it is *)

Lemma footprint_refl ks w : footprint ks w w.
Proof. by repeat split. Qed.

Lemma footprint_trans ks w1 w2 w3 :
  footprint ks w1 w2 → footprint ks w2 w3 → footprint ks w1 w3.
Proof.
  intros (Hn & Ht & Hc) (Hn' & Ht' & Hc'). repeat split; try congruence.
  intros k Hk. rewrite Hc', Hc; auto.
Qed.

Lemma quiet_bind {A B} ks (c : M A) (k : A → M B) :
  quiet ks c → (∀ a, quiet ks (k a)) → quiet ks (c ≫= k).
Proof. intros Hc Hk e w. eapply footprint_trans; [apply Hc | apply Hk]. Qed.

Lemma quiet_ret {A} ks (a : A) : quiet ks (mret a).
Proof. intros e w. apply footprint_refl. Qed.

Lemma quiet_request ks d u k h : quiet ks (core.MakeRequestWithContext d u k h).
Proof. intros e w. by repeat split. Qed.

Lemma quiet_makeRequest ks d u k : quiet ks (prowlarr.makeRequest d u k).
Proof. intros e w. by repeat split. Qed.

Lemma quiet_CacheVersion ks k v ttl :
  k ∈ ks → quiet ks (core.CacheVersion k v ttl).
Proof.
  intros Hk e w. unfold core.CacheVersion, core.cache_set. run_monad.
  destruct (cache_refuses e k); simpl; repeat split; auto.
  intros k' Hk'. unfold set_cache, log_set; simpl.
  rewrite lookup_insert_ne; auto. intros ->. auto.
Qed.

Lemma quiet_GetVersionFromCache ks k : quiet ks (core.GetVersionFromCache k).
Proof. intros e w. apply footprint_refl. Qed.

Lemma quiet_send ks c v : quiet ks (send c v).
Proof. intros e w. by repeat split. Qed.

Lemma quiet_receive ks c : quiet ks (receive c).
Proof. intros e w. by repeat split. Qed.

Lemma quiet_make_chan ks : quiet ks make_chan.
Proof. intros e w. by repeat split. Qed.

Ltac quiet_step :=
  match goal with
  | |- quiet _ (mbind _ _) => apply quiet_bind; [| intros ?]
  | |- quiet _ (mret _) => apply quiet_ret
  | |- quiet _ (core.MakeRequestWithContext _ _ _ _) => apply quiet_request
  | |- quiet _ (prowlarr.makeRequest _ _ _) => apply quiet_makeRequest
  | |- quiet _ (core.GetVersionFromCache _) => apply quiet_GetVersionFromCache
  | |- quiet _ (core.CacheVersion _ _ _) => apply quiet_CacheVersion; assumption
  | |- quiet _ (send _ _) => apply quiet_send
  | |- quiet _ (receive _) => apply quiet_receive
  | |- quiet _ (match ?x with _ => _ end) => destruct x
  | |- quiet _ (if ?x then _ else _) => destruct x
  end.

Lemma quiet_GetReleaseStats ks url apiKey :
  quiet ks (autobrr.GetReleaseStats url apiKey).
Proof. unfold autobrr.GetReleaseStats. repeat quiet_step. Qed.

Lemma quiet_GetVersion ks url apiKey :
  url ∈ ks → quiet ks (autobrr.GetVersion url apiKey).
Proof. intros. unfold autobrr.GetVersion. repeat quiet_step. Qed.

Lemma quiet_CheckUpdate ks url apiKey :
  url ++ "_update" ∈ ks → quiet ks (autobrr.CheckUpdate url apiKey).
Proof.
  intros. unfold autobrr.CheckUpdate, autobrr.GetUpdateFromCache, autobrr.CacheUpdate.
  repeat quiet_step.
Qed.

Lemma quiet_GetIRCStatus ks url apiKey :
  url ++ "_irc" ∈ ks → quiet ks (autobrr.GetIRCStatus url apiKey).
Proof.
  intros. unfold autobrr.GetIRCStatus, autobrr.GetIRCStatusFromCache,
    autobrr.CacheIRCStatus.
  repeat quiet_step.
Qed.

Lemma quiet_version_task ks url apiKey c :
  url ∈ ks → quiet ks (autobrr.version_task url apiKey c).
Proof.
  intros. unfold autobrr.version_task.
  apply quiet_bind; [by apply quiet_GetVersion | intros ?]. repeat quiet_step.
Qed.

Lemma quiet_update_task ks url apiKey c :
  url ++ "_update" ∈ ks → quiet ks (autobrr.update_task url apiKey c).
Proof.
  intros. unfold autobrr.update_task.
  apply quiet_bind; [by apply quiet_CheckUpdate | intros ?]. repeat quiet_step.
Qed.

Lemma quiet_getVersion ks url :
  url ∈ ks → quiet ks (maintainerr.getVersion url).
Proof. intros. unfold maintainerr.getVersion. repeat quiet_step. Qed.

Lemma quiet_maintainerr_version_task ks url c c' :
  url ∈ ks → quiet ks (maintainerr.version_task url c c').
Proof.
  intros. unfold maintainerr.version_task.
  apply quiet_bind; [by apply quiet_getVersion | intros ?]. repeat quiet_step.
Qed.

(** ** Keys *)

Lemma app_ne_self (s t : string) : t ≠ EmptyString → s ++ t ≠ s.
Proof.
  intros Ht. induction s as [| a s IH]; simpl; [done |].
  intros H. injection H. exact IH.
Qed.

Lemma app_inj_r (s t1 t2 : string) : s ++ t1 = s ++ t2 → t1 = t2.
Proof. induction s; simpl; intros H; [done | injection H; auto]. Qed.

Lemma irc_key_fresh url : url ++ "_irc" ∉ [url; url ++ "_update"].
Proof.
  rewrite !elem_of_cons, elem_of_nil. intros [H | [H | []]].
  - by apply app_ne_self in H.
  - by apply app_inj_r in H.
Qed.

Lemma near_refl ks w : near ks w w.
Proof. by split. Qed.

Lemma near_footprint ks ks' w0 w1 w2 :
  near ks w0 w1 → footprint ks' w1 w2 → ks' ⊆ ks → near ks w0 w2.
Proof.
  intros (Hn & Hc) (Hn' & _ & Hc') Hsub. split; [congruence |].
  intros k Hk. rewrite Hc', Hc; auto.
Qed.

Lemma near_mono ks ks' w0 w : near ks w0 w → ks ⊆ ks' → near ks' w0 w.
Proof. intros (Hn & Hc) Hsub. split; [done |]. intros k Hk. apply Hc. auto. Qed.

Lemma near_cached ks w0 w k : near ks w0 w → k ∉ ks → cached w k = cached w0 k.
Proof. intros (Hn & Hc) Hk. unfold cached. by rewrite Hn, Hc. Qed.

(** *** What the sub-checks of autobrr answer depends on the state only
    through the cache entry they read *)

Lemma GetVersion_result e w w' url apiKey :
  cached w' url = cached w url →
  result (autobrr.GetVersion url apiKey) e w'
  = result (autobrr.GetVersion url apiKey) e w.
Proof.
  intros Hc. unfold result, autobrr.GetVersion.
  rewrite !bind_run, !GetVersionFromCache_run, Hc. simpl.
  destruct (negb (strings.empty (default EmptyString (cached w url))));
    [reflexivity |].
  rewrite !bind_run.
  unfold core.MakeRequestWithContext. run_monad.
  repeat match goal with
         | |- context [match ?x with _ => _ end] => destruct x; try reflexivity
         end.
Qed.

Lemma CheckUpdate_result e w w' url apiKey :
  cached w' (url ++ "_update") = cached w (url ++ "_update") →
  result (autobrr.CheckUpdate url apiKey) e w'
  = result (autobrr.CheckUpdate url apiKey) e w.
Proof.
  intros Hc. unfold result, autobrr.CheckUpdate, autobrr.GetUpdateFromCache.
  rewrite !bind_run, !GetVersionFromCache_run, Hc. simpl.
  destruct (negb (strings.empty (default EmptyString (cached w (url ++ "_update")))));
    [reflexivity |].
  rewrite !bind_run.
  unfold core.MakeRequestWithContext. run_monad.
  repeat match goal with
         | |- context [match ?x with _ => _ end] => destruct x; try reflexivity
         end.
Qed.

Lemma GetIRCStatus_result e w w' url apiKey :
  cached w' (url ++ "_irc") = cached w (url ++ "_irc") →
  result (autobrr.GetIRCStatus url apiKey) e w'
  = result (autobrr.GetIRCStatus url apiKey) e w.
Proof.
  intros Hc. unfold result, autobrr.GetIRCStatus, autobrr.GetIRCStatusFromCache.
  destruct (strings.empty url || strings.empty apiKey); [reflexivity |].
  rewrite !bind_run, !GetVersionFromCache_run, Hc. simpl.
  match goal with
  | |- context [match ?x with Some _ => _ | None => _ end] => destruct x
  end; [reflexivity |].
  rewrite !bind_run.
  unfold core.MakeRequestWithContext. run_monad.
  repeat match goal with
         | |- context [match ?x with _ => _ end] => destruct x; try reflexivity
         end.
Qed.

Lemma GetReleaseStats_result e w w' url apiKey :
  result (autobrr.GetReleaseStats url apiKey) e w'
  = result (autobrr.GetReleaseStats url apiKey) e w.
Proof.
  unfold result, autobrr.GetReleaseStats.
  destruct (strings.empty url || strings.empty apiKey); [reflexivity |].
  unfold core.MakeRequestWithContext. run_monad.
  repeat match goal with
         | |- context [match ?x with _ => _ end] => destruct x; try reflexivity
         end.
Qed.

(** *** Waiting for a goroutine *)

Lemma hoare_await_version e w0 url apiKey c t :
  task_chan t = c →
  hoare e (near [] w0)
    (await version_in_time t (autobrr.version_task url apiKey c)
       (v ← receive c; mret (autobrr.received_string v)) (mret EmptyString))
    (λ a w, a = version_seen e w0 url apiKey ∧ near [url] w0 w).
Proof.
  intros Hc w Hw. unfold await, version_seen.
  destruct (version_in_time e).
  - rewrite !bind_run. set (w1 := (finished t e w).2).
    assert (Hw1 : near [] w0 w1) by exact Hw.
    unfold autobrr.version_task. rewrite !bind_run.
    rewrite <- (GetVersion_result (in_task e) w0 w1 url apiKey)
      by (apply (near_cached [] w0 w1); [done | keys]).
    unfold result.
    pose proof (quiet_GetVersion [url] url apiKey ltac:(keys) (in_task e) w1) as Hq.
    destruct (autobrr.GetVersion url apiKey (in_task e) w1) as [[v err] w2].
    simpl in *.
    assert (Hw2 : near [url] w0 w2).
    { eapply near_footprint; [eapply near_mono; [exact Hw1 | keys] | exact Hq | done]. }
    destruct err; run_monad; unfold set_chans; simpl;
      rewrite lookup_insert_eq; simpl; (split; [reflexivity | exact Hw2]).
  - split; [reflexivity |]. eapply near_mono; [exact Hw | keys].
Qed.

Lemma hoare_await_update e w0 url apiKey c t :
  task_chan t = c →
  hoare e (near [url] w0)
    (await update_in_time t (autobrr.update_task url apiKey c)
       (u ← receive c; mret (autobrr.received_bool u)) (mret false))
    (λ a w, a = update_seen e w0 url apiKey ∧ near [url; url ++ "_update"] w0 w).
Proof.
  intros Hc w Hw. unfold await, update_seen.
  destruct (update_in_time e).
  - rewrite !bind_run. set (w1 := (finished t e w).2).
    assert (Hw1 : near [url] w0 w1) by exact Hw.
    unfold autobrr.update_task. rewrite !bind_run.
    rewrite <- (CheckUpdate_result (in_task e) w0 w1 url apiKey).
    2:{ apply (near_cached [url] w0 w1); [done |].
        rewrite list_elem_of_singleton. by apply app_ne_self. }
    unfold result.
    pose proof (quiet_CheckUpdate [url ++ "_update"] url apiKey ltac:(keys)
                  (in_task e) w1) as Hq.
    destruct (autobrr.CheckUpdate url apiKey (in_task e) w1) as [[u err] w2].
    simpl in *.
    assert (Hw2 : near [url; url ++ "_update"] w0 w2).
    { eapply near_footprint;
        [eapply near_mono; [exact Hw1 | keys] | exact Hq | keys]. }
    destruct err; run_monad; unfold set_chans; simpl;
      rewrite lookup_insert_eq; simpl; (split; [reflexivity | exact Hw2]).
  - split; [reflexivity |]. eapply near_mono; [exact Hw | keys].
Qed.

(** A step whose result is known. *)
Lemma hoare_step {A B} e (P P' : World → Prop) (c : M A) (a : A)
    (k : A → M B) Q :
  (∀ w, P w → (c e w).1 = a ∧ P' (c e w).2) →
  hoare e P' (k a) Q →
  hoare e P (c ≫= k) Q.
Proof.
  intros Hc Hk w Hw. rewrite bind_run. destruct (Hc w Hw) as [-> Hw'].
  apply Hk, Hw'.
Qed.

(** A step whose result does not matter. *)
Lemma hoare_pass {A B} e (P P' : World → Prop) (c : M A) (k : A → M B) Q :
  (∀ w, P w → P' (c e w).2) →
  (∀ a, hoare e P' (k a) Q) →
  hoare e P (c ≫= k) Q.
Proof. intros Hc Hk w Hw. rewrite bind_run. apply Hk, Hc, Hw. Qed.

Lemma hoare_request_near {B} e ks w0 d u k h
    (f : http.Response + error → M B) Q :
  hoare e (near ks w0)
    (f (net e {| rq_url := u; rq_key := k; rq_headers := h; rq_deadline := d |})) Q →
  hoare e (near ks w0) (core.MakeRequestWithContext d u k h ≫= f) Q.
Proof. intros H w Hw. rewrite bind_run. apply H, Hw. Qed.

(** *** CheckHealth of autobrr after a healthy liveness probe *)

Lemma reports_healthy_test body :
  reports_healthy body →
  negb (String.eqb (strings.Trim (strings.TrimSpace body) dquote) "healthy")
  && negb (String.eqb (strings.Trim (strings.TrimSpace body) dquote) "OK") = false.
Proof. intros [-> | ->]; reflexivity. Qed.

Lemma autobrr_healthy e w url apiKey resp body :
  url ≠ EmptyString → apiKey ≠ EmptyString →
  net e (autobrr.liveness_request url apiKey) = inl resp →
  http.StatusCode resp = http.StatusOK →
  http.Body resp = inl body →
  reports_healthy body →
  (result (autobrr.CheckHealth url apiKey) e w).1
  = autobrr_verdict e w url apiKey (http.ResponseTime resp).
Proof.
  intros Hurl Hkey Hnet Hcode Hbody Hhealthy.
  unfold autobrr.liveness_request in Hnet.
  cut (hoare e (near [] w) (autobrr.CheckHealth url apiKey)
         (λ r _, r.1 = autobrr_verdict e w url apiKey (http.ResponseTime resp))).
  { intros H. apply (H w), near_refl. }
  unfold autobrr.CheckHealth.
  eapply hoare_step with (P' := near [] w) (a := now w);
    [intros w1 Hw1; split; [apply Hw1 | exact Hw1] |].
  rewrite (empty_false _ Hurl), (empty_false _ Hkey). simpl.
  eapply hoare_pass with (P' := near [] w); [intros w1 Hw1; exact Hw1 | intros versionChan].
  eapply hoare_pass with (P' := near [] w); [intros w1 Hw1; exact Hw1 | intros _].
  eapply hoare_pass with (P' := near [] w); [intros w1 Hw1; exact Hw1 | intros updateChan].
  eapply hoare_pass with (P' := near [] w); [intros w1 Hw1; exact Hw1 | intros _].
  eapply hoare_step with (P' := near [] w)
                         (a := result (autobrr.GetReleaseStats url apiKey) e w).
  { intros w1 Hw1. split; [apply GetReleaseStats_result |].
    eapply near_footprint; [exact Hw1 | apply quiet_GetReleaseStats | done]. }
  apply hoare_request_near. rewrite Hnet, Hcode. simpl. unfold core.ReadBody. rewrite Hbody.
  rewrite (reports_healthy_test _ Hhealthy).
  eapply hoare_step; [intros w1 Hw1; by apply (hoare_await_version e w url apiKey versionChan) |].
  eapply hoare_step; [intros w1 Hw1; by apply (hoare_await_update e w url apiKey updateChan) |].
  eapply hoare_step with (P' := λ _, True)
                         (a := result (autobrr.GetIRCStatus url apiKey) e w).
  { intros w1 Hw1. split; [| done]. apply GetIRCStatus_result.
    apply (near_cached _ _ _ _ Hw1), irc_key_fresh. }
  unfold autobrr_verdict. simpl.
  destruct (result (autobrr.GetIRCStatus url apiKey) e w).2.
  - by apply hoare_ret.
  - match goal with |- context [if negb ?b then _ else _] => destruct (negb b) end;
      by apply hoare_ret.
Qed.

(** *** The goroutines a check of autobrr leaves running *)

Section running.
Context (e : Env) (T : list Task → Prop).
Hypothesis T_filter : ∀ l (f : Task → Prop) `{∀ t, Decision (f t)},
  T l → T (filter f l).

Lemma tasks_quiet {A} ks (c : M A) :
  quiet ks c → hoare e (λ w, T (tasks w)) c (λ _ w, T (tasks w)).
Proof. intros Hq w Hw. destruct (Hq e w) as (_ & -> & _). exact Hw. Qed.

Lemma tasks_go t :
  (∀ l, T l → T (l ++ [t])%list) →
  hoare e (λ w, T (tasks w)) (go t) (λ _ w, T (tasks w)).
Proof. intros Ht w Hw. apply Ht, Hw. Qed.

Lemma tasks_await {A} ks in_time t (body : M unit) (received timeout : M A) :
  quiet ks body → quiet ks received → quiet ks timeout →
  hoare e (λ w, T (tasks w)) (await in_time t body received timeout)
    (λ _ w, T (tasks w)).
Proof.
  intros Hb Hr Ht w Hw. unfold await. destruct (in_time e).
  - rewrite !bind_run.
    destruct (Hr e (body (in_task e) (finished t e w).2).2) as (_ & -> & _).
    destruct (Hb (in_task e) (finished t e w).2) as (_ & -> & _).
    simpl. apply T_filter, Hw.
  - destruct (Ht e w) as (_ & -> & _). exact Hw.
Qed.
End running.

Lemma quiet_gets {A} ks (f : World → A) : quiet ks (gets f).
Proof. intros e w. apply footprint_refl. Qed.

Lemma autobrr_tasks e w url apiKey :
  Forall (autobrr_task url apiKey) (tasks w) →
  Forall (autobrr_task url apiKey) (tasks (after (autobrr.CheckHealth url apiKey) e w)).
Proof.
  cut (hoare e (λ w, Forall (autobrr_task url apiKey) (tasks w))
         (autobrr.CheckHealth url apiKey)
         (λ _ w, Forall (autobrr_task url apiKey) (tasks w))).
  { intros H. apply H. }
  assert (Hfilter : ∀ l (f : Task → Prop) `{∀ t, Decision (f t)},
             Forall (autobrr_task url apiKey) l →
             Forall (autobrr_task url apiKey) (filter f l)).
  { intros l f ? Hl. rewrite Forall_forall in Hl |- *. intros t Ht.
    apply list_elem_of_filter in Ht as [_ Ht]. by apply Hl. }
  assert (Hgo : ∀ t, autobrr_task url apiKey t →
            hoare e (λ w, Forall (autobrr_task url apiKey) (tasks w)) (go t)
              (λ _ w, Forall (autobrr_task url apiKey) (tasks w))).
  { intros t Ht. apply tasks_go. intros l Hl. apply Forall_app. split; [done |].
    by apply Forall_singleton. }
  unfold autobrr.CheckHealth.
  eapply hoare_bind; [apply (tasks_quiet e _ []), quiet_gets | intros startTime].
  destruct (strings.empty url || strings.empty apiKey); [by apply hoare_ret |].
  eapply hoare_bind; [apply (tasks_quiet e _ []), quiet_make_chan | intros versionChan].
  eapply hoare_bind; [apply Hgo; exists versionChan; by left | intros ?].
  eapply hoare_bind; [apply (tasks_quiet e _ []), quiet_make_chan | intros updateChan].
  eapply hoare_bind; [apply Hgo; exists updateChan; by right | intros ?].
  eapply hoare_bind; [apply (tasks_quiet e _ []), quiet_GetReleaseStats | intros r].
  eapply hoare_bind; [apply (tasks_quiet e _ []), quiet_request | intros resp].
  destruct resp as [resp | err]; [| by apply hoare_ret].
  destruct (negb _); [by apply hoare_ret |].
  destruct (core.ReadBody resp); [| by apply hoare_ret].
  destruct (_ && _); [by apply hoare_ret |].
  eapply hoare_bind.
  { apply (tasks_await e _ Hfilter [url]).
    - apply quiet_version_task. keys.
    - apply quiet_bind; [apply quiet_receive | intros; apply quiet_ret].
    - apply quiet_ret. }
  intros version.
  eapply hoare_bind.
  { apply (tasks_await e _ Hfilter [url ++ "_update"]).
    - apply quiet_update_task. keys.
    - apply quiet_bind; [apply quiet_receive | intros; apply quiet_ret].
    - apply quiet_ret. }
  intros hasUpdate.
  eapply hoare_bind;
    [apply (tasks_quiet e _ [url ++ "_irc"]), quiet_GetIRCStatus; keys | intros i].
  destruct (i.2); [by apply hoare_ret |].
  destruct (negb _); by apply hoare_ret.
Qed.

(** Goroutines that write no cache entry but those of the keys [ks], run
    to their end, leave the clock and every other entry as they are. *)
Lemma drain_near e w ks (mine : Task → Prop) :
  (∀ t e' w', mine t → footprint ks w' (after (run_task t) e' w')) →
  Forall mine (tasks w) →
  near ks w (after drain e w).
Proof.
  intros Hrun. unfold after, drain. simpl.
  assert (Hstart : near ks w (set_tasks (λ _, []) w))
    by (split; [reflexivity | intros; reflexivity]).
  revert Hstart. generalize (set_tasks (λ _, []) w).
  induction (tasks w) as [| t l IH]; intros w' Hw' Hl; [exact Hw' |].
  simpl. apply Forall_cons in Hl as [Ht Hl]. apply IH; [| exact Hl].
  eapply near_footprint; [exact Hw' | by apply Hrun | done].
Qed.

Lemma run_autobrr_task url apiKey t e w :
  autobrr_task url apiKey t →
  footprint [url; url ++ "_update"] w (after (run_task t) e w).
Proof.
  intros [c [-> | ->]]; simpl.
  - apply quiet_version_task. keys.
  - apply quiet_update_task. keys.
Qed.

Lemma run_maintainerr_task url t e w :
  maintainerr_task url t → footprint [url] w (after (run_task t) e w).
Proof. intros (c & c' & ->). simpl. apply quiet_maintainerr_version_task. keys. Qed.

Lemma maintainerr_tasks e w url apiKey :
  Forall (maintainerr_task url) (tasks w) →
  Forall (maintainerr_task url) (tasks (after (maintainerr.CheckHealth url apiKey) e w)).
Proof.
  cut (hoare e (λ w, Forall (maintainerr_task url) (tasks w))
         (maintainerr.CheckHealth url apiKey)
         (λ _ w, Forall (maintainerr_task url) (tasks w))).
  { intros H. apply H. }
  assert (Hfilter : ∀ l (f : Task → Prop) `{∀ t, Decision (f t)},
             Forall (maintainerr_task url) l →
             Forall (maintainerr_task url) (filter f l)).
  { intros l f ? Hl. rewrite Forall_forall in Hl |- *. intros t Ht.
    apply list_elem_of_filter in Ht as [_ Ht]. by apply Hl. }
  unfold maintainerr.CheckHealth.
  eapply hoare_bind; [apply (tasks_quiet e _ []), quiet_gets | intros startTime].
  destruct (strings.empty url); [by apply hoare_ret |].
  eapply hoare_bind; [apply (tasks_quiet e _ []), quiet_make_chan | intros versionChan].
  eapply hoare_bind; [apply (tasks_quiet e _ []), quiet_make_chan | intros errChan].
  eapply hoare_bind.
  { apply tasks_go. intros l Hl. apply Forall_app. split; [done |].
    apply Forall_singleton. by exists versionChan, errChan. }
  intros ?.
  eapply hoare_bind; [apply (tasks_quiet e _ []), quiet_request | intros resp].
  destruct resp as [resp | err]; [| by apply hoare_ret].
  destruct (core.ReadBody resp); [| by apply hoare_ret].
  destruct (400 <=? _)%Z; [by apply hoare_ret |].
  destruct (json.Unmarshal _ _); [| by apply hoare_ret].
  eapply hoare_bind.
  { apply (tasks_await e _ Hfilter [url]).
    - apply quiet_maintainerr_version_task. keys.
    - repeat (apply quiet_bind; [apply quiet_receive | intros ?]). apply quiet_ret.
    - apply quiet_ret. }
  intros v. by apply hoare_ret.
Qed.

(** *** A lookup that is late *)

Lemma hoare_late {A} e P in_time t (body : M unit) (received : M A) (d : A) :
  in_time e = false →
  hoare e P (await in_time t body received (mret d)) (λ a _, a = d).
Proof. intros Hlate w _. unfold await. by rewrite Hlate. Qed.

Lemma hoare_pure {A} e (φ : Prop) (c : M A) Q :
  (φ → hoare e (λ _, True) c Q) → hoare e (λ _, φ) c Q.
Proof. intros H w Hφ. by apply H. Qed.

Ltac lookup_extras :=
  simpl; unfold autobrr.base_extras;
  repeat first [ rewrite lookup_insert_eq
               | rewrite lookup_insert_ne by discriminate
               | rewrite lookup_empty ];
  reflexivity.

Lemma autobrr_late_version e w url apiKey :
  version_in_time e = false →
  let r := (result (autobrr.CheckHealth url apiKey) e w).1 in
  Extras r !! "version" = None ∨ Extras r !! "version" = Some (XString EmptyString).
Proof.
  intros Hlate.
  apply (hoare_run e _ (λ r, Extras r.1 !! "version" = None
                             ∨ Extras r.1 !! "version" = Some (XString EmptyString))).
  unfold autobrr.CheckHealth. skip_step.
  case_step; [apply hoare_ret; intros; left; lookup_extras |].
  do 6 skip_step.
  case_step; [| apply hoare_ret; intros; left; lookup_extras].
  case_step; [apply hoare_ret; intros; left; lookup_extras |].
  case_step; [| apply hoare_ret; intros; left; lookup_extras].
  case_step; [apply hoare_ret; intros; left; lookup_extras |].
  eapply hoare_bind; [by apply hoare_late | intros version; cbv beta; apply hoare_pure; intros ->].
  eapply hoare_bind; [apply hoare_any | intros hasUpdate].
  eapply hoare_bind; [apply hoare_any | intros i].
  repeat case_step; apply hoare_ret; intros; right; lookup_extras.
Qed.

Lemma autobrr_late_update e w url apiKey :
  update_in_time e = false →
  let r := (result (autobrr.CheckHealth url apiKey) e w).1 in
  Extras r !! "updateAvailable" = None
  ∨ Extras r !! "updateAvailable" = Some (XBool false).
Proof.
  intros Hlate.
  apply (hoare_run e _ (λ r, Extras r.1 !! "updateAvailable" = None
                             ∨ Extras r.1 !! "updateAvailable" = Some (XBool false))).
  unfold autobrr.CheckHealth. skip_step.
  case_step; [apply hoare_ret; intros; left; lookup_extras |].
  do 6 skip_step.
  case_step; [| apply hoare_ret; intros; left; lookup_extras].
  case_step; [apply hoare_ret; intros; left; lookup_extras |].
  case_step; [| apply hoare_ret; intros; left; lookup_extras].
  case_step; [apply hoare_ret; intros; left; lookup_extras |].
  eapply hoare_bind; [apply hoare_any | intros version].
  eapply hoare_bind; [by apply hoare_late | intros hasUpdate; cbv beta; apply hoare_pure; intros ->].
  eapply hoare_bind; [apply hoare_any | intros i].
  repeat case_step; apply hoare_ret; intros; right; lookup_extras.
Qed.

Lemma maintainerr_late_version e w url apiKey :
  version_in_time e = false →
  let r := (result (maintainerr.CheckHealth url apiKey) e w).1 in
  Extras r !! "version" = None ∨ Extras r !! "version" = Some (XString EmptyString).
Proof.
  intros Hlate.
  apply (hoare_run e _ (λ r, Extras r.1 !! "version" = None
                             ∨ Extras r.1 !! "version" = Some (XString EmptyString))).
  unfold maintainerr.CheckHealth. skip_step.
  case_step; [apply hoare_ret; intros; left; lookup_extras |].
  do 4 skip_step.
  case_step; [| apply hoare_ret; intros; left; lookup_extras].
  case_step; [| apply hoare_ret; intros; left; lookup_extras].
  case_step; [apply hoare_ret; intros; left; lookup_extras |].
  case_step; [| apply hoare_ret; intros; left; lookup_extras].
  eapply hoare_bind;
    [by apply hoare_late | intros v; cbv beta; apply hoare_pure; intros ->].
  apply hoare_ret. intros _ _. right. lookup_extras.
Qed.

(** *** CheckHealth of maintainerr after a primary probe that succeeded *)

Lemma getVersion_result e w w' url :
  cached w' url = cached w url →
  result (maintainerr.getVersion url) e w'
  = result (maintainerr.getVersion url) e w.
Proof.
  intros Hc. unfold result, maintainerr.getVersion.
  rewrite !bind_run, !GetVersionFromCache_run, Hc. simpl.
  destruct (negb (strings.empty (default EmptyString (cached w url))));
    [reflexivity |].
  rewrite !bind_run.
  unfold core.MakeRequestWithContext. run_monad.
  repeat match goal with
         | |- context [match ?x with _ => _ end] => destruct x; try reflexivity
         end.
Qed.

(** The select of maintainerr when the lookup is in time and fails: the
    version received is empty and the error is that of the lookup. *)
Lemma await_version_failed e w url c c' err :
  c ≠ c' → version_in_time e = true →
  (result (maintainerr.getVersion url) (in_task e)
     (set_tasks (filter (λ t', task_chan t' ≠ c)) w)).2 = Some err →
  (await version_in_time (MaintainerrVersionTask url c c')
     (maintainerr.version_task url c c')
     (version ← receive c; versionErr ← receive c';
      mret (maintainerr.received_string version,
            maintainerr.received_error versionErr))
     (mret (EmptyString, Some (errorString "version check timed out")))
     e w).1 = (EmptyString, Some err).
Proof.
  intros Hne Htime Hget. unfold await. rewrite Htime.
  rewrite !bind_run. unfold finished. simpl task_chan.
  change ((modify (set_tasks (filter (λ t', task_chan t' ≠ c))) e w).2)
    with (set_tasks (filter (λ t', task_chan t' ≠ c)) w).
  unfold maintainerr.version_task. rewrite ?bind_run.
  unfold result in Hget.
  destruct (maintainerr.getVersion url (in_task e) _) as [[v' err'] w2].
  simpl in Hget. subst err'. simpl.
  unfold set_chans; simpl.
  rewrite lookup_insert_eq.
  rewrite lookup_delete_ne by done. rewrite lookup_insert_ne by done.
  rewrite lookup_insert_eq. done.
Qed.

Section maintainerr_primary.
Context (e : Env) (w : World) (url apiKey body : string) (resp : http.Response).
Context (statusResponse : maintainerr.StatusResponse).
Hypothesis Hurl : url ≠ EmptyString.
Hypothesis Hnet : net e (maintainerr.status_request url) = inl resp.
Hypothesis Hbody : http.Body resp = inl body.
Hypothesis Hcode : http.StatusCode resp < 400.
Hypothesis Hdecode :
  json.Unmarshal maintainerr.StatusResponse_into body = inl statusResponse.

Lemma maintainerr_online :
  let r := (result (maintainerr.CheckHealth url apiKey) e w).1 in
  Status r = "online" ∧ Message r = "Healthy".
Proof.
  apply (hoare_run e _ (λ r, Status r.1 = "online" ∧ Message r.1 = "Healthy")).
  unfold maintainerr.CheckHealth. skip_step. rewrite (empty_false _ Hurl).
  do 3 skip_step. apply hoare_request_bind.
  unfold maintainerr.status_request in Hnet. rewrite Hnet.
  unfold core.ReadBody. rewrite Hbody.
  rewrite (proj2 (Z.leb_gt _ _) Hcode).
  rewrite Hdecode. skip_step. by apply hoare_ret.
Qed.

Lemma maintainerr_late :
  version_in_time e = false →
  let r := (result (maintainerr.CheckHealth url apiKey) e w).1 in
  Extras r !! "versionError" = Some (XString "version check timed out")
  ∧ Extras r !! "version" = Some (XString EmptyString).
Proof.
  intros Hlate.
  apply (hoare_run e _
           (λ r, Extras r.1 !! "versionError" = Some (XString "version check timed out")
                 ∧ Extras r.1 !! "version" = Some (XString EmptyString))).
  unfold maintainerr.CheckHealth. skip_step. rewrite (empty_false _ Hurl).
  do 3 skip_step. apply hoare_request_bind.
  unfold maintainerr.status_request in Hnet. rewrite Hnet.
  unfold core.ReadBody. rewrite Hbody.
  rewrite (proj2 (Z.leb_gt _ _) Hcode).
  rewrite Hdecode.
  eapply hoare_bind; [by apply hoare_late | intros v; cbv beta; apply hoare_pure; intros ->].
  apply hoare_ret. intros _ _. split; lookup_extras.
Qed.

Lemma maintainerr_lookup_failed err :
  version_in_time e = true →
  (result (maintainerr.getVersion url) (in_task e) w).2 = Some err →
  let r := (result (maintainerr.CheckHealth url apiKey) e w).1 in
  Extras r !! "versionError" = Some (XString (Error err))
  ∧ Extras r !! "version" = Some (XString EmptyString).
Proof.
  intros Htime Hfail r. subst r.
  set (c := next_chan w). set (c' := S c).
  set (w3 := log_call (maintainerr.status_request url)
               (set_tasks (λ l, (l ++ [MaintainerrVersionTask url c c'])%list)
                  (fresh_chan (fresh_chan w)))).
  assert (Hne : c ≠ c') by (unfold c'; lia).
  assert (Hget : (result (maintainerr.getVersion url) (in_task e)
                    (set_tasks (filter (λ t', task_chan t' ≠ c)) w3)).2
                 = Some err).
  { rewrite (getVersion_result _ w); [exact Hfail | reflexivity]. }
  pose proof (await_version_failed e w3 url c c' err Hne Htime Hget) as Hr.
  unfold maintainerr.status_request in Hnet.
  unfold result, maintainerr.CheckHealth.
  rewrite bind_run. simpl. rewrite (empty_false _ Hurl).
  unfold make_chan, go, core.MakeRequestWithContext.
  rewrite !bind_run. simpl.
  rewrite Hnet. unfold core.ReadBody. rewrite Hbody.
  rewrite (proj2 (Z.leb_gt _ _) Hcode). rewrite Hdecode.
  rewrite bind_run.
  fold c c'. fold (maintainerr.status_request url). fold w3.
  rewrite Hr. simpl.
  split; [apply lookup_insert_eq |].
  rewrite lookup_insert_ne by discriminate. apply lookup_insert_eq.
Qed.
End maintainerr_primary.

(** ** A sub-check that fails while the primary probe succeeds *)

Section degraded.
Context (e : Env) (w : World) (url apiKey body : string) (resp : http.Response).
Hypothesis Hurl : url ≠ EmptyString.
Hypothesis Hkey : apiKey ≠ EmptyString.
Hypothesis Hnet : net e (autobrr.liveness_request url apiKey) = inl resp.
Hypothesis Hcode : http.StatusCode resp = http.StatusOK.
Hypothesis Hbody : http.Body resp = inl body.
Hypothesis Hhealthy : reports_healthy body.

Lemma autobrr_irc_failed ircStatus err :
  result (autobrr.GetIRCStatus url apiKey) e w = (ircStatus, Some err) →
  let r := (result (autobrr.CheckHealth url apiKey) e w).1 in
  Status r = "warning"
  ∧ Message r = "Autobrr is running but IRC status check failed: " ++ Error err
  ∧ Extras r !! "details" = Some (autobrr.irc_details ircStatus).
Proof.
  intros Hirc r. subst r.
  rewrite (autobrr_healthy e w url apiKey resp body) by done.
  unfold autobrr_verdict. rewrite Hirc. simpl.
  split; [reflexivity |]. split; [reflexivity |]. apply lookup_insert_eq.
Qed.

Lemma version_seen_failed :
  version_in_time e = false
  ∨ (result (autobrr.GetVersion url apiKey) (in_task e) w).2 ≠ None →
  version_seen e w url apiKey = EmptyString.
Proof.
  unfold version_seen. intros [-> | Hfail]; [reflexivity |].
  destruct (version_in_time e); [| reflexivity].
  by destruct ((result (autobrr.GetVersion url apiKey) (in_task e) w).2).
Qed.

Lemma autobrr_version_failed ircStatus :
  result (autobrr.GetIRCStatus url apiKey) e w = (ircStatus, None) →
  ircStatus = [] ∨ existsb Healthy ircStatus = true →
  version_in_time e = false
  ∨ (result (autobrr.GetVersion url apiKey) (in_task e) w).2 ≠ None →
  let r := (result (autobrr.CheckHealth url apiKey) e w).1 in
  Status r = "online" ∧ Message r = "Autobrr is running"
  ∧ Extras r !! "version" = Some (XString EmptyString).
Proof.
  intros Hirc Hfine Hversion r. subst r.
  rewrite (autobrr_healthy e w url apiKey resp body) by done.
  unfold autobrr_verdict. rewrite Hirc, (version_seen_failed Hversion). simpl.
  replace (negb (if Nat.eqb (length ircStatus) 0 then true
                 else existsb Healthy ircStatus)) with false.
  - split; [reflexivity |]. split; [reflexivity |]. lookup_extras.
  - destruct Hfine as [-> | ->]; [reflexivity |].
    by destruct (Nat.eqb (length ircStatus) 0).
Qed.
End degraded.

(** C7, the claim as stated fails.  The liveness probe of autobrr succeeds
    and the IRC check finds nothing unhealthy, while the version lookup
    fails (HTTP 500): the status is online, not warning.  And when the IRC
    check fails instead (connection refused), the reason is the end of the
    message; no extra holds it.  For maintainerr, the probe succeeds and
    the connection of the version lookup is refused: the reason is attached
    as the extra versionError, and the status is online, not warning. *)
Lemma C7_counterexample :
  let url := "http://x:7474" in
  let e1 := env_of (upstream
                      [(url ++ "/api/healthz/liveness", answer 200 "healthy");
                       (url ++ "/api/irc", answer 200 "[]");
                       (url ++ "/api/config", answer 500 EmptyString)]) true in
  let e2 := env_of (upstream
                      [(url ++ "/api/healthz/liveness", answer 200 "healthy")]) true in
  let e3 := env_with_tasks
              (upstream [(url ++ "/api/app/status",
                          answer 200 (q "{'version':'2.0'}"))])
              (upstream []) in
  let r1 := (result (autobrr.CheckHealth url "abc") e1 world0).1 in
  let r2 := (result (autobrr.CheckHealth url "abc") e2 world0).1 in
  let r3 := (result (maintainerr.CheckHealth url "abc") e3 world0).1 in
  (result (autobrr.GetVersion url "abc") e1 world0).2
  = Some (errorString "unexpected status code: 500")
  ∧ Status r1 = "online"
  ∧ Status r2 = "warning"
  ∧ Message r2 = "Autobrr is running but IRC status check failed: request failed: dial tcp: connection refused"
  ∧ dom (Extras r2) = {["version"; "responseTime"; "updateAvailable"; "stats"; "details"]}
  ∧ Extras r2 !! "details" = Some (autobrr.irc_details autobrr.unreachable_IRC)
  ∧ Status r3 = "online"
  ∧ Message r3 = "Healthy"
  ∧ Extras r3 !! "versionError"
    = Some (XString "maintainerr get_version: failed to make request: dial tcp: connection refused").
Proof. vm_compute. repeat split. Qed.

(** C7, amended.  While the primary probe succeeds:
    - a failed IRC sub-status check of autobrr gives the status warning; the
      failure reason is the end of the message, and the extra details holds
      the list the failed check returned;
    - a version lookup of autobrr that is late or fails does not change the
      status (online when the IRC check finds nothing unhealthy); the extra
      version is empty;
    - a version lookup of maintainerr that is late leaves the status online
      and the message Healthy; the reason is attached as the extra
      versionError;
    - a version lookup of maintainerr that is in time and fails, whatever
      its error, leaves the status online and the message Healthy as well;
      the text of its error is attached as the extra versionError, and the
      extra version is empty. *)
Theorem C7_degraded_auxiliary (e : Env) (w : World) (url apiKey body : string)
    (resp : http.Response) (statusResponse : maintainerr.StatusResponse) :
  url ≠ EmptyString → http.Body resp = inl body →
  (apiKey ≠ EmptyString →
   net e (autobrr.liveness_request url apiKey) = inl resp →
   http.StatusCode resp = http.StatusOK → reports_healthy body →
   let r := (result (autobrr.CheckHealth url apiKey) e w).1 in
   (∀ ircStatus err,
      result (autobrr.GetIRCStatus url apiKey) e w = (ircStatus, Some err) →
      Status r = "warning"
      ∧ Message r = "Autobrr is running but IRC status check failed: " ++ Error err
      ∧ Extras r !! "details" = Some (autobrr.irc_details ircStatus))
   ∧ (∀ ircStatus,
        result (autobrr.GetIRCStatus url apiKey) e w = (ircStatus, None) →
        ircStatus = [] ∨ existsb Healthy ircStatus = true →
        version_in_time e = false
        ∨ (result (autobrr.GetVersion url apiKey) (in_task e) w).2 ≠ None →
        Status r = "online" ∧ Message r = "Autobrr is running"
        ∧ Extras r !! "version" = Some (XString EmptyString)))
  ∧ (net e (maintainerr.status_request url) = inl resp →
     http.StatusCode resp < 400 →
     json.Unmarshal maintainerr.StatusResponse_into body = inl statusResponse →
     version_in_time e = false →
     let r := (result (maintainerr.CheckHealth url apiKey) e w).1 in
     Status r = "online" ∧ Message r = "Healthy"
     ∧ Extras r !! "versionError" = Some (XString "version check timed out"))
  ∧ (∀ err,
       net e (maintainerr.status_request url) = inl resp →
       http.StatusCode resp < 400 →
       json.Unmarshal maintainerr.StatusResponse_into body = inl statusResponse →
       version_in_time e = true →
       (result (maintainerr.getVersion url) (in_task e) w).2 = Some err →
       let r := (result (maintainerr.CheckHealth url apiKey) e w).1 in
       Status r = "online" ∧ Message r = "Healthy"
       ∧ Extras r !! "versionError" = Some (XString (Error err))
       ∧ Extras r !! "version" = Some (XString EmptyString)).
Proof.
  intros Hurl Hbody. split; [| split].
  - intros Hkey Hnet Hcode Hhealthy r. split.
    + intros ircStatus err Hirc.
      by apply (autobrr_irc_failed e w url apiKey body resp).
    + intros ircStatus Hirc Hfine Hversion.
      by apply (autobrr_version_failed e w url apiKey body resp) with ircStatus.
  - intros Hnet Hcode Hdecode Hlate r.
    destruct (maintainerr_online e w url apiKey body resp statusResponse)
      as [Hs Hm]; try done.
    destruct (maintainerr_late e w url apiKey body resp statusResponse)
      as [He _]; done.
  - intros err Hnet Hcode Hdecode Htime Hfail r.
    destruct (maintainerr_online e w url apiKey body resp statusResponse)
      as [Hs Hm]; try done.
    destruct (maintainerr_lookup_failed e w url apiKey body resp statusResponse
                Hurl Hnet Hbody Hcode Hdecode err Htime Hfail) as [He Hv].
    done.
Qed.

(** C7 at four upstreams: autobrr with an IRC endpoint that refuses the
    connection, autobrr with a version endpoint that answers HTTP 500,
    maintainerr with a version lookup that is late, and maintainerr with a
    version lookup whose connection is refused. *)
Lemma C7_witness :
  let url := "http://x:7474" in
  let live := (url ++ "/api/healthz/liveness", answer 200 "healthy") in
  let e1 := env_of (upstream [live]) true in
  let e2 := env_of (upstream [live; (url ++ "/api/irc", answer 200 "[]");
                              (url ++ "/api/config", answer 500 EmptyString)]) true in
  let status := q "{'version':'2.0','updateAvailable':true}" in
  let e3 := env_of (upstream [(url ++ "/api/app/status", answer 200 status)]) false in
  let e4 := env_with_tasks (upstream [(url ++ "/api/app/status", answer 200 status)])
              (upstream []) in
  let r1 := (result (autobrr.CheckHealth url "abc") e1 world0).1 in
  let r2 := (result (autobrr.CheckHealth url "abc") e2 world0).1 in
  let r3 := (result (maintainerr.CheckHealth url "abc") e3 world0).1 in
  let r4 := (result (maintainerr.CheckHealth url "abc") e4 world0).1 in
  (url ≠ EmptyString ∧ "abc" ≠ EmptyString ∧ reports_healthy "healthy")
  ∧ (Status r1 = "warning"
     ∧ Message r1 = "Autobrr is running but IRC status check failed: "
                    ++ "request failed: dial tcp: connection refused"
     ∧ Extras r1 !! "details" = Some (autobrr.irc_details autobrr.unreachable_IRC))
  ∧ (Status r2 = "online" ∧ Message r2 = "Autobrr is running"
     ∧ Extras r2 !! "version" = Some (XString EmptyString))
  ∧ (Status r3 = "online" ∧ Message r3 = "Healthy"
     ∧ Extras r3 !! "versionError" = Some (XString "version check timed out"))
  ∧ (Status r4 = "online" ∧ Message r4 = "Healthy"
     ∧ Extras r4 !! "versionError"
       = Some (XString ("maintainerr get_version: failed to make request: "
                        ++ "dial tcp: connection refused"))
     ∧ Extras r4 !! "version" = Some (XString EmptyString)).
Proof.
  intros url live e1 e2 status e3 e4 r1 r2 r3 r4.
  assert (Hurl : url ≠ EmptyString) by discriminate.
  assert (Hkey : "abc" ≠ EmptyString) by discriminate.
  assert (Hhealthy : reports_healthy "healthy") by (left; reflexivity).
  pose (zero := {| maintainerr.Version := EmptyString;
                    maintainerr.UpdateAvailable := false |}).
  pose (two := {| maintainerr.Version := "2.0";
                   maintainerr.UpdateAvailable := true |}).
  destruct (C7_degraded_auxiliary e1 world0 url "abc" "healthy"
              (response 200 "healthy") zero Hurl eq_refl) as (H1 & _ & _).
  destruct (H1 Hkey eq_refl eq_refl Hhealthy) as [Hirc _].
  destruct (C7_degraded_auxiliary e2 world0 url "abc" "healthy"
              (response 200 "healthy") zero Hurl eq_refl) as (H2 & _ & _).
  destruct (H2 Hkey eq_refl eq_refl Hhealthy) as [_ Hversion].
  destruct (C7_degraded_auxiliary e3 world0 url "abc" status
              (response 200 status) two Hurl eq_refl) as (_ & H3 & _).
  destruct (C7_degraded_auxiliary e4 world0 url "abc" status
              (response 200 status) two Hurl eq_refl) as (_ & _ & H4).
  split; [by repeat split |].
  split; [| split; [| split]].
  - exact (Hirc autobrr.unreachable_IRC
             (Errorf "request failed: " (errorString "dial tcp: connection refused"))
             eq_refl).
  - apply (Hversion [] eq_refl); [by left | right; discriminate].
  - apply H3; reflexivity.
  - exact (H4 (ErrMaintainerr "get_version"
                 (Some (Errorf "failed to make request: "
                          (errorString "dial tcp: connection refused"))) 0)
             eq_refl eq_refl eq_refl eq_refl eq_refl).
Defined.

(** ** A lookup that answers after the check has returned *)

(** C9.  When a version or update lookup does not answer within the two
    seconds the check waits, the result is assembled without it: the extra
    version, where the result has one, is empty (the extra updateAvailable
    of autobrr false).  The goroutine is still running when the check
    returns; when the goroutines the check started have run to their end,
    in whatever environment, the clock and the cache are as the check left
    them, but for the entries of the version (and, for autobrr, of the
    update flag) of this URL.  The result, a value in the hands of the
    caller, is no part of the state they act on. *)
Theorem C9_late_value_discarded (e e' : Env) (w : World) (url apiKey : string) :
  tasks w = [] →
  (let r := (result (autobrr.CheckHealth url apiKey) e w).1 in
   let w1 := after (autobrr.CheckHealth url apiKey) e w in
   (version_in_time e = false →
    Extras r !! "version" = None
    ∨ Extras r !! "version" = Some (XString EmptyString))
   ∧ (update_in_time e = false →
      Extras r !! "updateAvailable" = None
      ∨ Extras r !! "updateAvailable" = Some (XBool false))
   ∧ near [url; url ++ "_update"] w1 (after drain e' w1))
  ∧ (let r := (result (maintainerr.CheckHealth url apiKey) e w).1 in
     let w1 := after (maintainerr.CheckHealth url apiKey) e w in
     (version_in_time e = false →
      Extras r !! "version" = None
      ∨ Extras r !! "version" = Some (XString EmptyString))
     ∧ near [url] w1 (after drain e' w1)).
Proof.
  intros Htasks. split.
  - intros r w1. split; [| split].
    + intros Hlate. by apply autobrr_late_version.
    + intros Hlate. by apply autobrr_late_update.
    + apply drain_near with (autobrr_task url apiKey).
      * intros. by apply run_autobrr_task with apiKey.
      * apply autobrr_tasks. rewrite Htasks. constructor.
  - intros r w1. split.
    + intros Hlate. by apply maintainerr_late_version.
    + apply drain_near with (maintainerr_task url).
      * intros. by apply run_maintainerr_task.
      * apply maintainerr_tasks. rewrite Htasks. constructor.
Qed.

(** C9 at the upstream of the scenario, with the lookups late: the result
    carries no version; the late goroutines then leave what they fetched in
    their channels, which nobody reads, and in the cache, from which the
    next lookup is answered without a request. *)
Lemma C9_witness :
  let url := "http://x:7474" in
  let e := env_of autobrr_upstream false in
  let r := (result (autobrr.CheckHealth url "abc") e world0).1 in
  let w1 := after (autobrr.CheckHealth url "abc") e world0 in
  let w2 := after drain e w1 in
  let status := q "{'version':'2.0','updateAvailable':true}" in
  let e' := env_of (upstream [(url ++ "/api/app/status", answer 200 status)]) false in
  let r' := (result (maintainerr.CheckHealth url "abc") e' world0).1 in
  let w1' := after (maintainerr.CheckHealth url "abc") e' world0 in
  let w2' := after drain e' w1' in
  tasks world0 = []
  ∧ ((Extras r !! "version" = None
      ∨ Extras r !! "version" = Some (XString EmptyString))
     ∧ (Extras r !! "updateAvailable" = None
        ∨ Extras r !! "updateAvailable" = Some (XBool false))
     ∧ near [url; url ++ "_update"] w1 w2)
  ∧ ((Extras r' !! "version" = None
      ∨ Extras r' !! "version" = Some (XString EmptyString))
     ∧ near [url] w1' w2')
  ∧ (length (tasks w1) = 2%nat ∧ cached w1 url = None
     ∧ cached w2 url = Some "1.2.3"
     ∧ chans w2 !! 0%nat = Some (CString "1.2.3")
     ∧ autobrr.GetVersion url "abc" e w2 = ("1.2.3", None, w2))
  ∧ (length (tasks w1') = 1%nat ∧ cached w2' url = Some "2.0"
     ∧ chans w2' !! 0%nat = Some (CString "2.0")).
Proof.
  intros url e r w1 w2 status e' r' w1' w2'.
  destruct (C9_late_value_discarded e e world0 url "abc" eq_refl)
    as ((Hversion & Hupdate & Hnear) & _).
  destruct (C9_late_value_discarded e' e' world0 url "abc" eq_refl)
    as (_ & (Hversion' & Hnear')).
  split; [reflexivity |].
  split; [exact (conj (Hversion eq_refl) (conj (Hupdate eq_refl) Hnear)) |].
  split; [exact (conj (Hversion' eq_refl) Hnear') |].
  vm_compute. repeat split.
Defined.

(** ** Endpoints *)

Lemma TrimRight_slashes_only n : strings.TrimRight (slashes n) "/" = EmptyString.
Proof. induction n as [| n IH]; [reflexivity |]. simpl. by rewrite IH. Qed.

Lemma TrimRight_app_slashes s n :
  strings.TrimRight (s ++ slashes n) "/" = strings.TrimRight s "/".
Proof.
  induction s as [| a s IH]; simpl; [apply TrimRight_slashes_only |].
  by rewrite IH.
Qed.

Lemma TrimRight_no_trailing s c t :
  strings.TrimRight s c ≠ t ++ String c EmptyString.
Proof.
  revert t. induction s as [| a s IH]; intros t; simpl.
  - by destruct t.
  - destruct (strings.empty (strings.TrimRight s c)) eqn:He.
    + destruct (Ascii.eqb_spec a c) as [-> | Hne]; simpl.
      * by destruct t.
      * destruct (strings.TrimRight s c); [| done].
        destruct t as [| b t]; simpl; [intros H; injection H as H; done |].
        intros H. injection H as _ H. by destruct t.
    + simpl. destruct t as [| b t]; simpl.
      * intros H. injection H as _ H. by rewrite H in He.
      * intros H. injection H as _ H. by apply IH in H.
Qed.

(** X2.  Trailing slashes of the base URL do not change an endpoint:
    getEndpoint of autobrr and GetHealthEndpoint of maintainerr and of
    prowlarr answer for a base URL followed by any number of slashes what
    they answer for the base URL, and every endpoint is its path appended
    to one base that does not end in a slash. *)
Theorem X2_endpoint_trailing_slashes (base path : string) (n : nat) :
  autobrr.getEndpoint (base ++ slashes n) path = autobrr.getEndpoint base path
  ∧ maintainerr.GetHealthEndpoint (base ++ slashes n)
    = maintainerr.GetHealthEndpoint base
  ∧ prowlarr.GetHealthEndpoint (base ++ slashes n)
    = prowlarr.GetHealthEndpoint base
  ∧ ∃ b, autobrr.getEndpoint base path = b ++ path
         ∧ maintainerr.GetHealthEndpoint base = b ++ "/api/app/status"
         ∧ prowlarr.GetHealthEndpoint base = b ++ "/api/v1/health"
         ∧ ∀ t, b ≠ t ++ "/".
Proof.
  unfold autobrr.getEndpoint, maintainerr.GetHealthEndpoint,
    prowlarr.GetHealthEndpoint.
  rewrite !TrimRight_app_slashes. repeat split.
  exists (strings.TrimRight base "/"). repeat split.
  apply TrimRight_no_trailing.
Qed.

(** ** The statuses a checker can answer *)

Ltac known_status :=
  repeat first
    [ apply hoare_ret; intros; simpl; keys
    | eapply hoare_bind; [apply hoare_any | intros ?]
    | case_step
    | unfold await ].

Lemma map_status_known statusVal :
  general.map_status statusVal ∈ ["online"; "offline"; "warning"; "unknown"].
Proof.
  unfold general.map_status.
  repeat match goal with
         | |- context [if ?b then _ else _] => destruct b
         end; keys.
Qed.

(** X3.  The statuses a checker can answer, whatever the URL, the key, the
    cache and the upstream: CheckHealth of autobrr answers pending, offline,
    error, warning or online; CheckHealth of maintainerr answers error,
    offline or online; the generic CheckHealth answers error, offline,
    online, warning or unknown. *)
Theorem X3_status_vocabulary (e : Env) (w : World) (url apiKey : string) :
  Status (result (autobrr.CheckHealth url apiKey) e w).1
    ∈ ["pending"; "offline"; "error"; "warning"; "online"]
  ∧ Status (result (maintainerr.CheckHealth url apiKey) e w).1
    ∈ ["error"; "offline"; "online"]
  ∧ Status (result (general.CheckHealth url apiKey) e w).1
    ∈ ["error"; "offline"; "online"; "warning"; "unknown"].
Proof.
  split; [| split].
  - apply (hoare_run e _ (λ r, Status r.1 ∈ _)).
    unfold autobrr.CheckHealth. known_status.
  - apply (hoare_run e _ (λ r, Status r.1 ∈ _)).
    unfold maintainerr.CheckHealth. known_status.
  - apply (hoare_run e _ (λ r, Status r.1 ∈ _)).
    unfold general.CheckHealth.
    eapply hoare_bind; [apply hoare_any | intros ?].
    case_step; [apply hoare_ret; intros; simpl; keys |].
    eapply hoare_bind; [apply hoare_any | intros resp].
    destruct resp as [resp | err]; [| apply hoare_ret; intros; simpl; keys].
    destruct (http.Body resp) as [body | err]; [| apply hoare_ret; intros; simpl; keys].
    destruct (json.Unmarshal json.map_into body) as [m | ?].
    + apply hoare_ret. intros _ _. simpl.
      destruct (general.as_string (json.index m "status")) as [statusVal |];
        [| keys].
      pose proof (map_status_known statusVal) as H.
      repeat (apply elem_of_cons in H as [-> | H]; [keys |]).
      by apply elem_of_nil in H.
    + case_step; apply hoare_ret; intros; simpl; keys.
Qed.

(** ** The second result *)

(** X4.  The second result, the HTTP status for the caller.  CheckHealth
    of maintainerr returns 400 for an empty URL and 200 otherwise.  The
    generic CheckHealth returns 400 for an empty URL, 503 when the
    connection fails, 500 when the body cannot be read, and otherwise the
    status code the upstream answered with. *)
Theorem X4_status_for_caller (e : Env) (w : World) (url apiKey : string) :
  (result (maintainerr.CheckHealth url apiKey) e w).2
  = (if strings.empty url then http.StatusBadRequest else http.StatusOK)
  ∧ (result (general.CheckHealth url apiKey) e w).2
    = (if strings.empty url then http.StatusBadRequest
       else match net e (general.probe_request url apiKey) with
            | inr _ => http.StatusServiceUnavailable
            | inl resp =>
                match http.Body resp with
                | inr _ => http.StatusInternalServerError
                | inl _ => http.StatusCode resp
                end
            end).
Proof.
  split.
  - apply (hoare_run e _ (λ r, r.2 = _)).
    unfold maintainerr.CheckHealth.
    eapply hoare_bind; [apply hoare_any | intros ?].
    destruct (strings.empty url); always.
  - apply (hoare_run e _ (λ r, r.2 = _)).
    unfold general.CheckHealth.
    eapply hoare_bind; [apply hoare_any | intros ?].
    destruct (strings.empty url); [by apply hoare_ret |].
    apply hoare_request_bind. unfold general.probe_request.
    destruct (net e _) as [resp | err]; [| by apply hoare_ret].
    destruct (http.Body resp); always.
Qed.

(** ** What the generic checker does to the state *)

(** X5.  The generic CheckHealth sends exactly one request and changes
    nothing else: the state after it is the state before with the probe
    added to the requests sent, and the state before when the URL is empty.
    The cache is neither read nor written. *)
Theorem X5_general_one_request (e : Env) (w : World) (url apiKey : string) :
  after (general.CheckHealth url apiKey) e w
  = (if strings.empty url then w
     else log_call (general.probe_request url apiKey) w).
Proof.
  unfold after, general.CheckHealth. rewrite bind_run. simpl.
  destruct (strings.empty url); [reflexivity |].
  unfold core.MakeRequestWithContext. rewrite !bind_run. simpl.
  unfold general.probe_request.
  destruct (net e _) as [resp | err]; [| reflexivity].
  destruct (http.Body resp) as [body | err]; [| reflexivity].
  destruct (json.Unmarshal json.map_into body); [reflexivity |].
  destruct (strings.EqualFold _ _); reflexivity.
Qed.

(** ** What a fetch has cached is served until its time is over *)

(** An entry written now with the TTL [ttl] is read back until [ttl] seconds
    have passed. *)
Lemma cached_fresh w key v ttl d :
  cache w !! key = Some (v, now w + ttl) →
  cached (advance d w) key = if (d <? ttl)%Z then Some v else None.
Proof.
  intros Hc. unfold cached, advance. simpl. rewrite Hc.
  destruct (d <? ttl)%Z eqn:Hd.
  - apply Z.ltb_lt in Hd. rewrite (proj2 (Z.ltb_lt _ _)); [done | lia].
  - apply Z.ltb_ge in Hd. rewrite (proj2 (Z.ltb_ge _ _)); [done | lia].
Qed.

Lemma GetVersion_fetched e w url apiKey v :
  missing w url → cache_refuses e url = false →
  result (autobrr.GetVersion url apiKey) e w = (v, None) →
  let w1 := after (autobrr.GetVersion url apiKey) e w in
  cache w1 !! url = Some (v, now w1 + 2 * Hour).
Proof.
  unfold missing, result, after, autobrr.GetVersion.
  rewrite !bind_run, GetVersionFromCache_run. simpl. intros -> Hok. simpl.
  unfold core.MakeRequestWithContext. rewrite !bind_run. simpl.
  destruct (net e _) as [resp | err]; [| done].
  destruct (negb _); [done |].
  destruct (core.ReadBody resp); [| done].
  destruct (json.Unmarshal _ _) as [versionData |]; [| done].
  rewrite !bind_run. unfold core.CacheVersion, core.cache_set.
  rewrite !bind_run. simpl. rewrite Hok. simpl.
  intros [= <-]. apply lookup_insert_eq.
Qed.

Lemma CheckUpdate_fetched e w url apiKey b :
  missing w (url ++ "_update") → cache_refuses e (url ++ "_update") = false →
  result (autobrr.CheckUpdate url apiKey) e w = (b, None) →
  let w1 := after (autobrr.CheckUpdate url apiKey) e w in
  cache w1 !! (url ++ "_update")
  = Some (if b then "true" else "false", now w1 + 2 * Hour).
Proof.
  unfold missing, result, after, autobrr.CheckUpdate, autobrr.GetUpdateFromCache.
  rewrite !bind_run, GetVersionFromCache_run. simpl. intros -> Hok. simpl.
  unfold core.MakeRequestWithContext. rewrite !bind_run. simpl.
  destruct (net e _) as [resp | err]; [| done].
  rewrite !bind_run. unfold autobrr.CacheUpdate, core.CacheVersion, core.cache_set.
  rewrite !bind_run. simpl. rewrite Hok. simpl.
  intros [= <-]. apply lookup_insert_eq.
Qed.

Lemma getVersion_fetched e w url v :
  missing w url → cache_refuses e url = false →
  result (maintainerr.getVersion url) e w = (v, None) →
  let w1 := after (maintainerr.getVersion url) e w in
  cache w1 !! url = Some (v, now w1 + Hour).
Proof.
  unfold missing, result, after, maintainerr.getVersion.
  rewrite !bind_run, GetVersionFromCache_run. simpl. intros -> Hok. simpl.
  unfold core.MakeRequestWithContext. rewrite !bind_run. simpl.
  destruct (net e _) as [resp | err]; [| done].
  destruct (core.ReadBody resp); [| done].
  destruct (json.Unmarshal _ _) as [statusResponse |]; [| done].
  rewrite !bind_run. unfold core.CacheVersion, core.cache_set.
  rewrite !bind_run. simpl. rewrite Hok. simpl.
  intros [= <-]. apply lookup_insert_eq.
Qed.

Lemma GetSystemStatus_fetched e w url apiKey v :
  missing w url → cache_refuses e url = false →
  result (prowlarr.GetSystemStatus url apiKey) e w = (v, None) →
  let w1 := after (prowlarr.GetSystemStatus url apiKey) e w in
  cache w1 !! url = Some (v, now w1 + Hour).
Proof.
  unfold missing, result, after, prowlarr.GetSystemStatus.
  destruct (strings.empty url); [done |].
  rewrite !bind_run, GetVersionFromCache_run. simpl. intros -> Hok. simpl.
  unfold prowlarr.makeRequest. rewrite !bind_run. simpl.
  destruct (net e _) as [resp | err]; [| done].
  destruct (negb _); [done |].
  destruct (core.ReadBody resp); [| done].
  destruct (json.Unmarshal _ _) as [status |]; [| done].
  rewrite !bind_run. unfold core.CacheVersion, core.cache_set.
  rewrite !bind_run. simpl. rewrite Hok. simpl.
  intros [= <-]. apply lookup_insert_eq.
Qed.

(** A fetch that finds nothing cached sends one request more. *)
Lemma GetVersion_miss e w url apiKey :
  missing w url →
  calls (after (autobrr.GetVersion url apiKey) e w)
  = autobrr_request url apiKey "/api/config" (10 * Second) :: calls w.
Proof.
  unfold missing, after, autobrr.GetVersion.
  rewrite !bind_run, GetVersionFromCache_run. simpl. intros ->. simpl.
  unfold core.MakeRequestWithContext. rewrite !bind_run. simpl.
  unfold autobrr_request.
  destruct (net e _) as [resp | err]; [| done].
  destruct (negb _); [done |].
  destruct (core.ReadBody resp); [| done].
  destruct (json.Unmarshal _ _) as [versionData |]; [| done].
  rewrite !bind_run. unfold core.CacheVersion, core.cache_set.
  rewrite !bind_run. simpl. by destruct (cache_refuses e url).
Qed.

(** X6.  What autobrr fetches is served again for two hours.  After
    GetVersion has fetched a version that is not empty (nothing served from
    the cache, the cache taking the write), a call less than two hours
    later returns that version and leaves the state as it is, and a call
    two hours later or more sends the request again.  After CheckUpdate has
    fetched the flag, a call less than two hours later returns the flag and
    leaves the state as it is. *)
Theorem X6_autobrr_cached_two_hours (e e' : Env) (w : World)
    (url apiKey v : string) (b : bool) (d : Z) :
  (missing w url → cache_refuses e url = false →
   result (autobrr.GetVersion url apiKey) e w = (v, None) → v ≠ EmptyString →
   let w1 := advance d (after (autobrr.GetVersion url apiKey) e w) in
   ((d < 2 * Hour)%Z → autobrr.GetVersion url apiKey e' w1 = (v, None, w1))
   ∧ ((2 * Hour ≤ d)%Z →
      calls (after (autobrr.GetVersion url apiKey) e' w1)
      = autobrr_request url apiKey "/api/config" (10 * Second) :: calls w1))
  ∧ (missing w (url ++ "_update") → cache_refuses e (url ++ "_update") = false →
     result (autobrr.CheckUpdate url apiKey) e w = (b, None) →
     let w1 := advance d (after (autobrr.CheckUpdate url apiKey) e w) in
     (d < 2 * Hour)%Z → autobrr.CheckUpdate url apiKey e' w1 = (b, None, w1)).
Proof.
  split.
  - intros Hmiss Hok Hres Hv w1.
    pose proof (cached_fresh _ _ _ _ d (GetVersion_fetched e w url apiKey v Hmiss Hok Hres))
      as Hc.
    fold w1 in Hc. split; intros Hd.
    + apply GetVersion_hit; [done |].
      rewrite Hc. by rewrite (proj2 (Z.ltb_lt _ _) Hd).
    + apply GetVersion_miss. unfold missing.
      rewrite Hc. by rewrite (proj2 (Z.ltb_ge _ _) Hd).
  - intros Hmiss Hok Hres w1 Hd.
    pose proof (cached_fresh _ _ _ _ d (CheckUpdate_fetched e w url apiKey b Hmiss Hok Hres))
      as Hc.
    fold w1 in Hc.
    rewrite (CheckUpdate_hit e' w1 url apiKey (if b then "true" else "false")).
    + by destruct b.
    + by destruct b.
    + rewrite Hc. by rewrite (proj2 (Z.ltb_lt _ _) Hd).
Qed.

(** X7.  The version maintainerr and prowlarr fetch is served again for one
    hour: after getVersion of maintainerr, or GetSystemStatus of prowlarr,
    has fetched a version that is not empty (nothing served from the cache,
    the cache taking the write), a call less than an hour later returns
    that version and leaves the state as it is. *)
Theorem X7_version_cached_one_hour (e e' : Env) (w : World)
    (url apiKey v : string) (d : Z) :
  missing w url → cache_refuses e url = false → v ≠ EmptyString → (d < Hour)%Z →
  (result (maintainerr.getVersion url) e w = (v, None) →
   let w1 := advance d (after (maintainerr.getVersion url) e w) in
   maintainerr.getVersion url e' w1 = (v, None, w1))
  ∧ (result (prowlarr.GetSystemStatus url apiKey) e w = (v, None) →
     let w1 := advance d (after (prowlarr.GetSystemStatus url apiKey) e w) in
     prowlarr.GetSystemStatus url apiKey e' w1 = (v, None, w1)).
Proof.
  intros Hmiss Hok Hv Hd. split.
  - intros Hres w1.
    pose proof (cached_fresh _ _ _ _ d (getVersion_fetched e w url v Hmiss Hok Hres))
      as Hc.
    fold w1 in Hc. rewrite (proj2 (Z.ltb_lt _ _) Hd) in Hc.
    unfold maintainerr.getVersion.
    rewrite bind_run, GetVersionFromCache_run, Hc. simpl.
    by rewrite (empty_false _ Hv).
  - intros Hres w1.
    assert (Hurl : url ≠ EmptyString).
    { intros ->. discriminate Hres. }
    pose proof (cached_fresh _ _ _ _ d
                  (GetSystemStatus_fetched e w url apiKey v Hmiss Hok Hres)) as Hc.
    fold w1 in Hc. rewrite (proj2 (Z.ltb_lt _ _) Hd) in Hc.
    by apply GetSystemStatus_hit.
Qed.

(** X6 at the upstream of the examples: 100 seconds and two hours after the
    fetch. *)
Lemma X6_witness :
  let url := "http://x:7474" in
  let e := env_of autobrr_upstream true in
  let w1 := advance 100 (after (autobrr.GetVersion url "abc") e world0) in
  let w2 := advance 7200 (after (autobrr.GetVersion url "abc") e world0) in
  let w3 := advance 100 (after (autobrr.CheckUpdate url "abc") e world0) in
  (missing world0 url ∧ missing world0 (url ++ "_update")
   ∧ result (autobrr.GetVersion url "abc") e world0 = ("1.2.3", None)
   ∧ result (autobrr.CheckUpdate url "abc") e world0 = (false, None))
  ∧ autobrr.GetVersion url "abc" e w1 = ("1.2.3", None, w1)
  ∧ calls (after (autobrr.GetVersion url "abc") e w2)
    = autobrr_request url "abc" "/api/config" (10 * Second) :: calls w2
  ∧ autobrr.CheckUpdate url "abc" e w3 = (false, None, w3).
Proof.
  intros url e w1 w2 w3.
  destruct (X6_autobrr_cached_two_hours e e world0 url "abc" "1.2.3" false 100)
    as [Hversion Hupdate].
  destruct (X6_autobrr_cached_two_hours e e world0 url "abc" "1.2.3" false 7200)
    as [Hlate _].
  split; [by repeat split |].
  split; [apply Hversion; done |].
  split; [apply Hlate; done |].
  apply Hupdate; done.
Defined.

(** X7 one second before the hour is over. *)
Lemma X7_witness :
  let url := "http://x:6246" in
  let e1 := env_of (upstream [(url ++ "/api/app/status",
                               answer 200 (q "{'version':'2.0'}"))]) true in
  let e2 := env_of (upstream [(url ++ "/api/v1/system/status",
                               answer 200 (q "{'version':'1.9'}"))]) true in
  let w1 := advance 3599 (after (maintainerr.getVersion url) e1 world0) in
  let w2 := advance 3599 (after (prowlarr.GetSystemStatus url "abc") e2 world0) in
  (missing world0 url
   ∧ result (maintainerr.getVersion url) e1 world0 = ("2.0", None)
   ∧ result (prowlarr.GetSystemStatus url "abc") e2 world0 = ("1.9", None))
  ∧ maintainerr.getVersion url e1 w1 = ("2.0", None, w1)
  ∧ prowlarr.GetSystemStatus url "abc" e2 w2 = ("1.9", None, w2).
Proof.
  intros url e1 e2 w1 w2.
  split; [by repeat split |]. split.
  - apply (X7_version_cached_one_hour e1 e1 world0 url "abc" "2.0" 3599); done.
  - apply (X7_version_cached_one_hour e2 e2 world0 url "abc" "1.9" 3599); done.
Defined.

(** ** The IRC networks and the status of autobrr *)

Lemma no_healthy_left all :
  existsb Healthy (List.filter autobrr.unhealthy_enabled all) = false.
Proof.
  induction all as [| st all IH]; [reflexivity |]. simpl.
  destruct (autobrr.unhealthy_enabled st) eqn:Hst; [| exact IH].
  simpl. rewrite IH. unfold autobrr.unhealthy_enabled in Hst.
  by destruct (Healthy st).
Qed.

(** X8.  The IRC networks decide between online and warning.  When the
    liveness probe answers healthy, nothing is cached for the IRC status
    and the IRC answer decodes to a list of networks, CheckHealth of autobrr
    answers warning, with the networks that are enabled and not healthy
    under details, when there is such a network, and online with the
    message that autobrr is running and no details when there is none. *)
Theorem X8_one_unhealthy_network_warns (e : Env) (w : World)
    (url apiKey body ircBody : string) (resp ircResp : http.Response)
    (all : list IRCStatus) :
  url ≠ EmptyString → apiKey ≠ EmptyString →
  net e (autobrr.liveness_request url apiKey) = inl resp →
  http.StatusCode resp = http.StatusOK → http.Body resp = inl body →
  reports_healthy body →
  cached w (url ++ "_irc") = None →
  net e (irc_request url apiKey) = inl ircResp →
  http.StatusCode ircResp = http.StatusOK → http.Body ircResp = inl ircBody →
  json.Unmarshal autobrr.IRCStatuses_into ircBody = inl all →
  let unhealthy := List.filter (λ s, negb (Healthy s) && Enabled s) all in
  let r := (result (autobrr.CheckHealth url apiKey) e w).1 in
  match unhealthy with
  | [] => Status r = "online" ∧ Message r = "Autobrr is running"
          ∧ Extras r !! "details" = None
  | _ :: _ =>
      Status r = "warning"
      ∧ Message r = "Autobrr is running but reports unhealthy IRC connections"
      ∧ Extras r !! "details" = Some (autobrr.irc_details unhealthy)
  end.
Proof.
  intros Hurl Hkey Hnet Hcode Hbody Hhealthy Hmiss Hirc Hirccode Hircbody Hdec
    unhealthy r.
  subst r unhealthy. rewrite (autobrr_healthy e w url apiKey resp body) by done.
  unfold autobrr_verdict.
  rewrite (GetIRCStatus_decodes e w url apiKey ircBody ircResp) by done.
  rewrite Hdec. simpl.
  change (λ s : IRCStatus, negb (Healthy s) && Enabled s)
    with autobrr.unhealthy_enabled.
  generalize (no_healthy_left all).
  generalize (List.filter autobrr.unhealthy_enabled all). intros l Hnone.
  destruct l as [| st l].
  - simpl. split; [reflexivity |]. split; [reflexivity |].
    unfold autobrr.base_extras.
    rewrite !lookup_insert_ne by discriminate. apply lookup_empty.
  - simpl length. simpl Nat.eqb. cbv iota. rewrite Hnone. simpl.
    split; [reflexivity |]. split; [reflexivity |]. apply lookup_insert_eq.
Qed.

(** ** Release statistics that cannot be fetched *)

Lemma GetReleaseStats_failed e w url apiKey :
  (result (autobrr.GetReleaseStats url apiKey) e w).2 ≠ None →
  (result (autobrr.GetReleaseStats url apiKey) e w).1 = autobrr.zero_AutobrrStats.
Proof.
  unfold result, autobrr.GetReleaseStats.
  destruct (_ || _); [done |].
  unfold core.MakeRequestWithContext. rewrite !bind_run. simpl.
  repeat match goal with
         | |- context [match ?x with _ => _ end] => destruct x; simpl; try done
         end.
Qed.

(** X9.  Release statistics that cannot be fetched do not fail the check.
    When the liveness probe answers healthy, the result of CheckHealth of
    autobrr carries under stats what GetReleaseStats returned, its status
    is online or warning, and what GetReleaseStats returns with an error is
    the zero statistics. *)
Theorem X9_stats_failure_tolerated (e : Env) (w : World)
    (url apiKey body : string) (resp : http.Response) :
  url ≠ EmptyString → apiKey ≠ EmptyString →
  net e (autobrr.liveness_request url apiKey) = inl resp →
  http.StatusCode resp = http.StatusOK → http.Body resp = inl body →
  reports_healthy body →
  let r := (result (autobrr.CheckHealth url apiKey) e w).1 in
  let s := result (autobrr.GetReleaseStats url apiKey) e w in
  Extras r !! "stats" = Some (XMap [("autobrr", XStats s.1)])
  ∧ (Status r = "online" ∨ Status r = "warning")
  ∧ (s.2 ≠ None → s.1 = autobrr.zero_AutobrrStats).
Proof.
  intros Hurl Hkey Hnet Hcode Hbody Hhealthy r s. subst r s.
  rewrite (autobrr_healthy e w url apiKey resp body) by done.
  split; [| split; [| apply GetReleaseStats_failed]].
  - unfold autobrr_verdict.
    destruct (result (autobrr.GetIRCStatus url apiKey) e w).2;
      [| destruct (negb _)]; simpl; unfold autobrr.base_extras;
      rewrite ?lookup_insert_ne by discriminate; apply lookup_insert_eq.
  - unfold autobrr_verdict.
    destruct (result (autobrr.GetIRCStatus url apiKey) e w).2;
      [| destruct (negb _)]; simpl; auto.
Qed.

(** ** The liveness answer autobrr does not accept *)

Lemma not_reports_healthy body :
  ¬ reports_healthy body →
  negb (String.eqb (strings.Trim (strings.TrimSpace body) dquote) "healthy")
  && negb (String.eqb (strings.Trim (strings.TrimSpace body) dquote) "OK") = true.
Proof.
  unfold reports_healthy. intros H.
  destruct (String.eqb_spec (strings.Trim (strings.TrimSpace body) dquote) "healthy");
    [tauto |].
  destruct (String.eqb_spec (strings.Trim (strings.TrimSpace body) dquote) "OK");
    [tauto | reflexivity].
Qed.

(** X10.  The liveness answer autobrr does not accept.  A status code other
    than 200 gives the status error with the message that names the code;
    a status code 200 with a body that, trimmed of white space and double
    quotes, is neither healthy nor OK gives the status error with the
    message that quotes the trimmed body.  In both cases the result has no
    extras. *)
Theorem X10_liveness_not_accepted (e : Env) (w : World) (url apiKey : string)
    (resp : http.Response) :
  url ≠ EmptyString → apiKey ≠ EmptyString →
  net e (autobrr.liveness_request url apiKey) = inl resp →
  let r := (result (autobrr.CheckHealth url apiKey) e w).1 in
  (http.StatusCode resp ≠ http.StatusOK →
   r = core.CreateHealthResponse (now w) "error"
         ("Unexpected status code: " ++ strings.itoa (http.StatusCode resp)) ∅)
  ∧ (∀ body, http.StatusCode resp = http.StatusOK → http.Body resp = inl body →
       ¬ reports_healthy body →
       r = core.CreateHealthResponse (now w) "error"
             ("Autobrr reported unhealthy status: "
              ++ strings.Trim (strings.TrimSpace body) dquote) ∅).
Proof.
  intros Hurl Hkey Hnet r. subst r. unfold autobrr.liveness_request in Hnet.
  assert (Hrun : hoare e (near [] w) (autobrr.CheckHealth url apiKey)
            (λ r _,
               (http.StatusCode resp ≠ http.StatusOK →
                r.1 = core.CreateHealthResponse (now w) "error"
                        ("Unexpected status code: "
                         ++ strings.itoa (http.StatusCode resp)) ∅)
               ∧ (∀ body, http.StatusCode resp = http.StatusOK →
                    http.Body resp = inl body → ¬ reports_healthy body →
                    r.1 = core.CreateHealthResponse (now w) "error"
                            ("Autobrr reported unhealthy status: "
                             ++ strings.Trim (strings.TrimSpace body) dquote) ∅))).
  { unfold autobrr.CheckHealth.
    eapply hoare_step with (P' := λ _, True) (a := now w);
      [intros w1 Hw1; split; [apply Hw1 | done] |].
    rewrite (empty_false _ Hurl), (empty_false _ Hkey). simpl.
    do 5 skip_step. apply hoare_request_bind. rewrite Hnet.
    destruct (negb (http.StatusCode resp =? http.StatusOK)%Z) eqn:Hcode.
    - apply hoare_ret. intros _ _. split; [reflexivity |].
      intros body Hok. rewrite Hok in Hcode. discriminate.
    - apply negb_false_iff, Z.eqb_eq in Hcode.
      unfold core.ReadBody.
      destruct (http.Body resp) as [body | err].
      + destruct (negb _ && negb _) eqn:Htest.
        * apply hoare_ret. intros _ _. split; [done |].
          intros body' _ [= <-] _. reflexivity.
        * skip_step. skip_step. skip_step.
          assert (Hfalse : ∀ body', @inl string error body = inl body' →
                    ¬ reports_healthy body' → False).
          { intros body' [= <-] Hnot. apply not_reports_healthy in Hnot.
            congruence. }
          repeat case_step; apply hoare_ret; intros _ _;
            (split; [done | intros body' _ Hb Hn; by destruct (Hfalse body' Hb Hn)]).
      + apply hoare_ret. intros _ _. split; [done |]. intros body' _ [=]. }
  apply (Hrun w), near_refl.
Qed.

(** X8 at the upstream of the examples: two networks, one of them not
    healthy. *)
Lemma X8_witness :
  let url := "http://x:7474" in
  let e := env_of autobrr_upstream true in
  let b := {| Name := "b"; Healthy := false; Enabled := true |} in
  let r := (result (autobrr.CheckHealth url "abc") e world0).1 in
  (url ≠ EmptyString ∧ "abc" ≠ EmptyString ∧ reports_healthy (q "'healthy'")
   ∧ cached world0 (url ++ "_irc") = None)
  ∧ Status r = "warning"
  ∧ Message r = "Autobrr is running but reports unhealthy IRC connections"
  ∧ Extras r !! "details" = Some (autobrr.irc_details [b]).
Proof.
  intros url e b r.
  assert (Hurl : url ≠ EmptyString) by discriminate.
  assert (Hkey : "abc" ≠ EmptyString) by discriminate.
  assert (Hhealthy : reports_healthy (q "'healthy'")) by (left; reflexivity).
  split; [by repeat split |].
  exact (X8_one_unhealthy_network_warns e world0 url "abc" (q "'healthy'")
           (q "[{'name':'a','healthy':true,'enabled':true},{'name':'b','healthy':false,'enabled':true}]")
           (response 200 (q "'healthy'"))
           (response 200 (q "[{'name':'a','healthy':true,'enabled':true},{'name':'b','healthy':false,'enabled':true}]"))
           [{| Name := "a"; Healthy := true; Enabled := true |}; b]
           Hurl Hkey eq_refl eq_refl eq_refl Hhealthy eq_refl eq_refl eq_refl
           eq_refl eq_refl).
Defined.

(** X9 at an upstream that has no statistics endpoint. *)
Lemma X9_witness :
  let url := "http://x:7474" in
  let e := env_of (upstream [(url ++ "/api/healthz/liveness", answer 200 "OK");
                             (url ++ "/api/irc", answer 200 "[]")]) true in
  let r := (result (autobrr.CheckHealth url "abc") e world0).1 in
  let s := result (autobrr.GetReleaseStats url "abc") e world0 in
  (url ≠ EmptyString ∧ "abc" ≠ EmptyString ∧ reports_healthy "OK")
  ∧ s.2 = Some (errorString "request failed: dial tcp: connection refused")
  ∧ Extras r !! "stats" = Some (XMap [("autobrr", XStats s.1)])
  ∧ (Status r = "online" ∨ Status r = "warning")
  ∧ s.1 = autobrr.zero_AutobrrStats.
Proof.
  intros url e r s.
  assert (Hurl : url ≠ EmptyString) by discriminate.
  assert (Hkey : "abc" ≠ EmptyString) by discriminate.
  assert (Hhealthy : reports_healthy "OK") by (right; reflexivity).
  destruct (X9_stats_failure_tolerated e world0 url "abc" "OK" (response 200 "OK")
              Hurl Hkey eq_refl eq_refl eq_refl Hhealthy) as (Hstats & Hstatus & Hzero).
  split; [by repeat split |].
  split; [reflexivity |]. split; [exact Hstats |]. split; [exact Hstatus |].
  apply Hzero. discriminate.
Defined.

(** X10 at an upstream that answers 204, and at one that answers ok in
    small letters. *)
Lemma X10_witness :
  let url := "http://x:7474" in
  let e1 := env_of (upstream [(url ++ "/api/healthz/liveness",
                               answer 204 EmptyString)]) true in
  let e2 := env_of (upstream [(url ++ "/api/healthz/liveness", answer 200 "ok")])
              true in
  (url ≠ EmptyString ∧ "abc" ≠ EmptyString)
  ∧ (result (autobrr.CheckHealth url "abc") e1 world0).1
    = core.CreateHealthResponse 0 "error" "Unexpected status code: 204" ∅
  ∧ (result (autobrr.CheckHealth url "abc") e2 world0).1
    = core.CreateHealthResponse 0 "error" "Autobrr reported unhealthy status: ok" ∅.
Proof.
  intros url e1 e2.
  assert (Hurl : url ≠ EmptyString) by discriminate.
  assert (Hkey : "abc" ≠ EmptyString) by discriminate.
  destruct (X10_liveness_not_accepted e1 world0 url "abc" (response 204 EmptyString)
              Hurl Hkey eq_refl) as [H1 _].
  destruct (X10_liveness_not_accepted e2 world0 url "abc" (response 200 "ok")
              Hurl Hkey eq_refl) as [_ H2].
  split; [by split |]. split.
  - apply H1. discriminate.
  - apply (H2 "ok" eq_refl eq_refl). intros [H | H]; discriminate H.
Defined.

(** ** The version lookup of maintainerr when it is in time *)

Lemma getVersion_hit e w url v :
  v ≠ EmptyString → cached w url = Some v →
  maintainerr.getVersion url e w = (v, None, w).
Proof.
  intros Hv Hc. unfold maintainerr.getVersion.
  rewrite bind_run, GetVersionFromCache_run, Hc. simpl.
  by rewrite (empty_false _ Hv).
Qed.

Lemma getVersion_miss e w url body resp statusResponse :
  missing w url →
  net e (maintainerr.status_request url) = inl resp →
  http.Body resp = inl body →
  json.Unmarshal maintainerr.StatusResponse_into body = inl statusResponse →
  (maintainerr.getVersion url e w).1 = (maintainerr.Version statusResponse, None)
  ∧ calls (maintainerr.getVersion url e w).2
    = maintainerr.status_request url :: calls w.
Proof.
  unfold missing, maintainerr.status_request. intros Hmiss Hnet Hbody Hdec.
  unfold maintainerr.getVersion.
  rewrite bind_run, GetVersionFromCache_run, Hmiss. simpl.
  unfold core.MakeRequestWithContext. rewrite !bind_run. simpl.
  rewrite Hnet. unfold core.ReadBody. rewrite Hbody, Hdec.
  rewrite !bind_run. unfold core.CacheVersion, core.cache_set.
  rewrite !bind_run. simpl. by destruct (cache_refuses e url).
Qed.

Lemma await_version_received e w url c c' v :
  c ≠ c' → version_in_time e = true →
  (maintainerr.getVersion url (in_task e)
     (set_tasks (filter (λ t', task_chan t' ≠ c)) w)).1 = (v, None) →
  let run := await version_in_time (MaintainerrVersionTask url c c')
               (maintainerr.version_task url c c')
               (version ← receive c; versionErr ← receive c';
                mret (maintainerr.received_string version,
                      maintainerr.received_error versionErr))
               (mret (EmptyString, Some (errorString "version check timed out")))
               e w in
  run.1 = (v, None)
  ∧ calls run.2
    = calls (maintainerr.getVersion url (in_task e)
               (set_tasks (filter (λ t', task_chan t' ≠ c)) w)).2.
Proof.
  intros Hne Htime Hget run. subst run. unfold await. rewrite Htime.
  rewrite !bind_run. unfold finished. simpl task_chan.
  change ((modify (set_tasks (filter (λ t', task_chan t' ≠ c))) e w).2)
    with (set_tasks (filter (λ t', task_chan t' ≠ c)) w).
  unfold maintainerr.version_task. rewrite ?bind_run.
  destruct (maintainerr.getVersion url (in_task e) _) as [[v' err] w2].
  simpl in Hget. injection Hget as -> ->. simpl.
  unfold set_chans; simpl.
  rewrite lookup_insert_ne by done. rewrite lookup_insert_eq.
  rewrite lookup_delete_ne by done. rewrite lookup_insert_eq. done.
Qed.

(** X11.  The version lookup of maintainerr when it is in time.  When the
    status endpoint answers, the probe and the lookup alike, with a status
    code below 400 and a body that decodes, and the lookup reports within
    its two seconds, the result of
    CheckHealth has no versionError, its updateAvailable is the flag of the
    answer, and its version is the cached version when there is one (one
    request is sent) and the version of the answer otherwise (the status
    endpoint is requested twice: by the lookup and by the probe). *)
Theorem X11_maintainerr_version_in_time (e : Env) (w : World)
    (url apiKey body : string) (resp : http.Response)
    (statusResponse : maintainerr.StatusResponse) :
  url ≠ EmptyString →
  net e (maintainerr.status_request url) = inl resp →
  task_net e (maintainerr.status_request url) = inl resp →
  http.Body resp = inl body → (http.StatusCode resp < 400)%Z →
  json.Unmarshal maintainerr.StatusResponse_into body = inl statusResponse →
  version_in_time e = true →
  let r := (result (maintainerr.CheckHealth url apiKey) e w).1 in
  let w1 := after (maintainerr.CheckHealth url apiKey) e w in
  (Extras r !! "versionError" = None
   ∧ Extras r !! "updateAvailable"
     = Some (XBool (maintainerr.UpdateAvailable statusResponse)))
  ∧ (missing w url →
     Extras r !! "version" = Some (XString (maintainerr.Version statusResponse))
     ∧ calls w1
       = maintainerr.status_request url :: maintainerr.status_request url :: calls w)
  ∧ (∀ v, cached w url = Some v → v ≠ EmptyString →
       Extras r !! "version" = Some (XString v)
       ∧ calls w1 = maintainerr.status_request url :: calls w).
Proof.
  intros Hurl Hnet Htask Hbody Hcode Hdec Htime r w1. subst r w1.
  set (c := next_chan w). set (c' := S c).
  set (w3 := log_call (maintainerr.status_request url)
               (set_tasks (λ l, (l ++ [MaintainerrVersionTask url c c'])%list)
                  (fresh_chan (fresh_chan w)))).
  set (w4 := set_tasks (filter (λ t', task_chan t' ≠ c)) w3).
  assert (Hne : c ≠ c') by (unfold c'; lia).
  assert (Hcached : ∀ k, cached w4 k = cached w k) by reflexivity.
  assert (Hcalls : calls w4 = maintainerr.status_request url :: calls w)
    by reflexivity.
  (* what the lookup answers *)
  assert (Hget : ∃ v,
             (maintainerr.getVersion url (in_task e) w4).1 = (v, None)
             ∧ (missing w url →
                v = maintainerr.Version statusResponse
                ∧ calls (maintainerr.getVersion url (in_task e) w4).2
                  = maintainerr.status_request url
                    :: maintainerr.status_request url :: calls w)
             ∧ (∀ v', cached w url = Some v' → v' ≠ EmptyString →
                  v = v'
                  ∧ calls (maintainerr.getVersion url (in_task e) w4).2
                    = maintainerr.status_request url :: calls w)).
  { destruct (cached w url) as [v0 |] eqn:Hc;
      [destruct (String.eqb_spec v0 EmptyString) as [-> | Hv0] |].
    - destruct (getVersion_miss (in_task e) w4 url body resp statusResponse) as [H1 H2];
        try done.
      { unfold missing. by rewrite Hcached, Hc. }
      eexists. split; [exact H1 |]. split.
      + intros _. split; [done |]. by rewrite H2, Hcalls.
      + intros v' [= <-] Hv'. done.
    - rewrite (getVersion_hit (in_task e) w4 url v0) by (by rewrite ?Hcached).
      eexists. split; [reflexivity |]. split.
      + unfold missing. rewrite Hc. simpl. done.
      + intros v' [= <-] _. done.
    - destruct (getVersion_miss (in_task e) w4 url body resp statusResponse) as [H1 H2];
        try done.
      { unfold missing. by rewrite Hcached, Hc. }
      eexists. split; [exact H1 |]. split.
      + intros _. split; [done |]. by rewrite H2, Hcalls.
      + intros v' [=]. }
  destruct Hget as (v & Hv & Hmiss & Hhit).
  destruct (await_version_received e w3 url c c' v Hne Htime Hv) as [Hr Hw].
  (* the check up to the select *)
  unfold maintainerr.status_request in Hnet.
  unfold result, after, maintainerr.CheckHealth.
  rewrite bind_run. simpl. rewrite (empty_false _ Hurl).
  unfold make_chan, go, core.MakeRequestWithContext.
  rewrite !bind_run. simpl.
  rewrite Hnet. unfold core.ReadBody. rewrite Hbody.
  rewrite (proj2 (Z.leb_gt _ _) Hcode). rewrite Hdec.
  rewrite bind_run.
  fold c c'. fold (maintainerr.status_request url). fold w3.
  cbv zeta in Hr, Hw. rewrite Hr. simpl.
  split; [split |].
  - rewrite !lookup_insert_ne by discriminate. apply lookup_empty.
  - rewrite lookup_insert_ne by discriminate. apply lookup_insert_eq.
  - split.
    + intros Hm. destruct (Hmiss Hm) as [-> Hc]. split; [apply lookup_insert_eq |].
      by rewrite Hw.
    + intros v' Hc Hv'. destruct (Hhit v' Hc Hv') as [-> Hcs].
      split; [apply lookup_insert_eq |]. by rewrite Hw.
Qed.

(** X11 with nothing cached, and with the version 1.0 cached. *)
Lemma X11_witness :
  let url := "http://x:6246" in
  let body := q "{'version':'2.0','updateAvailable':true}" in
  let e := env_of (upstream [(url ++ "/api/app/status", answer 200 body)]) true in
  let w := world_with [(url, ("1.0", Hour))] in
  let r0 := (result (maintainerr.CheckHealth url "abc") e world0).1 in
  let r1 := (result (maintainerr.CheckHealth url "abc") e w).1 in
  (url ≠ EmptyString ∧ missing world0 url ∧ cached w url = Some "1.0")
  ∧ (Extras r0 !! "versionError" = None
     ∧ Extras r0 !! "updateAvailable" = Some (XBool true))
  ∧ (Extras r0 !! "version" = Some (XString "2.0")
     ∧ calls (after (maintainerr.CheckHealth url "abc") e world0)
       = [maintainerr.status_request url; maintainerr.status_request url])
  ∧ (Extras r1 !! "version" = Some (XString "1.0")
     ∧ calls (after (maintainerr.CheckHealth url "abc") e w)
       = [maintainerr.status_request url]).
Proof.
  intros url body e w r0 r1.
  assert (Hurl : url ≠ EmptyString) by discriminate.
  pose (sr := {| maintainerr.Version := "2.0";
                 maintainerr.UpdateAvailable := true |}).
  destruct (X11_maintainerr_version_in_time e world0 url "abc" body
              (response 200 body) sr Hurl eq_refl eq_refl eq_refl eq_refl eq_refl
              eq_refl)
    as (H0 & Hmiss & _).
  destruct (X11_maintainerr_version_in_time e w url "abc" body
              (response 200 body) sr Hurl eq_refl eq_refl eq_refl eq_refl eq_refl
              eq_refl)
    as (_ & _ & Hhit).
  split; [by repeat split |]. split; [exact H0 |]. split.
  - apply Hmiss. reflexivity.
  - apply (Hhit "1.0"); [reflexivity | discriminate].
Defined.

(** ** Fetches that do not use the cache *)

Section collections_contract.
Context {Collection : Type} (IsActive : Collection → bool).
Context (Collection_into : json.value → option Collection).

Lemma GetCollections_contract e w url apiKey :
  let r := result (maintainerr.GetCollections IsActive Collection_into url apiKey) e w in
  let w1 := after (maintainerr.GetCollections IsActive Collection_into url apiKey) e w in
  (r.2 ≠ None → r.1 = [])
  ∧ Forall (λ c, IsActive c = true) r.1
  ∧ (if strings.empty url || strings.empty apiKey
     then w1 = w ∧ r.2 ≠ None
     else w1 = log_call (collections_request url apiKey) w).
Proof.
  unfold result, after, maintainerr.GetCollections, collections_request.
  destruct (strings.empty url); [by repeat split |].
  destruct (strings.empty apiKey); [by repeat split |].
  unfold core.MakeRequestWithContext. rewrite !bind_run. simpl.
  destruct (net e _) as [resp | err]; [| by repeat split].
  destruct (negb _); [by repeat split |].
  destruct (core.ReadBody resp) as [body | err]; [| by repeat split].
  assert (Hfilter : ∀ l, Forall (λ c, IsActive c = true) (List.filter IsActive l)).
  { intros l. apply Forall_forall. intros c Hc.
    apply list_elem_of_In, filter_In in Hc. tauto. }
  destruct (json.Unmarshal (json.slice_into Collection_into) body) as [cs | ?];
    [repeat split; [done | apply Hfilter] |].
  destruct (json.Unmarshal Collection_into body) as [c | ?]; [| by repeat split].
  destruct (IsActive c) eqn:Hc; simpl; rewrite ?Hc; repeat split; try done.
  by apply Forall_singleton.
Qed.
End collections_contract.

(** X12.  GetCollections of maintainerr: what it returns with an error is
    the empty list; every collection it returns is active; without a URL or
    without a key it returns an error and leaves the state as it is, and
    otherwise it sends exactly one request, to /api/collections, and
    changes nothing else (the cache is neither read nor written). *)
Theorem X12_GetCollections_contract {Collection : Type}
    (IsActive : Collection → bool)
    (Collection_into : json.value → option Collection)
    (e : Env) (w : World) (url apiKey : string) :
  let r := result (maintainerr.GetCollections IsActive Collection_into url apiKey) e w in
  let w1 := after (maintainerr.GetCollections IsActive Collection_into url apiKey) e w in
  (r.2 ≠ None → r.1 = [])
  ∧ Forall (λ c, IsActive c = true) r.1
  ∧ (if strings.empty url || strings.empty apiKey
     then w1 = w ∧ r.2 ≠ None
     else w1 = log_call (collections_request url apiKey) w).
Proof. apply GetCollections_contract. Qed.

(** X13.  GetIndexerStats of prowlarr returns the statistics or an error,
    never both and never neither; without a URL it returns an error and
    leaves the state as it is, and otherwise it sends exactly one request,
    to /api/v1/indexerstats with a deadline of two seconds, and changes
    nothing else. *)
Theorem X13_GetIndexerStats_contract {ProwlarrIndexerStatsResponse : Type}
    (ProwlarrIndexerStatsResponse_into :
       json.value → option ProwlarrIndexerStatsResponse)
    (e : Env) (w : World) (baseURL apiKey : string) :
  let r := result (prowlarr.GetIndexerStats ProwlarrIndexerStatsResponse_into
                     baseURL apiKey) e w in
  let w1 := after (prowlarr.GetIndexerStats ProwlarrIndexerStatsResponse_into
                     baseURL apiKey) e w in
  (r.1 = None ↔ r.2 ≠ None)
  ∧ (if strings.empty baseURL then w1 = w ∧ r.2 ≠ None
     else w1 = log_call (indexer_stats_request baseURL apiKey) w).
Proof.
  unfold result, after, prowlarr.GetIndexerStats, indexer_stats_request.
  destruct (strings.empty baseURL); [by repeat split |].
  unfold prowlarr.makeRequest. rewrite !bind_run. simpl.
  destruct (net e _) as [resp | err]; [| by repeat split].
  destruct (negb _); [by repeat split |].
  destruct (core.ReadBody resp) as [body | err]; [| by repeat split].
  destruct (json.Unmarshal _ body); by repeat split.
Qed.

(** ** The text of an error that carries a status code *)

(** X14.  The text of the error for a status code other than 200:
    GetCollections of maintainerr, and GetSystemStatus (when nothing is
    served from the cache) and GetIndexerStats of prowlarr, return an error
    whose text is the service, the operation, then server returned, the
    status text and the code in brackets. *)
Theorem X14_status_code_in_error_text {Collection Stats : Type}
    (IsActive : Collection → bool)
    (Collection_into : json.value → option Collection)
    (Stats_into : json.value → option Stats)
    (e : Env) (w : World) (url apiKey : string) (resp : http.Response) :
  url ≠ EmptyString →
  http.StatusCode resp ≠ http.StatusOK → (0 < http.StatusCode resp)%Z →
  (apiKey ≠ EmptyString →
   net e (collections_request url apiKey) = inl resp →
   Error <$> (result (maintainerr.GetCollections IsActive Collection_into
                        url apiKey) e w).2
   = Some (server_returned "maintainerr" "get_collections" (http.StatusCode resp)))
  ∧ (missing w url →
     net e (system_status_request url apiKey) = inl resp →
     Error <$> (result (prowlarr.GetSystemStatus url apiKey) e w).2
     = Some (server_returned "prowlarr" "get_system_status" (http.StatusCode resp)))
  ∧ (net e (indexer_stats_request url apiKey) = inl resp →
     Error <$> (result (prowlarr.GetIndexerStats Stats_into url apiKey) e w).2
     = Some (server_returned "prowlarr" "get_indexer_stats" (http.StatusCode resp))).
Proof.
  intros Hurl Hcode Hpos.
  assert (Hne : negb (http.StatusCode resp =? http.StatusOK)%Z = true).
  { apply negb_true_iff, Z.eqb_neq, Hcode. }
  apply Z.ltb_lt in Hpos.
  split; [| split].
  - intros Hkey Hnet. unfold collections_request in Hnet.
    unfold result, maintainerr.GetCollections.
    rewrite (empty_false _ Hurl), (empty_false _ Hkey).
    unfold core.MakeRequestWithContext. rewrite !bind_run. simpl.
    rewrite Hnet, Hne. simpl. by rewrite Hpos.
  - intros Hmiss Hnet. unfold system_status_request in Hnet.
    unfold result, prowlarr.GetSystemStatus. rewrite (empty_false _ Hurl).
    rewrite bind_run, GetVersionFromCache_run, Hmiss. simpl.
    unfold prowlarr.makeRequest. rewrite !bind_run. simpl.
    rewrite Hnet, Hne. simpl. by rewrite Hpos.
  - intros Hnet. unfold indexer_stats_request in Hnet.
    unfold result, prowlarr.GetIndexerStats. rewrite (empty_false _ Hurl).
    unfold prowlarr.makeRequest. rewrite !bind_run. simpl.
    rewrite Hnet, Hne. simpl. by rewrite Hpos.
Qed.

(** X14 at an upstream that answers 404 to everything. *)
Lemma X14_witness :
  let url := "http://x:9696" in
  let e := env_of (λ _, answer 404 "Not Found") true in
  let flag v := match v with json.Bool x => Some x | _ => None end in
  (url ≠ EmptyString ∧ "abc" ≠ EmptyString ∧ missing world0 url)
  ∧ Error <$> (result (maintainerr.GetCollections id flag url "abc") e world0).2
    = Some "maintainerr get_collections: server returned Not Found (404)"
  ∧ Error <$> (result (prowlarr.GetSystemStatus url "abc") e world0).2
    = Some "prowlarr get_system_status: server returned Not Found (404)"
  ∧ Error <$> (result (prowlarr.GetIndexerStats flag url "abc") e world0).2
    = Some "prowlarr get_indexer_stats: server returned Not Found (404)".
Proof.
  intros url e flag.
  assert (Hurl : url ≠ EmptyString) by discriminate.
  assert (Hkey : "abc" ≠ EmptyString) by discriminate.
  destruct (X14_status_code_in_error_text id flag flag e world0 url "abc"
              (response 404 "Not Found") Hurl ltac:(discriminate) eq_refl)
    as (H1 & H2 & H3).
  split; [by repeat split |].
  split; [exact (H1 Hkey eq_refl) |].
  split; [exact (H2 eq_refl eq_refl) | exact (H3 eq_refl)].
Defined.

(** ** The configuration and the environment *)

Section overrides.
Variable Getenv : string → string.

(** What one override does to a field of the configuration: nothing when it
    assigns to another field, and the picked value when it assigns to this
    one. *)
Lemma override_other {A} (P : config.Config → A) name put c :
  (∀ v c', P (put v c') = P c') →
  P (config.override Getenv name put c) = P c.
Proof.
  intros Hput. unfold config.override.
  destruct (negb (strings.empty (Getenv name))); [apply Hput | reflexivity].
Qed.

Lemma override_port_other {A} (P : config.Config → A) name put c :
  (∀ v c', P (put v c') = P c') →
  P (config.override_port Getenv name put c) = P c.
Proof.
  intros Hput. unfold config.override_port. apply override_other.
  intros v c'. destruct (strconv.Atoi v); [apply Hput | reflexivity].
Qed.

Lemma override_this (P : config.Config → string) name put c :
  (∀ v c', P (put v c') = v) →
  P (config.override Getenv name put c) = pick Getenv name (P c).
Proof.
  intros Hput. unfold config.override, pick.
  destruct (strings.empty (Getenv name)); simpl; [reflexivity | apply Hput].
Qed.

Lemma override_port_this (P : config.Config → Z) name put c :
  (∀ v c', P (put v c') = v) →
  P (config.override_port Getenv name put c) = pick_port Getenv name (P c).
Proof.
  intros Hput. unfold config.override_port, config.override, pick_port.
  destruct (strings.empty (Getenv name)); simpl; [reflexivity |].
  destruct (strconv.Atoi (Getenv name)); simpl; [apply Hput | reflexivity].
Qed.

Lemma Config_eq (c1 c2 : config.Config) :
  config.ListenAddr (config.Server c1) = config.ListenAddr (config.Server c2) →
  config.Cache_Type (config.Cache c1) = config.Cache_Type (config.Cache c2) →
  config.Redis_Host (config.Redis (config.Cache c1))
  = config.Redis_Host (config.Redis (config.Cache c2)) →
  config.Redis_Port (config.Redis (config.Cache c1))
  = config.Redis_Port (config.Redis (config.Cache c2)) →
  config.DB_Type (config.Database c1) = config.DB_Type (config.Database c2) →
  config.Path (config.Database c1) = config.Path (config.Database c2) →
  config.Host (config.Database c1) = config.Host (config.Database c2) →
  config.Port (config.Database c1) = config.Port (config.Database c2) →
  config.User (config.Database c1) = config.User (config.Database c2) →
  config.Password (config.Database c1) = config.Password (config.Database c2) →
  config.Name (config.Database c1) = config.Name (config.Database c2) →
  config.Issuer (config.OIDC (config.Auth c1))
  = config.Issuer (config.OIDC (config.Auth c2)) →
  config.ClientID (config.OIDC (config.Auth c1))
  = config.ClientID (config.OIDC (config.Auth c2)) →
  config.ClientSecret (config.OIDC (config.Auth c1))
  = config.ClientSecret (config.OIDC (config.Auth c2)) →
  config.RedirectURL (config.OIDC (config.Auth c1))
  = config.RedirectURL (config.OIDC (config.Auth c2)) →
  c1 = c2.
Proof.
  destruct c1 as [[?] [? [? ?]] [? ? ? ? ? ? ?] [[? ? ? ?]]].
  destruct c2 as [[?] [? [? ?]] [? ? ? ? ? ? ?] [[? ? ? ?]]].
  simpl. intros. by subst.
Qed.

(** A field of the configuration after the overrides. *)
Ltac field P :=
  repeat first
    [ rewrite (override_other P) by (intros; reflexivity)
    | rewrite (override_port_other P) by (intros; reflexivity)
    | rewrite (override_this P) by (intros; reflexivity)
    | rewrite (override_port_this P) by (intros; reflexivity) ];
  reflexivity.

Lemma LoadEnvOverrides_overridden c :
  config.LoadEnvOverrides Getenv c = (overridden Getenv c, None).
Proof.
  unfold config.LoadEnvOverrides. cbv zeta. f_equal.
  apply Config_eq; unfold overridden; cbv zeta; cbn [config.Server config.Cache
    config.Database config.Auth config.ListenAddr config.Cache_Type config.Redis
    config.Redis_Host config.Redis_Port config.DB_Type config.Path config.Host
    config.Port config.User config.Password config.Name config.OIDC config.Issuer
    config.ClientID config.ClientSecret config.RedirectURL].
  - field (λ c, config.ListenAddr (config.Server c)).
  - field (λ c, config.Cache_Type (config.Cache c)).
  - field (λ c, config.Redis_Host (config.Redis (config.Cache c))).
  - field (λ c, config.Redis_Port (config.Redis (config.Cache c))).
  - field (λ c, config.DB_Type (config.Database c)).
  - field (λ c, config.Path (config.Database c)).
  - field (λ c, config.Host (config.Database c)).
  - field (λ c, config.Port (config.Database c)).
  - field (λ c, config.User (config.Database c)).
  - field (λ c, config.Password (config.Database c)).
  - field (λ c, config.Name (config.Database c)).
  - field (λ c, config.Issuer (config.OIDC (config.Auth c))).
  - field (λ c, config.ClientID (config.OIDC (config.Auth c))).
  - field (λ c, config.ClientSecret (config.OIDC (config.Auth c))).
  - field (λ c, config.RedirectURL (config.OIDC (config.Auth c))).
Qed.

Lemma pick_idem name old : pick Getenv name (pick Getenv name old) = pick Getenv name old.
Proof. unfold pick. by destruct (strings.empty (Getenv name)). Qed.

Lemma pick_port_idem name old :
  pick_port Getenv name (pick_port Getenv name old) = pick_port Getenv name old.
Proof.
  unfold pick_port. destruct (strings.empty (Getenv name)); [done |].
  by destruct (strconv.Atoi (Getenv name)).
Qed.

End overrides.

(** X15.  LoadEnvOverrides never fails, and the configuration it leaves is
    the one it was given with each field replaced by the value of its
    variable when that variable is set (for a port: when it is set to a
    number).  Applying the overrides twice gives what applying them once
    gives, and an environment that sets no variable leaves the
    configuration as it is. *)
Theorem X15_environment_overrides (Getenv : string → string) (c : config.Config) :
  config.LoadEnvOverrides Getenv c = (overridden Getenv c, None)
  ∧ config.LoadEnvOverrides Getenv (overridden Getenv c) = (overridden Getenv c, None)
  ∧ ((∀ name, Getenv name = EmptyString) → overridden Getenv c = c).
Proof.
  split; [apply LoadEnvOverrides_overridden |]. split.
  - rewrite LoadEnvOverrides_overridden. f_equal.
    unfold overridden. cbv zeta. simpl.
    by rewrite !pick_idem, !pick_port_idem.
  - intros Hunset. unfold overridden, pick, pick_port. rewrite !Hunset. simpl.
    by destruct c as [[?] [? [? ?]] [? ? ? ? ? ? ?] [[? ? ? ?]]].
Qed.

(** ** A complete environment *)

Lemma pick_zero Getenv name : pick Getenv name EmptyString = Getenv name.
Proof. unfold pick. by destruct (Getenv name). Qed.

Section loading.
Variable Getenv : string → string.
Variable ReadFile : string → string + error.
Variable toml_Unmarshal : string → config.Config → config.Config + error.

Lemma HasRequiredEnvVars_true :
  config.HasRequiredEnvVars Getenv = true →
  Getenv "DASHBRR__LISTEN_ADDR" ≠ EmptyString
  ∧ ((Getenv "DASHBRR__DB_TYPE" = "sqlite"
      ∧ Getenv "DASHBRR__DB_PATH" ≠ EmptyString)
     ∨ (Getenv "DASHBRR__DB_TYPE" = "postgres"
        ∧ Forall (λ name, Getenv name ≠ EmptyString)
            ["DASHBRR__DB_HOST"; "DASHBRR__DB_PORT"; "DASHBRR__DB_USER";
             "DASHBRR__DB_PASSWORD"; "DASHBRR__DB_NAME"])).
Proof.
  unfold config.HasRequiredEnvVars.
  destruct (Getenv "DASHBRR__LISTEN_ADDR") eqn:Haddr; [done |]. simpl.
  destruct (strings.empty (Getenv "DASHBRR__DB_TYPE")); [done |].
  destruct (String.eqb_spec (Getenv "DASHBRR__DB_TYPE") "sqlite") as [-> | _].
  - destruct (Getenv "DASHBRR__DB_PATH"); [done |]. intros _. split; [done |].
    left. done.
  - destruct (String.eqb_spec (Getenv "DASHBRR__DB_TYPE") "postgres") as [-> | _];
      [| done].
    intros Hall. split; [done |]. right. split; [done |].
    unfold config.requiredVars in Hall. simpl in Hall.
    repeat (apply andb_prop in Hall as [? Hall]).
    repeat constructor;
      match goal with
      | H : negb (strings.empty ?x) = true |- ?x ≠ _ => by destruct x
      end.
Qed.

(** X16.  A complete environment needs no file.  When HasRequiredEnvVars
    holds, LoadConfig succeeds without reading the file: it returns the
    empty configuration with the overrides of the environment.  In it the
    listen address is the one of the environment and not empty, and the
    database is either sqlite with the path of the environment, not empty,
    or postgres with a host, a user, a password and a name that are not
    empty and the port of the environment (0 when that is not a number). *)
Theorem X16_complete_environment (path : string) :
  config.HasRequiredEnvVars Getenv = true →
  let r := config.LoadConfig Getenv ReadFile toml_Unmarshal path in
  r = (Some (overridden Getenv config.zero), None)
  ∧ ∀ c, r.1 = Some c →
      config.ListenAddr (config.Server c) = Getenv "DASHBRR__LISTEN_ADDR"
      ∧ config.ListenAddr (config.Server c) ≠ EmptyString
      ∧ ((config.DB_Type (config.Database c) = "sqlite"
          ∧ config.Path (config.Database c) = Getenv "DASHBRR__DB_PATH"
          ∧ config.Path (config.Database c) ≠ EmptyString)
         ∨ (config.DB_Type (config.Database c) = "postgres"
            ∧ config.Host (config.Database c) ≠ EmptyString
            ∧ config.User (config.Database c) ≠ EmptyString
            ∧ config.Password (config.Database c) ≠ EmptyString
            ∧ config.Name (config.Database c) ≠ EmptyString
            ∧ config.Port (config.Database c)
              = default 0 (strconv.Atoi (Getenv "DASHBRR__DB_PORT")))).
Proof.
  intros Hall r. subst r. unfold config.LoadConfig. rewrite Hall.
  rewrite LoadEnvOverrides_overridden. split; [reflexivity |].
  intros c [= <-]. simpl. rewrite !pick_zero.
  destruct (HasRequiredEnvVars_true Hall) as [Haddr Hdb].
  split; [reflexivity |]. split; [exact Haddr |].
  destruct Hdb as [[Htype Hpath] | [Htype Hvars]]; [left | right].
  - by rewrite Htype.
  - rewrite Htype.
    repeat match goal with
           | H : Forall _ (_ :: _) |- _ => apply Forall_cons in H as [? H]
           end.
    repeat split; try done.
    unfold pick_port. by destruct (Getenv "DASHBRR__DB_PORT").
Qed.

(** ** When loading fails *)

(** X17.  LoadConfig returns a configuration or an error, never both and
    never neither; it fails exactly when the environment is not complete
    and the file cannot be read or cannot be decoded. *)
Theorem X17_LoadConfig_failure (path : string) :
  let r := config.LoadConfig Getenv ReadFile toml_Unmarshal path in
  (r.1 = None ↔ r.2 ≠ None)
  ∧ (r.2 ≠ None ↔
     config.HasRequiredEnvVars Getenv = false
     ∧ match ReadFile path with
       | inr _ => True
       | inl data =>
           match toml_Unmarshal data config.zero with
           | inr _ => True
           | inl _ => False
           end
       end).
Proof.
  unfold config.LoadConfig.
  destruct (config.HasRequiredEnvVars Getenv).
  - rewrite LoadEnvOverrides_overridden. simpl. split; split; try done.
    by intros [? _].
  - destruct (ReadFile path) as [data | err]; [| by repeat split].
    destruct (toml_Unmarshal data config.zero) as [c | err]; [| by repeat split].
    rewrite LoadEnvOverrides_overridden. simpl. split; split; try done.
    by intros [_ ?].
Qed.

End loading.

(** X16 at an environment that names an SQLite database, with no file to
    read. *)
Lemma X16_witness :
  let c := overridden sqlite_environment config.zero in
  config.HasRequiredEnvVars sqlite_environment = true
  ∧ config.LoadConfig sqlite_environment
      (λ _, inr (errorString "open config.toml: no such file or directory"))
      (λ _ c, inl c) "config.toml"
    = (Some c, None)
  ∧ config.ListenAddr (config.Server c) = "0.0.0.0:8080"
  ∧ config.DB_Type (config.Database c) = "sqlite"
  ∧ config.Path (config.Database c) = "/data/dashbrr.db"
  ∧ config.Redis_Port (config.Redis (config.Cache c)) = 6379.
Proof.
  intros c.
  assert (Hall : config.HasRequiredEnvVars sqlite_environment = true)
    by (vm_compute; reflexivity).
  destruct (X16_complete_environment sqlite_environment
              (λ _, inr (errorString "open config.toml: no such file or directory"))
              (λ _ c, inl c) "config.toml" Hall) as [Hload _].
  split; [exact Hall |]. split; [exact Hload |].
  repeat split; vm_compute; reflexivity.
Defined.

(** ** The configuration the server starts with *)

Section starting.
Variable Getenv : string → string.
Variable ReadFile : string → string + error.
Variable toml_Unmarshal : string → config.Config → config.Config + error.


End starting.


(** ** JSON text that is written and read back *)

Lemma steps_app st s1 s2 :
  steps st (s1 ++ s2) = steps st s1 ≫= λ st', steps st' s2.
Proof.
  revert st. induction s1 as [| c s1 IH]; intros st; simpl; [done |].
  destruct (json.feed st c) as [st' |]; simpl; [apply IH | done].
Qed.

Lemma run_steps st s : json.run st s = steps st s ≫= json.finish.
Proof.
  revert st. induction s as [| c s IH]; intros st; simpl; [done |].
  destruct (json.feed st c) as [st' |]; simpl; [apply IH | done].
Qed.

(** A byte and its code. *)
Lemma code_byte n : (n < 256)%N → code (byte n) = n.
Proof. intros H. unfold code, byte. by apply N_ascii_embedding. Qed.

Lemma byte_code a : byte (code a) = a.
Proof. apply ascii_N_embedding. Qed.

Lemma code_lt a : (code a < 256)%N.
Proof. apply N_ascii_bounded. Qed.

Lemma is_byte_eq n a : is_byte n a = true → a = byte n.
Proof.
  unfold is_byte. intros H. apply N.eqb_eq in H. rewrite <- H. symmetry.
  apply byte_code.
Qed.

Lemma take_drop k s : take k s ++ drop k s = s.
Proof.
  revert s. induction k as [| k IH]; intros [| c r]; try done.
  change (String c (take k r ++ drop k r) = String c r). f_equal. apply IH.
Qed.

Lemma cont_high a : utf8.cont a = true → (128 <=? code a)%N = true.
Proof.
  unfold utf8.cont, in_range. intros H. apply andb_prop in H as [H _]. exact H.
Qed.

Lemma in_range_high lo hi a :
  (128 <= lo)%N → in_range lo hi a = true → (128 <=? code a)%N = true.
Proof.
  unfold in_range. intros Hlo H. apply andb_prop in H as [H _].
  apply N.leb_le in H. apply N.leb_le. lia.
Qed.

Lemma conts_S k s :
  utf8.conts (S k) s = true →
  ∃ c r, s = String c r ∧ utf8.cont c = true ∧ utf8.conts k r = true.
Proof.
  destruct s as [| c r]; [discriminate |]. intros H.
  change (utf8.cont c && utf8.conts k r = true) in H.
  apply andb_prop in H as [? ?]. by exists c, r.
Qed.

(** A well-formed encoding of [S k] bytes: what [utf8.size] looked at. *)
Lemma size_spec a r k :
  utf8.size a r = S k →
  String.length (take k r) = k ∧ high (take k r) = true
  ∧ ∀ r', utf8.size a (take k r ++ r') = S k.
Proof.
  unfold utf8.size.
  destruct r as [| a2 r2]; [discriminate |].
  repeat match goal with
         | |- context [if ?b then _ else _] =>
             let H := fresh "H" in destruct b eqn:H; try discriminate
         end;
    intros [= <-];
    repeat match goal with
           | H : _ && _ = true |- _ => apply andb_prop in H as [? ?]
           end;
    repeat match goal with
           | H : utf8.conts (S _) _ = true |- _ =>
               apply conts_S in H as (? & ? & -> & ? & ?)
           end;
    simpl;
    repeat match goal with
           | H : utf8.cont _ = true |- _ =>
               rewrite H; rewrite (cont_high _ H); clear H
           | H : in_range ?lo 191 ?x = true |- _ =>
               rewrite H; rewrite (in_range_high lo 191 x ltac:(lia) H); clear H
           | H : in_range 128 ?hi ?x = true |- _ =>
               rewrite H; rewrite (in_range_high 128 hi x ltac:(lia) H); clear H
           end;
    simpl; repeat split; intros; simpl;
    repeat match goal with
           | H : ?b = _ |- context [?b] => rewrite H
           end; simpl; reflexivity.
Qed.

Lemma high_feed c items ps :
  (128 <=? code c)%N = true →
  json.feed (json.LStr items, ps) c = Some (json.LStr (json.SRaw c :: items), ps).
Proof.
  intros H. apply N.leb_le in H. unfold json.feed, is_byte.
  rewrite (proj2 (N.eqb_neq _ _)) by lia.
  rewrite (proj2 (N.eqb_neq _ _)) by lia.
  rewrite (proj2 (N.ltb_ge _ _)) by lia. reflexivity.
Qed.

Lemma steps_cons st c r :
  steps st (String c r) = json.feed st c ≫= λ st', steps st' r.
Proof. reflexivity. Qed.

Lemma lex_raws cs items ps rest :
  high cs = true →
  steps (json.LStr items, ps) (cs ++ rest)
  = steps (json.LStr (rev (raws cs) ++ items), ps) rest.
Proof.
  revert items. induction cs as [| c cs IH]; intros items Hcs; [done |].
  simpl in Hcs. apply andb_prop in Hcs as [Hc Hcs].
  change (steps (json.LStr items, ps) (String c (cs ++ rest))
          = steps (json.LStr (rev (raws (String c cs)) ++ items), ps) rest).
  rewrite steps_cons, (high_feed _ _ _ Hc). simpl. rewrite (IH _ Hcs).
  unfold raws. simpl. by rewrite <- app_assoc.
Qed.

Lemma raw_prefix_raws cs tl :
  json.raw_prefix (raws cs ++ tl) = cs ++ json.raw_prefix tl.
Proof.
  induction cs as [| c cs IH]; [done |].
  change (String c (json.raw_prefix (raws cs ++ tl))
          = String c (cs ++ json.raw_prefix tl)). by rewrite IH.
Qed.

Lemma unquote_raws cs tl :
  json.unquote (String.length cs) (raws cs ++ tl) = cs ++ json.unquote 0 tl.
Proof.
  induction cs as [| c cs IH]; [done |].
  change (String c (json.unquote (String.length cs) (raws cs ++ tl))
          = String c (cs ++ json.unquote 0 tl)). by rewrite IH.
Qed.

Lemma quote_go_Copy0 s : json.quote_go (json.Copy 0) s = json.quote_go json.Pass s.
Proof. by destruct s. Qed.

Lemma quote_go_Drop0 s : json.quote_go (json.Drop 0) s = json.quote_go json.Pass s.
Proof. by destruct s. Qed.

Lemma quote_go_Copy cs r :
  json.quote_go (json.Copy (String.length cs)) (cs ++ r)
  = cs ++ json.quote_go json.Pass r.
Proof.
  induction cs as [| c cs IH]; [apply quote_go_Copy0 |].
  change (String c (json.quote_go (json.Copy (String.length cs)) (cs ++ r))
          = String c (cs ++ json.quote_go json.Pass r)). by rewrite IH.
Qed.

Lemma quote_go_Drop cs r :
  json.quote_go (json.Drop (String.length cs)) (cs ++ r)
  = json.quote_go json.Pass r.
Proof.
  induction cs as [| c cs IH]; [apply quote_go_Drop0 |].
  change (json.quote_go (json.Drop (String.length cs)) (cs ++ r)
          = json.quote_go json.Pass r). exact IH.
Qed.

Lemma lex_ascii a :
  (code a <? 128)%N = true →
  (∀ items ps rest,
     steps (json.LStr items, ps)
       ((if json.html_safe a then String a EmptyString
         else json.escape_ascii a) ++ rest)
     = steps (json.LStr (ascii_item a :: items), ps) rest)
  ∧ ∀ tl, json.unquote 0 (ascii_item a :: tl) = String a (json.unquote 0 tl).
Proof.
  destruct a as [[] [] [] [] [] [] [] []]; try discriminate; intros _;
    (split; [intros items ps rest; reflexivity | intros tl; reflexivity]).
Qed.

Lemma sapp_assoc (s1 s2 s3 : string) : (s1 ++ s2) ++ s3 = s1 ++ (s2 ++ s3).
Proof.
  induction s1 as [| c s1 IH]; [done |].
  change (String c ((s1 ++ s2) ++ s3) = String c (s1 ++ (s2 ++ s3))).
  by rewrite IH.
Qed.

Lemma sapp_nil_r (s : string) : s ++ EmptyString = s.
Proof.
  induction s as [| c s IH]; [done |].
  change (String c (s ++ EmptyString) = String c s). by rewrite IH.
Qed.

Lemma valid_skip k s : valid_utf8 k s = valid_utf8 0 (drop k s).
Proof.
  revert s. induction k as [| k IH]; intros [| c r]; try done. apply IH.
Qed.

Lemma length_drop k s : (String.length (drop k s) ≤ String.length s)%nat.
Proof.
  revert s. induction k as [| k IH]; intros [| c r]; simpl; try lia.
  specialize (IH r). lia.
Qed.

(** A well-formed encoding of more than one byte. *)
Lemma lex_multibyte a r k :
  (code a <? 128)%N = false → utf8.size a r = S k →
  ∃ out its,
    json.quote_go json.Pass (String a r)
    = out ++ json.quote_go json.Pass (drop k r)
    ∧ (∀ items ps rest,
         steps (json.LStr items, ps) (out ++ rest)
         = steps (json.LStr (rev its ++ items), ps) rest)
    ∧ ∀ tl, json.unquote 0 (its ++ tl)
            = String a (take k r) ++ json.unquote 0 tl.
Proof.
  intros Ha Hsize.
  destruct (size_spec a r k Hsize) as (Hlen & Hhigh & Hstable).
  assert (Hcopy : json.quote_go json.Pass (String a r) = String a (take k r ++ json.quote_go json.Pass (drop k r))
                  ∨ ∃ a3 r', r = String (byte 128) (String a3 r') ∧ a = byte 226
                             ∧ (a3 = byte 168 ∨ a3 = byte 169)).
  { simpl. rewrite Ha, Hsize.
    assert (Hc : String a (json.quote_go (json.Copy k) r)
                 = String a (take k r ++ json.quote_go json.Pass (drop k r))).
    { f_equal. rewrite <- (take_drop k r) at 1. rewrite <- Hlen at 1.
      apply quote_go_Copy. }
    destruct r as [| a2 [| a3 r']]; [by left | by left |].
    destruct (is_byte 226 a && is_byte 128 a2 && (is_byte 168 a3 || is_byte 169 a3))
      eqn:Hspecial; [| by left].
    right. apply andb_prop in Hspecial as [H1 H3].
    apply andb_prop in H1 as [H1 H2].
    apply is_byte_eq in H1, H2. subst a a2. exists a3, r'.
    split; [done |]. split; [done |].
    apply orb_prop in H3 as [H3 | H3]; apply is_byte_eq in H3; auto. }
  destruct Hcopy as [Hcopy | (a3 & r' & -> & -> & Ha3)].
  - exists (String a (take k r)), (json.SRaw a :: raws (take k r)).
    split; [exact Hcopy |]. split.
    + intros items ps rest.
      change (String a (take k r) ++ rest) with (String a (take k r ++ rest)).
      rewrite steps_cons, high_feed.
      2:{ apply N.ltb_ge in Ha. by apply N.leb_le. }
      simpl. rewrite lex_raws by done. simpl. by rewrite <- app_assoc.
    + intros tl.
      change (json.unquote 0 (json.SRaw a :: (raws (take k r) ++ tl))
              = String a (take k r ++ json.unquote 0 tl)).
      simpl. rewrite Ha, raw_prefix_raws, Hstable. f_equal.
      rewrite <- Hlen at 1. apply unquote_raws.
  - assert (k = 2%nat) as ->.
    { destruct Ha3 as [-> | ->]; vm_compute in Hsize; by injection Hsize. }
    destruct Ha3 as [-> | ->].
    + exists "\u2028", [json.SUnit 8232].
      split; [by destruct r' |].
      split; [intros; reflexivity | intros; reflexivity].
    + exists "\u2029", [json.SUnit 8233].
      split; [by destruct r' |].
      split; [intros; reflexivity | intros; reflexivity].
Qed.

Lemma lex_body n :
  ∀ s, (String.length s ≤ n)%nat → valid_utf8 0 s = true →
  ∃ its,
    (∀ items ps rest,
       steps (json.LStr items, ps) (json.quote_go json.Pass s ++ rest)
       = steps (json.LStr (rev its ++ items), ps) rest)
    ∧ ∀ tl, json.unquote 0 (its ++ tl) = s ++ json.unquote 0 tl.
Proof.
  induction n as [| n IH]; intros [| a r] Hlen Hvalid;
    try (exists []; by split); [simpl in Hlen; lia |].
  simpl in Hlen. simpl in Hvalid.
  destruct (code a <? 128)%N eqn:Ha.
  - destruct (lex_ascii a Ha) as (Hlex & Hun).
    destruct (IH r ltac:(lia) Hvalid) as (its & Hlex' & Hun').
    exists (ascii_item a :: its). split.
    + intros items ps rest.
      replace (json.quote_go json.Pass (String a r))
        with ((if json.html_safe a then String a EmptyString
               else json.escape_ascii a) ++ json.quote_go json.Pass r)
        by (simpl; by rewrite Ha).
      rewrite sapp_assoc, Hlex, Hlex'. simpl. by rewrite <- app_assoc.
    + intros tl. change ((ascii_item a :: its) ++ tl)%list with (ascii_item a :: (its ++ tl))%list.
      by rewrite Hun, Hun'.
  - destruct (utf8.size a r) as [| k] eqn:Hsize; [discriminate |].
    rewrite valid_skip in Hvalid.
    destruct (lex_multibyte a r k Ha Hsize) as (out & its1 & Hq & Hlex & Hun).
    destruct (IH (drop k r)) as (its & Hlex' & Hun'); [| done |].
    { pose proof (length_drop k r). lia. }
    exists (its1 ++ its)%list. split.
    + intros items ps rest.
      rewrite Hq, sapp_assoc, Hlex, Hlex'. by rewrite rev_app_distr, <- app_assoc.
    + intros tl. rewrite <- app_assoc, Hun, Hun'.
      change (String a (take k r) ++ drop k r ++ json.unquote 0 tl)
        with (String a (take k r ++ (drop k r ++ json.unquote 0 tl))).
      by rewrite <- sapp_assoc, take_drop.
Qed.

(** The string literal [quote] writes is scanned as the string it was
    written from. *)
Lemma lex_quote s ps rest :
  valid_utf8 0 s = true →
  steps (json.LTop, ps) (json.quote s ++ rest)
  = ps' ← json.ptoken ps (json.TValue (json.Str s)); steps (json.LTop, ps') rest.
Proof.
  intros Hvalid.
  destruct (lex_body (String.length s) s ltac:(lia) Hvalid) as (its & Hlex & Hun).
  unfold json.quote.
  change (String dquote (json.quote_go json.Pass s ++ String dquote "") ++ rest)
    with (String dquote ((json.quote_go json.Pass s ++ String dquote "") ++ rest)).
  rewrite steps_cons.
  change (json.feed (json.LTop, ps) dquote) with (Some (json.LStr [], ps)).
  simpl mbind. rewrite sapp_assoc, Hlex.
  change (String dquote "" ++ rest) with (String dquote rest).
  rewrite steps_cons.
  change (json.feed (json.LStr (rev its ++ []), ps) dquote)
    with (ps' ← json.ptoken ps
                  (json.TValue (json.Str (json.unquote 0 (rev (rev its ++ [])))));
          Some (json.LTop, ps')).
  rewrite app_nil_r, rev_involutive.
  specialize (Hun []). rewrite app_nil_r in Hun. rewrite Hun. simpl json.unquote.
  rewrite sapp_nil_r.
  by destruct (json.ptoken ps (json.TValue (json.Str s))).
Qed.

(** ** The IRC status list on its way through the cache *)

Lemma lex_struct st es m rest :
  m = json.PValue ∨ m = json.PArrStart →
  valid_utf8 0 (Name st) = true →
  steps (json.LTop, (m, [json.FArr es])) (autobrr.Marshal_IRCStatus st ++ rest)
  = steps (json.LTop, (json.PAfter, [json.FArr (IRCStatus_value st :: es)])) rest.
Proof.
  intros Hm Hvalid. unfold autobrr.Marshal_IRCStatus.
  rewrite !sapp_assoc.
  transitivity
    (steps (json.LTop, (json.PValue, [json.FObj [] (Some "name"); json.FArr es]))
       (json.quote (Name st)
        ++ "," ++ json.quote "healthy" ++ ":" ++ json.Marshal_bool (Healthy st)
        ++ "," ++ json.quote "enabled" ++ ":" ++ json.Marshal_bool (Enabled st)
        ++ "}" ++ rest)).
  { destruct Hm as [-> | ->]; reflexivity. }
  rewrite lex_quote by done.
  unfold IRCStatus_value.
  destruct (Healthy st), (Enabled st); reflexivity.
Qed.

Lemma join_cons x y l :
  json.join (x :: y :: l) = x ++ "," ++ json.join (y :: l).
Proof. reflexivity. Qed.

Lemma lex_join l : ∀ st es m rest,
  m = json.PValue ∨ m = json.PArrStart →
  valid_names (st :: l) →
  steps (json.LTop, (m, [json.FArr es]))
    (json.join (autobrr.Marshal_IRCStatus <$> (st :: l)) ++ rest)
  = steps (json.LTop,
           (json.PAfter,
            [json.FArr (rev (IRCStatus_value <$> (st :: l)) ++ es)])) rest.
Proof.
  induction l as [| st' l IH]; intros st es m rest Hm Hvalid;
    apply Forall_cons in Hvalid as [Hst Hvalid].
  - simpl. by apply lex_struct.
  - rewrite !fmap_cons, join_cons, <- !fmap_cons, !sapp_assoc.
    rewrite lex_struct by done.
    change (steps (json.LTop, (json.PAfter, [json.FArr (IRCStatus_value st :: es)]))
              ("," ++ json.join (autobrr.Marshal_IRCStatus <$> st' :: l) ++ rest))
      with (steps (json.LTop, (json.PValue, [json.FArr (IRCStatus_value st :: es)]))
              (json.join (autobrr.Marshal_IRCStatus <$> st' :: l) ++ rest)).
    rewrite IH by auto.
    rewrite (fmap_cons _ st). simpl rev at 2. by rewrite <- app_assoc.
Qed.

Lemma IRCStatus_into_value st : autobrr.IRCStatus_into (IRCStatus_value st) = Some st.
Proof. by destruct st. Qed.

Lemma IRCStatuses_into_values l :
  autobrr.IRCStatuses_into (json.Array (IRCStatus_value <$> l)) = Some l.
Proof.
  unfold autobrr.IRCStatuses_into, json.slice_into.
  induction l as [| st l IH]; [reflexivity |].
  rewrite fmap_cons.
  change (mapM autobrr.IRCStatus_into (IRCStatus_value st :: (IRCStatus_value <$> l)))
    with (y ← autobrr.IRCStatus_into (IRCStatus_value st);
          k ← mapM autobrr.IRCStatus_into (IRCStatus_value <$> l); mret (y :: k)).
  rewrite IRCStatus_into_value, IH. reflexivity.
Qed.

(** What [json.Marshal] writes for a list of IRC statuses, [json.Unmarshal]
    reads back as that list; a nil list is written as null and read back
    as nil. *)
Lemma Unmarshal_Marshal_IRCStatuses l is_nil :
  valid_names l → (is_nil = true → l = []) →
  json.Unmarshal autobrr.IRCStatuses_into
    (json.Marshal_slice autobrr.Marshal_IRCStatus is_nil l) = inl l.
Proof.
  intros Hvalid Hnil. unfold json.Marshal_slice.
  destruct is_nil; [by rewrite (Hnil eq_refl) |].
  destruct l as [| st l]; [reflexivity |].
  unfold json.Unmarshal, json.parse. rewrite run_steps.
  change ("[" ++ json.join (autobrr.Marshal_IRCStatus <$> st :: l) ++ "]")
    with (String "[" (json.join (autobrr.Marshal_IRCStatus <$> st :: l) ++ "]")).
  rewrite steps_cons.
  change (json.feed json.init "[")
    with (Some (json.LTop, (json.PArrStart, [json.FArr []]))).
  change (Some (json.LTop, (json.PArrStart, [json.FArr []])) ≫= ?f)
    with (f (json.LTop, (json.PArrStart, [json.FArr []]))).
  cbv beta. rewrite lex_join by auto.
  rewrite app_nil_r.
  change (steps _ "]" ≫= json.finish)
    with (Some (json.Array (rev (rev (IRCStatus_value <$> st :: l))))).
  rewrite rev_involutive. by rewrite IRCStatuses_into_values.
Qed.

Lemma Marshal_slice_not_empty {T} (elem : T → string) is_nil l :
  json.Marshal_slice elem is_nil l ≠ EmptyString.
Proof. unfold json.Marshal_slice. by destruct is_nil. Qed.

(** ** Strings that have been decoded are well-formed UTF-8 *)

(** Deciding the comparisons of numbers that are known up to bounds. *)
Ltac compare_N :=
  repeat match goal with
         | |- context [code (byte ?n)] => rewrite (code_byte n) by lia
         | |- context [(?a <=? ?b)%N] =>
             first [ rewrite (proj2 (N.leb_le a b)) by lia
                   | rewrite (proj2 (N.leb_gt a b)) by lia ]
         | |- context [(?a <? ?b)%N] =>
             first [ rewrite (proj2 (N.ltb_lt a b)) by lia
                   | rewrite (proj2 (N.ltb_ge a b)) by lia ]
         | |- context [(?a =? ?b)%N] =>
             first [ rewrite (proj2 (N.eqb_eq a b)) by lia
                   | rewrite (proj2 (N.eqb_neq a b)) by lia ]
         end.

Lemma split64 (r : N) : ∃ x y, r = (64 * x + y)%N ∧ (y < 64)%N
                               ∧ (r / 64 = x)%N ∧ (r mod 64 = y)%N.
Proof.
  exists (r / 64)%N, (r mod 64)%N. repeat split.
  - apply N.div_mod. lia.
  - apply N.mod_lt. lia.
Qed.

(** [utf8.EncodeRune] writes a well-formed encoding. *)
Lemma encode_valid cp s :
  (cp < 1114112)%N → ¬ (55296 ≤ cp < 57344)%N →
  valid_utf8 0 (utf8.encode cp ++ s) = valid_utf8 0 s.
Proof.
  intros Hmax Hsur. unfold utf8.encode.
  destruct (cp <? 128)%N eqn:H1; [| destruct (cp <? 2048)%N eqn:H2;
                                    [| destruct (cp <? 65536)%N eqn:H3]].
  - apply N.ltb_lt in H1.
    change (valid_utf8 0 (String (byte cp) s) = valid_utf8 0 s).
    simpl. by compare_N.
  - apply N.ltb_ge in H1. apply N.ltb_lt in H2.
    destruct (split64 cp) as (x & y & Hcp & Hy & -> & ->).
    change (valid_utf8 0 (String (byte (192 + x)) (String (byte (128 + y)) s))
            = valid_utf8 0 s).
    cbn [valid_utf8]. unfold utf8.size, utf8.cont, in_range, is_byte.
    by compare_N.
  - apply N.ltb_ge in H2. apply N.ltb_lt in H3.
    change 4096%N with (64 * 64)%N. rewrite <- N.Div0.div_div.
    destruct (split64 cp) as (x1 & y0 & Hcp & Hy0 & -> & ->).
    destruct (split64 x1) as (x2 & y1 & Hx1 & Hy1 & -> & ->).
    change (valid_utf8 0 (String (byte (224 + x2))
                            (String (byte (128 + y1)) (String (byte (128 + y0)) s)))
            = valid_utf8 0 s).
    cbn [valid_utf8]. unfold utf8.size, utf8.conts, utf8.cont, in_range, is_byte.
    assert (x2 = 0 ∨ (1 ≤ x2 ≤ 12) ∨ x2 = 13 ∨ (14 ≤ x2 ≤ 15))%N as Hcases by lia.
    destruct Hcases as [-> | [? | [-> | ?]]]; compare_N; simpl; by compare_N.
  - apply N.ltb_ge in H3.
    change 262144%N with (64 * 64 * 64)%N. change 4096%N with (64 * 64)%N.
    rewrite <- !N.Div0.div_div.
    destruct (split64 cp) as (x1 & y0 & Hcp & Hy0 & -> & ->).
    destruct (split64 x1) as (x2 & y1 & Hx1 & Hy1 & -> & ->).
    destruct (split64 x2) as (x3 & y2 & Hx2 & Hy2 & -> & ->).
    change (valid_utf8 0 (String (byte (240 + x3))
                            (String (byte (128 + y2))
                               (String (byte (128 + y1))
                                  (String (byte (128 + y0)) s))))
            = valid_utf8 0 s).
    cbn [valid_utf8]. unfold utf8.size, utf8.conts, utf8.cont, in_range, is_byte.
    assert (x3 = 0 ∨ (1 ≤ x3 ≤ 3) ∨ x3 = 4)%N as Hcases by lia.
    destruct Hcases as [-> | [? | ->]]; compare_N; simpl; by compare_N.
Qed.

Lemma replacement_valid s :
  valid_utf8 0 (utf8.replacement ++ s) = valid_utf8 0 s.
Proof. reflexivity. Qed.

Lemma in_range_cont lo hi a :
  (128 <= lo)%N → (hi <= 191)%N → in_range lo hi a = true → utf8.cont a = true.
Proof.
  unfold utf8.cont, in_range. intros Hlo Hhi H.
  apply andb_prop in H as [H1 H2]. apply N.leb_le in H1, H2.
  apply andb_true_intro. split; apply N.leb_le; lia.
Qed.

Lemma size_conts a r k : utf8.size a r = S k → utf8.conts k r = true.
Proof.
  unfold utf8.size.
  destruct r as [| a2 r2]; [discriminate |].
  repeat match goal with
         | |- context [if ?b then _ else _] =>
             let H := fresh "H" in destruct b eqn:H; try discriminate
         end;
    intros [= <-];
    repeat match goal with
           | H : _ && _ = true |- _ => apply andb_prop in H as [? ?]
           end;
    change (utf8.conts (S ?k) (String a2 r2))
      with (utf8.cont a2 && utf8.conts k r2);
    apply andb_true_intro; (split; [| done]);
    first [ assumption
          | eapply in_range_cont; [| | eassumption]; lia ].
Qed.

Lemma unquote_take k : ∀ items,
  utf8.conts k (json.raw_prefix items) = true →
  ∃ rest, json.unquote k items = take k (json.raw_prefix items) ++ rest.
Proof.
  induction k as [| k IH]; intros items Hc; [by eexists |].
  destruct items as [| [a | a | u] items]; try discriminate.
  change (utf8.cont a && utf8.conts k (json.raw_prefix items) = true) in Hc.
  apply andb_prop in Hc as [_ Hc]. destruct (IH items Hc) as [rest Hrest].
  exists rest.
  change (String a (json.unquote k items)
          = String a (take k (json.raw_prefix items) ++ rest)).
  by rewrite Hrest.
Qed.

(** [unquote] gives well-formed UTF-8, whatever the literal held. *)
Lemma unquote_valid n : ∀ items skip,
  (length items ≤ n)%nat → forallb item_ok items = true →
  utf8.conts skip (json.raw_prefix items) = true →
  valid_utf8 skip (json.unquote skip items) = true.
Proof.
  induction n as [| n IH]; intros [| it items] skip Hlen Hok Hconts;
    try reflexivity; [simpl in Hlen; lia |].
  simpl in Hlen. simpl in Hok. apply andb_prop in Hok as [Hit Hok].
  destruct it as [a | a | u].
  - (* a byte of the source *)
    destruct skip as [| k].
    + simpl json.unquote.
      destruct (code a <? 128)%N eqn:Ha.
      * simpl. rewrite Ha. apply IH; [lia | done | done].
      * destruct (utf8.size a (json.raw_prefix items)) as [| k] eqn:Hsize.
        -- rewrite replacement_valid. apply IH; [lia | done | done].
        -- pose proof (size_conts _ _ _ Hsize) as Hc.
           destruct (unquote_take k items Hc) as [rest Hrest].
           destruct (size_spec _ _ _ Hsize) as (_ & _ & Hstable).
           simpl. rewrite Ha. rewrite Hrest at 1. rewrite Hstable.
           apply IH; [lia | done | done].
    + change (utf8.cont a && utf8.conts k (json.raw_prefix items) = true) in Hconts.
      apply andb_prop in Hconts as [_ Hconts].
      change (valid_utf8 k (json.unquote k items) = true).
      apply IH; [lia | done | done].
  - (* an escape *)
    destruct skip; [| discriminate]. simpl in Hit.
    simpl. rewrite Hit. apply IH; [lia | done | done].
  - (* a UTF-16 unit *)
    destruct skip; [| discriminate]. simpl in Hit. apply N.ltb_lt in Hit.
    assert (Hrest : valid_utf8 0 (json.unquote 0 items) = true)
      by (apply IH; [lia | done | done]).
    cbn [json.unquote].
    destruct (json.high_surrogate u) eqn:Hhigh.
    + destruct items as [| [a2 | a2 | u2] items2];
        try (by rewrite replacement_valid).
      destruct (json.low_surrogate u2) eqn:Hlow;
        [| by rewrite replacement_valid].
      unfold json.high_surrogate in Hhigh. unfold json.low_surrogate in Hlow.
      apply andb_prop in Hhigh as [H1 H2]. apply N.leb_le in H1.
      apply N.ltb_lt in H2.
      apply andb_prop in Hlow as [H3 H4]. apply N.leb_le in H3.
      apply N.ltb_lt in H4.
      simpl in Hok. apply andb_prop in Hok as [_ Hok2].
      rewrite encode_valid by lia. apply IH; [simpl in *; lia | done | done].
    + destruct (json.low_surrogate u) eqn:Hlow; [by rewrite replacement_valid |].
      rewrite encode_valid; [exact Hrest | lia |].
      unfold json.high_surrogate in Hhigh. unfold json.low_surrogate in Hlow.
      apply andb_false_iff in Hhigh, Hlow.
      rewrite N.leb_gt, N.ltb_ge in Hhigh, Hlow. lia.
Qed.

Lemma forallb_rev {A} (f : A → bool) l : forallb f (rev l) = forallb f l.
Proof.
  induction l as [| x l IH]; [done |]. simpl.
  rewrite forallb_app, IH. simpl. rewrite andb_true_r. apply andb_comm.
Qed.

Lemma deliver_ok v stack ps :
  vvalid v = true → forallb frame_ok stack = true →
  json.deliver v stack = Some ps → pstate_ok ps = true.
Proof.
  intros Hv Hst. unfold json.deliver, pstate_ok.
  destruct stack as [| [es | fs [k |]] st]; intros [= <-]; simpl in *;
    try apply andb_prop in Hst as [H1 H2];
    rewrite ?Hv, ?H1, ?H2; done.
Qed.

Lemma push_ok f m stack ps :
  frame_ok f = true → forallb frame_ok stack = true →
  (match m with json.PDone _ => false | _ => true end) = true →
  json.push f m stack = Some ps → pstate_ok ps = true.
Proof.
  intros Hf Hst Hm. unfold json.push, pstate_ok.
  destruct (_ <? _)%N; intros [= <-]; simpl. rewrite Hf, Hst. by destruct m.
Qed.

Lemma begin_value_ok t stack ps :
  token_ok t = true → forallb frame_ok stack = true →
  json.begin_value t stack = Some ps → pstate_ok ps = true.
Proof.
  intros Ht Hst. unfold json.begin_value.
  destruct t; try discriminate.
  - by apply push_ok.
  - by apply push_ok.
  - by apply deliver_ok.
Qed.

Lemma begin_key_ok t stack ps :
  forallb frame_ok stack = true →
  json.begin_key t stack = Some ps → pstate_ok ps = true.
Proof.
  intros Hst. unfold json.begin_key.
  destruct t as [| | | | | | [| | | k | |]]; try discriminate.
  destruct stack as [| [es | fs [k' |]] st]; try discriminate.
  intros [= <-]. unfold pstate_ok. simpl in *. by rewrite Hst.
Qed.

Lemma ptoken_ok ps t ps' :
  pstate_ok ps = true → token_ok t = true →
  json.ptoken ps t = Some ps' → pstate_ok ps' = true.
Proof.
  destruct ps as [m stack]. unfold pstate_ok at 1. simpl.
  intros Hps Ht. apply andb_prop in Hps as [Hst Hm].
  assert (Hclose_arr : ∀ es st, forallb frame_ok (json.FArr es :: st) = true →
            json.deliver (json.Array (rev es)) st = Some ps' →
            pstate_ok ps' = true).
  { intros es st H. simpl in H. apply andb_prop in H as [H1 H2].
    apply deliver_ok; [| done]. simpl. by rewrite forallb_rev. }
  assert (Hclose_obj : ∀ fs k st,
            forallb frame_ok (json.FObj fs k :: st) = true →
            json.deliver (json.Object (rev fs)) st = Some ps' →
            pstate_ok ps' = true).
  { intros fs k st H. simpl in H. apply andb_prop in H as [H1 H2].
    apply deliver_ok; [| done]. simpl. by rewrite forallb_rev. }
  destruct m; simpl.
  - by apply begin_value_ok.
  - destruct t; try (by apply begin_value_ok).
    destruct stack as [| [es | fs k] st]; try (by apply begin_value_ok).
    by apply Hclose_arr.
  - destruct t; try (by apply begin_key_ok).
    destruct stack as [| [es | fs [k |]] st]; try (by apply begin_key_ok).
    by apply (Hclose_obj fs None).
  - by apply begin_key_ok.
  - destruct t; try discriminate. intros [= <-]. unfold pstate_ok. simpl.
    by rewrite Hst.
  - destruct t; try discriminate;
      destruct stack as [| [es | fs [k |]] st]; try discriminate;
      first [ intros [= <-]; unfold pstate_ok; simpl in *; by rewrite Hst
            | by apply Hclose_arr
            | by apply (Hclose_obj fs None) ].
  - discriminate.
Qed.

Lemma escape_code c a : json.escape c = Some a → (code a <? 128)%N = true.
Proof.
  unfold json.escape.
  repeat match goal with
         | |- context [if ?b then _ else _] =>
             let H := fresh "H" in destruct b eqn:H
         end; intros [= <-]; try reflexivity.
  repeat match goal with
         | H : _ || _ = true |- _ => apply orb_prop in H as [H | H]
         end; apply is_byte_eq in H; by subst.
Qed.

Lemma hex_val_lt c d : json.hex_val c = Some d → (d <? 16)%N = true.
Proof.
  unfold json.hex_val, json.digit, in_range.
  repeat match goal with
         | |- context [if ?b then _ else _] =>
             let H := fresh "H" in destruct b eqn:H
         end; intros [= <-];
    match goal with
    | H : _ && _ = true |- _ =>
        let H1 := fresh in let H2 := fresh in
        apply andb_prop in H as [H1 H2]; apply N.leb_le in H1, H2;
        apply N.ltb_lt; lia
    end.
Qed.

Lemma top_ok ps c st :
  pstate_ok ps = true → json.top ps c = Some st → state_ok st = true.
Proof.
  intros Hps. unfold json.top.
  repeat match goal with
         | |- context [if ?b then _ else _] => destruct b
         end;
    try discriminate;
    try (intros [= <-]; exact Hps);
    match goal with
    | |- context [json.ptoken ps ?t] =>
        destruct (json.ptoken ps t) as [ps' |] eqn:Ht; [| discriminate];
        intros [= <-]; by apply (ptoken_ok ps t)
    end.
Qed.

Lemma feed_ok st c st' :
  state_ok st = true → json.feed st c = Some st' → state_ok st' = true.
Proof.
  destruct st as [lm ps]. unfold state_ok. simpl.
  intros Hst. apply andb_prop in Hst as [Hlm Hps].
  destruct lm as [| acc | acc | items | items | items ds]; simpl.
  - by apply top_ok.
  - destruct (json.number_char c); [intros [= <-]; exact Hps |].
    unfold json.end_number. destruct (json.valid_number _); [| discriminate].
    destruct (json.ptoken ps _) as [ps' |] eqn:Ht; [| discriminate]. simpl.
    apply top_ok. by apply (ptoken_ok ps (json.TValue (json.Number (String.rev acc)))).
  - destruct (in_range 97 122 c); [intros [= <-]; exact Hps |].
    unfold json.end_literal.
    destruct (json.literal (String.rev acc)) as [v |] eqn:Hv; [| discriminate].
    simpl. destruct (json.ptoken ps _) as [ps' |] eqn:Ht; [| discriminate]. simpl.
    apply top_ok. apply (ptoken_ok ps (json.TValue v)); [done | | done].
    unfold json.literal in Hv.
    repeat match goal with
           | H : context [if ?b then _ else _] |- _ => destruct b
           end; by inversion Hv.
  - simpl in Hlm.
    destruct (is_byte 34 c).
    + destruct (json.ptoken ps _) as [ps' |] eqn:Ht; [| discriminate].
      intros [= <-]. simpl.
      apply (ptoken_ok ps (json.TValue (json.Str (json.unquote 0 (rev items)))));
        [done | | done].
      simpl. apply (unquote_valid (length (rev items))); [lia | | done].
      by rewrite forallb_rev.
    + destruct (is_byte 92 c); [intros [= <-]; simpl; by rewrite Hlm, Hps |].
      destruct (code c <? 32)%N; [discriminate |].
      intros [= <-]. simpl. by rewrite Hlm, Hps.
  - simpl in Hlm.
    destruct (is_byte 117 c); [intros [= <-]; simpl; by rewrite Hlm, Hps |].
    destruct (json.escape c) as [a |] eqn:Ha; [| discriminate].
    intros [= <-]. simpl. by rewrite (escape_code _ _ Ha), Hlm, Hps.
  - simpl in Hlm. apply andb_prop in Hlm as [Hitems Hds].
    destruct (json.hex_val c) as [d |] eqn:Hd; [| discriminate]. simpl.
    apply hex_val_lt in Hd.
    destruct ds as [| d3 [| d2 [| d1 [| d0 ds]]]]; intros [= <-]; simpl in *;
      rewrite ?Hitems, ?Hd, ?Hps, ?Hds; try done.
    repeat match goal with
           | H : _ && _ = true |- _ => apply andb_prop in H as [? ?]
           end.
    repeat match goal with
           | H : (_ <? _)%N = true |- _ => apply N.ltb_lt in H
           end.
    rewrite (proj2 (N.ltb_lt _ _)) by lia. done.
Qed.

Lemma finish_ok st v :
  state_ok st = true → json.finish st = Some v → vvalid v = true.
Proof.
  destruct st as [lm ps]. unfold state_ok. simpl.
  intros Hst. apply andb_prop in Hst as [Hlm Hps].
  assert (Hdone : ∀ ps', pstate_ok ps' = true →
            match ps' with
            | (json.PDone v', _) => Some v'
            | _ => None
            end = Some v → vvalid v = true).
  { intros [[] stack] Hok; try discriminate. intros [= <-].
    unfold pstate_ok in Hok. simpl in Hok. by apply andb_prop in Hok as [_ ?]. }
  destruct lm as [| acc | acc | items | items | items ds]; simpl; try discriminate.
  - by apply Hdone.
  - unfold json.end_number. destruct (json.valid_number _); [| discriminate].
    destruct (json.ptoken ps _) as [ps' |] eqn:Ht; [| discriminate]. simpl.
    apply Hdone. by apply (ptoken_ok ps (json.TValue (json.Number (String.rev acc)))).
  - unfold json.end_literal.
    destruct (json.literal (String.rev acc)) as [v' |] eqn:Hv; [| discriminate].
    simpl. destruct (json.ptoken ps _) as [ps' |] eqn:Ht; [| discriminate]. simpl.
    apply Hdone. apply (ptoken_ok ps (json.TValue v')); [done | | done].
    unfold json.literal in Hv.
    repeat match goal with
           | H : context [if ?b then _ else _] |- _ => destruct b
           end; by inversion Hv.
Qed.

Lemma run_ok s : ∀ st v,
  state_ok st = true → json.run st s = Some v → vvalid v = true.
Proof.
  induction s as [| c s IH]; intros st v Hst; simpl.
  - by apply finish_ok.
  - destruct (json.feed st c) as [st' |] eqn:Hfeed; [| discriminate]. simpl.
    apply IH. by apply (feed_ok st c).
Qed.

(** Every string of a value [json.Unmarshal] has read is well-formed UTF-8. *)
Lemma parse_ok s v : json.parse s = Some v → vvalid v = true.
Proof. by apply run_ok. Qed.

(** The names of decoded IRC statuses. *)
Lemma set_IRCStatus_valid k v t t' :
  vvalid v = true → valid_utf8 0 (Name t) = true →
  autobrr.set_IRCStatus k v t = Some t' → valid_utf8 0 (Name t') = true.
Proof.
  intros Hv Ht. unfold autobrr.set_IRCStatus.
  destruct (json.names k "name").
  - destruct v; try discriminate; intros [= <-]; done.
  - destruct (json.names k "healthy").
    + destruct (json.bool_field v (Healthy t)); intros [= <-]; done.
    + destruct (json.names k "enabled"); [| by intros [= <-]].
      destruct (json.bool_field v (Enabled t)); intros [= <-]; done.
Qed.

Lemma IRCStatus_into_valid v st :
  vvalid v = true → autobrr.IRCStatus_into v = Some st →
  valid_utf8 0 (Name st) = true.
Proof.
  unfold autobrr.IRCStatus_into, json.struct_into.
  destruct v as [| | | | | fs]; try discriminate.
  - intros _ [= <-]. reflexivity.
  - simpl vvalid.
    assert (Hzero : valid_utf8 0 (Name autobrr.zero_IRCStatus) = true) by reflexivity.
    revert Hzero. generalize autobrr.zero_IRCStatus. revert st.
    induction fs as [| [k x] fs IH]; intros st cur Hcur Hfs; simpl.
    + by intros [= <-].
    + simpl in Hfs. apply andb_prop in Hfs as [Hx Hfs].
      destruct (autobrr.set_IRCStatus k x cur) as [t |] eqn:Hset.
      * apply IH; [| done]. by apply (set_IRCStatus_valid k x cur).
      * clear. induction fs as [| kv fs IH]; [discriminate | exact IH].
Qed.

Lemma IRCStatuses_into_valid v l :
  vvalid v = true → autobrr.IRCStatuses_into v = Some l → valid_names l.
Proof.
  unfold autobrr.IRCStatuses_into, json.slice_into, valid_names.
  destruct v as [| | | | vs |]; try discriminate.
  - intros _ [= <-]. constructor.
  - simpl vvalid. intros Hvs Hmap. apply mapM_Some in Hmap.
    induction Hmap as [| x st vs l Hx _ IH]; [constructor |].
    simpl in Hvs. apply andb_prop in Hvs as [Hv Hvs].
    constructor; [by apply (IRCStatus_into_valid x) | by apply IH].
Qed.

Lemma Unmarshal_valid_names data l :
  json.Unmarshal autobrr.IRCStatuses_into data = inl l → valid_names l.
Proof.
  unfold json.Unmarshal. destruct (json.parse data) as [v |] eqn:Hv; [| done].
  destruct (autobrr.IRCStatuses_into v) as [l' |] eqn:Hl; [| done].
  intros [= <-]. apply (IRCStatuses_into_valid v); [| done]. by apply (parse_ok data).
Qed.

Lemma Unmarshal_valid_name data st :
  json.Unmarshal autobrr.IRCStatus_into data = inl st →
  valid_utf8 0 (Name st) = true.
Proof.
  unfold json.Unmarshal. destruct (json.parse data) as [v |] eqn:Hv; [| done].
  destruct (autobrr.IRCStatus_into v) as [st' |] eqn:Hst; [| done].
  intros [= <-]. apply (IRCStatus_into_valid v); [| done]. by apply (parse_ok data).
Qed.

(** The names GetIRCStatus returns are well-formed UTF-8. *)
Lemma valid_names_filter P l : valid_names l → valid_names (List.filter P l).
Proof.
  unfold valid_names. induction 1 as [| x l Hx _ IH]; simpl; [constructor |].
  destruct (P x); [by constructor | done].
Qed.

Lemma GetIRCStatus_valid_names e w url apiKey status :
  result (autobrr.GetIRCStatus url apiKey) e w = (status, None) →
  valid_names status.
Proof.
  unfold result, autobrr.GetIRCStatus, autobrr.GetIRCStatusFromCache.
  destruct (_ || _); [done |].
  rewrite !bind_run, GetVersionFromCache_run. simpl.
  assert (Hfetched :
    match (if negb (strings.empty (default EmptyString (cached w (url ++ "_irc"))))
           then match json.Unmarshal autobrr.IRCStatuses_into
                        (default EmptyString (cached w (url ++ "_irc"))) with
                | inl status0 => Some status0
                | inr _ => None
                end
           else None) with
    | Some status0 => valid_names status0
    | None => True
    end).
  { destruct (negb _); [| done].
    destruct (json.Unmarshal _ _) as [l |] eqn:Hl; [| done].
    by apply Unmarshal_valid_names in Hl. }
  revert Hfetched.
  destruct (if negb _ then _ else _) as [status0 |].
  { simpl. by intros Hv [= <-]. }
  intros _. unfold core.MakeRequestWithContext. rewrite !bind_run. simpl.
  destruct (net e _) as [resp | err]; [| done].
  destruct (negb _); [done |].
  destruct (core.ReadBody resp) as [body | err]; [| done].
  unfold autobrr.CacheIRCStatus, core.CacheVersion, core.cache_set.
  destruct (json.Unmarshal autobrr.IRCStatuses_into body) as [allStatus | ?] eqn:Hall.
  - rewrite !bind_run. simpl. intros Hres.
    assert (status = List.filter autobrr.unhealthy_enabled allStatus) as ->.
    { by injection Hres. }
    apply valid_names_filter. by apply Unmarshal_valid_names in Hall.
  - destruct (json.Unmarshal autobrr.IRCStatus_into body) as [singleStatus | ?] eqn:Hone;
      [| done].
    destruct (autobrr.unhealthy_enabled singleStatus).
    + rewrite !bind_run. simpl. intros Hres.
      assert (status = [singleStatus]) as ->.
      { by injection Hres. }
      constructor; [| constructor]. by apply Unmarshal_valid_name in Hone.
    + rewrite !bind_run. simpl. intros Hres.
      assert (status = []) as ->.
      { by injection Hres. }
      constructor.
Qed.

(** ** The IRC status list that is served again *)

Lemma GetIRCStatus_fetched e w url apiKey status :
  missing w (url ++ "_irc") → cache_refuses e (url ++ "_irc") = false →
  result (autobrr.GetIRCStatus url apiKey) e w = (status, None) →
  let w1 := after (autobrr.GetIRCStatus url apiKey) e w in
  ∃ text, cache w1 !! (url ++ "_irc") = Some (text, now w1 + 5 * Minute)
          ∧ text ≠ EmptyString
          ∧ json.Unmarshal autobrr.IRCStatuses_into text = inl status.
Proof.
  intros Hmiss Hok Hres. pose proof (GetIRCStatus_valid_names _ _ _ _ _ Hres) as Hvalid.
  revert Hmiss Hok Hres Hvalid.
  unfold missing, result, after, autobrr.GetIRCStatus,
    autobrr.GetIRCStatusFromCache.
  destruct (_ || _); [done |].
  rewrite !bind_run, GetVersionFromCache_run. simpl. intros -> Hok. simpl.
  unfold core.MakeRequestWithContext. rewrite !bind_run. simpl.
  destruct (net e _) as [resp | err]; [| done].
  destruct (negb _); [done |].
  destruct (core.ReadBody resp) as [body | err]; [| done].
  unfold autobrr.CacheIRCStatus, core.CacheVersion, core.cache_set.
  destruct (json.Unmarshal autobrr.IRCStatuses_into body) as [allStatus | ?].
  - rewrite !bind_run. simpl. rewrite Hok. simpl. intros [= <-] Hvalid.
    eexists. split; [apply lookup_insert_eq |].
    split; [apply Marshal_slice_not_empty |].
    apply Unmarshal_Marshal_IRCStatuses; [done |].
    intros Hnil. apply Nat.eqb_eq in Hnil. by apply nil_length_inv.
  - destruct (json.Unmarshal autobrr.IRCStatus_into body) as [singleStatus | ?];
      [| done].
    destruct (autobrr.unhealthy_enabled singleStatus).
    + rewrite !bind_run. simpl. rewrite Hok. simpl. intros [= <-] Hvalid.
      eexists. split; [apply lookup_insert_eq |].
      split; [done |].
      by apply (Unmarshal_Marshal_IRCStatuses [singleStatus] false).
    + rewrite !bind_run. simpl. rewrite Hok. simpl. intros [= <-] Hvalid.
      eexists. split; [apply lookup_insert_eq |]. by split.
Qed.

(** X18.  The IRC status list is served again for five minutes.  After
    GetIRCStatus has fetched a list without an error (nothing served from
    the cache, the cache taking the write), a call less than five minutes
    later returns the same list, read back from the JSON text that was
    cached, and leaves the state as it is: nothing is requested. *)
Theorem X18_irc_status_cached_five_minutes (e e' : Env) (w : World)
    (url apiKey : string) (status : list IRCStatus) (d : Z) :
  missing w (url ++ "_irc") → cache_refuses e (url ++ "_irc") = false →
  result (autobrr.GetIRCStatus url apiKey) e w = (status, None) →
  (d < 5 * Minute)%Z →
  let w1 := advance d (after (autobrr.GetIRCStatus url apiKey) e w) in
  autobrr.GetIRCStatus url apiKey e' w1 = (status, None, w1).
Proof.
  intros Hmiss Hok Hres Hd w1.
  assert (Hurl : url ≠ EmptyString).
  { intros ->. discriminate Hres. }
  assert (Hkey : apiKey ≠ EmptyString).
  { intros ->. unfold result, autobrr.GetIRCStatus in Hres.
    rewrite orb_true_r in Hres. discriminate Hres. }
  destruct (GetIRCStatus_fetched e w url apiKey status Hmiss Hok Hres)
    as (text & Hc & Htext & Hdec).
  apply (cached_fresh _ _ _ _ d) in Hc. fold w1 in Hc.
  rewrite (proj2 (Z.ltb_lt _ _) Hd) in Hc.
  by apply GetIRCStatus_hit with text.
Qed.

(** X18 at the upstream of the examples, one second before the five minutes
    are over. *)
Lemma X18_witness :
  let url := "http://x:7474" in
  let e := env_of autobrr_upstream true in
  let b := {| Name := "b"; Healthy := false; Enabled := true |} in
  let w1 := advance 299 (after (autobrr.GetIRCStatus url "abc") e world0) in
  (missing world0 (url ++ "_irc")
   ∧ result (autobrr.GetIRCStatus url "abc") e world0 = ([b], None))
  ∧ autobrr.GetIRCStatus url "abc" e w1 = ([b], None, w1).
Proof.
  intros url e b w1.
  split; [by split |].
  apply (X18_irc_status_cached_five_minutes e e world0 url "abc" [b] 299);
    done.
Defined.

(** ** A check with a warm cache *)

Lemma settled_cached w0 cs w k : settled w0 cs w → cached w k = cached w0 k.
Proof. intros (Hc & Hn & _). unfold cached. by rewrite Hc, Hn. Qed.

Lemma GetReleaseStats_after e w url apiKey :
  url ≠ EmptyString → apiKey ≠ EmptyString →
  after (autobrr.GetReleaseStats url apiKey) e w
  = log_call (stats_request url apiKey) w.
Proof.
  intros Hurl Hkey. unfold after, autobrr.GetReleaseStats.
  rewrite (empty_false _ Hurl), (empty_false _ Hkey). simpl.
  unfold core.MakeRequestWithContext. rewrite !bind_run. simpl.
  unfold stats_request, autobrr_request.
  destruct (net e _) as [resp | err]; [| done].
  destruct (negb _); [done |].
  destruct (core.ReadBody resp) as [body | err]; [| done].
  by destruct (json.Decode autobrr.AutobrrStats_into body).
Qed.

Section warm.
Context (w0 : World) (url apiKey v u i : string) (status : list IRCStatus).
Hypothesis Hurl : url ≠ EmptyString.
Hypothesis Hkey : apiKey ≠ EmptyString.
Hypothesis Hv : cached w0 url = Some v.
Hypothesis Hv' : v ≠ EmptyString.
Hypothesis Hu : cached w0 (url ++ "_update") = Some u.
Hypothesis Hu' : u ≠ EmptyString.
Hypothesis Hi : cached w0 (url ++ "_irc") = Some i.
Hypothesis Hi' : i ≠ EmptyString.
Hypothesis Hdec : json.Unmarshal autobrr.IRCStatuses_into i = inl status.

Lemma warm_version_task e cs w c :
  settled w0 cs w → settled w0 cs (after (autobrr.version_task url apiKey c) e w).
Proof.
  intros Hw. unfold after, autobrr.version_task. rewrite bind_run.
  rewrite (GetVersion_hit e w url apiKey v Hv')
    by (by rewrite (settled_cached w0 cs)).
  exact Hw.
Qed.

Lemma warm_update_task e cs w c :
  settled w0 cs w → settled w0 cs (after (autobrr.update_task url apiKey c) e w).
Proof.
  intros Hw. unfold after, autobrr.update_task. rewrite bind_run.
  rewrite (CheckUpdate_hit e w url apiKey u Hu')
    by (by rewrite (settled_cached w0 cs)).
  exact Hw.
Qed.

Lemma warm_await {A} e cs in_time t (body : M unit) (received timeout : M A) :
  (∀ w, settled w0 cs w → settled w0 cs (after body (in_task e) w)) →
  (∀ w, settled w0 cs w → settled w0 cs (after received e w)) →
  (∀ w, settled w0 cs w → settled w0 cs (after timeout e w)) →
  hoare e (settled w0 cs) (await in_time t body received timeout)
    (λ _, settled w0 cs).
Proof.
  intros Hb Hr Ht w Hw. unfold await. destruct (in_time e).
  - rewrite !bind_run. apply Hr. apply (Hb (finished t e w).2). exact Hw.
  - by apply Ht.
Qed.

Lemma warm_check e :
  hoare e (settled w0 (calls w0)) (autobrr.CheckHealth url apiKey)
    (λ _, settled w0 (autobrr.liveness_request url apiKey
                      :: stats_request url apiKey :: calls w0)).
Proof.
  unfold autobrr.CheckHealth.
  eapply hoare_bind with (Q := λ _, settled w0 (calls w0));
    [intros w Hw; exact Hw | intros startTime].
  rewrite (empty_false _ Hurl), (empty_false _ Hkey). simpl.
  eapply hoare_bind with (Q := λ _, settled w0 (calls w0));
    [intros w Hw; exact Hw | intros versionChan].
  eapply hoare_bind with (Q := λ _, settled w0 (calls w0));
    [intros w Hw; exact Hw | intros ?].
  eapply hoare_bind with (Q := λ _, settled w0 (calls w0));
    [intros w Hw; exact Hw | intros updateChan].
  eapply hoare_bind with (Q := λ _, settled w0 (calls w0));
    [intros w Hw; exact Hw | intros ?].
  eapply hoare_bind with (Q := λ _, settled w0 (stats_request url apiKey :: calls w0)).
  { intros w (Hc & Hn & Hcs).
    change ((autobrr.GetReleaseStats url apiKey e w).2)
      with (after (autobrr.GetReleaseStats url apiKey) e w).
    rewrite GetReleaseStats_after by done. by rewrite <- Hcs. }
  intros r.
  eapply hoare_bind
    with (Q := λ _, settled w0 (autobrr.liveness_request url apiKey
                                :: stats_request url apiKey :: calls w0)).
  { intros w (Hc & Hn & Hcs). unfold autobrr.liveness_request.
    repeat split; simpl; congruence. }
  intros resp.
  set (cs2 := autobrr.liveness_request url apiKey
              :: stats_request url apiKey :: calls w0).
  destruct resp as [resp | err]; [| by apply hoare_ret].
  destruct (negb _); [by apply hoare_ret |].
  destruct (core.ReadBody resp); [| by apply hoare_ret].
  destruct (_ && _); [by apply hoare_ret |].
  eapply hoare_bind with (Q := λ _, settled w0 cs2).
  { apply (warm_await e cs2); [intros; by apply warm_version_task | by intros | by intros]. }
  intros version.
  eapply hoare_bind with (Q := λ _, settled w0 cs2).
  { apply (warm_await e cs2); [intros; by apply warm_update_task | by intros | by intros]. }
  intros hasUpdate.
  eapply hoare_bind with (Q := λ _, settled w0 cs2).
  { intros w Hw.
    rewrite (GetIRCStatus_hit e w url apiKey i Hi' status) by
      (first [done | by rewrite (settled_cached w0 _ w _ Hw)]).
    exact Hw. }
  intros irc. destruct (irc.2); [by apply hoare_ret |].
  destruct (negb _); by apply hoare_ret.
Qed.

Lemma warm_drain e cs w :
  settled w0 cs w → Forall (autobrr_task url apiKey) (tasks w) →
  settled w0 cs (after drain e w).
Proof.
  intros Hw. unfold after, drain. simpl.
  assert (Hstart : settled w0 cs (set_tasks (λ _, []) w)) by exact Hw.
  revert Hstart. generalize (set_tasks (λ _, []) w).
  induction (tasks w) as [| t l IH]; intros w' Hw' Hl; [exact Hw' |].
  simpl. apply Forall_cons in Hl as [Ht Hl]. apply IH; [| exact Hl].
  destruct Ht as [c [-> | ->]]; simpl.
  - by apply warm_version_task.
  - by apply warm_update_task.
Qed.

End warm.

(** X19.  A check of autobrr with a warm cache.  When the version, the
    update flag and the IRC status are all cached, a check sends exactly
    two requests, for the release statistics and then for the liveness,
    neither it nor the goroutines it started send any other, and the cache
    is left as it was. *)
Theorem X19_warm_cache_two_requests (e e' : Env) (w : World)
    (url apiKey v u i : string) (status : list IRCStatus) :
  url ≠ EmptyString → apiKey ≠ EmptyString → tasks w = [] →
  cached w url = Some v → v ≠ EmptyString →
  cached w (url ++ "_update") = Some u → u ≠ EmptyString →
  cached w (url ++ "_irc") = Some i → i ≠ EmptyString →
  json.Unmarshal autobrr.IRCStatuses_into i = inl status →
  let w1 := after (autobrr.CheckHealth url apiKey) e w in
  let w2 := after drain e' w1 in
  calls w2 = autobrr.liveness_request url apiKey
             :: stats_request url apiKey :: calls w
  ∧ calls w1 = calls w2
  ∧ cache w2 = cache w.
Proof.
  intros Hurl Hkey Htasks Hv Hv' Hu Hu' Hi Hi' Hdec w1 w2.
  assert (H1 : settled w (autobrr.liveness_request url apiKey
                          :: stats_request url apiKey :: calls w) w1).
  { apply (warm_check w url apiKey v u i status); try done. }
  assert (H2 : settled w (autobrr.liveness_request url apiKey
                          :: stats_request url apiKey :: calls w) w2).
  { apply (warm_drain w url apiKey v u); try done.
    apply autobrr_tasks. rewrite Htasks. constructor. }
  destruct H1 as (_ & _ & H1). destruct H2 as (H2c & _ & H2).
  by rewrite H1, H2.
Qed.

(** X19 with the three entries cached and goroutines that run late. *)
Lemma X19_witness :
  let url := "http://x:7474" in
  let e := env_of autobrr_upstream false in
  let w := advance 100
             (world_with [(url, ("1.2.3", 2 * Hour));
                          (url ++ "_update", ("false", 2 * Hour));
                          (url ++ "_irc", ("null", 5 * Minute))]) in
  let w1 := after (autobrr.CheckHealth url "abc") e w in
  let w2 := after drain e w1 in
  (url ≠ EmptyString ∧ "abc" ≠ EmptyString ∧ tasks w = []
   ∧ cached w url = Some "1.2.3" ∧ cached w (url ++ "_update") = Some "false"
   ∧ cached w (url ++ "_irc") = Some "null"
   ∧ json.Unmarshal autobrr.IRCStatuses_into "null" = inl [])
  ∧ calls w2 = [autobrr.liveness_request url "abc"; stats_request url "abc"]
  ∧ calls w1 = calls w2
  ∧ cache w2 = cache w.
Proof.
  intros url e w w1 w2.
  split; [by repeat split |].
  apply (X19_warm_cache_two_requests e e w url "abc" "1.2.3" "false" "null" []);
    done.
Defined.
